(** * ShellCheck plugin for gedit: a shallow embedding and its properties

    The development follows the two source files of the plugin:
    - [shellcheck/__init__.py]: the [Level] enumeration and the view
      activatable that schedules checks and parses the tool's output;
    - [shellcheck/gutterrenderer.py]: the gutter renderer with its tooltip
      previews and the range merger.

    Python integers are [Z], Python [str] is [string], exceptions are an
    explicit result type, and the object's fields are a record threaded through
    every method.  The GLib main loop, the Gtk text buffer and [json.loads],
    which the plugin only calls, are modelled by small executable definitions
    of their documented behaviour. *)

From Stdlib Require Import ZArith List String Ascii Bool Lia Arith.
Import ListNotations.

Local Open Scope string_scope.
Local Open Scope list_scope.
Local Open Scope Z_scope.

#[local] Set Warnings "-register-all".

(* ===================================================================== *)
(** * Part I: definitions *)
(* ===================================================================== *)

(** ** Python exceptions and results *)

Module Py.

(** The exception classes that the modelled code can raise. *)
Inductive exn : Type :=
| JSONDecodeError
| KeyError
| TypeError
| IndexError
| ValueError
| FileNotFoundError.

(** The outcome of a call: a returned value or a raised exception. *)
Inductive result (A : Type) : Type :=
| Return (a : A)
| Raise (e : exn).

Arguments Return {A} a.
Arguments Raise {A} e.

Definition bind {A B : Type} (r : result A) (k : A -> result B) : result B :=
  match r with
  | Return a => k a
  | Raise e => Raise e
  end.

End Py.

Notation "x <- c ;; k" := (Py.bind c (fun x => k))
  (at level 61, c at next level, right associativity).

(** ** [class Level(enum.Enum)] *)

Module Level.

Inductive t : Type := NOTE | INFO | WARN | ERROR | UNKNOWN.

(** The members' values, a (code, colour) pair each. *)
Definition value (l : t) : string * string :=
  match l with
  | NOTE => ("style", "#007FFF")
  | INFO => ("info", "#813d9c")
  | WARN => ("warning", "#f5c200")
  | ERROR => ("error", "#c01c28")
  | UNKNOWN => ("?", "#c64600")
  end.

(** [Level.__members__.values()], in definition order. *)
Definition members : list t := [NOTE; INFO; WARN; ERROR; UNKNOWN].

(** Members of an [Enum] compare equal only to themselves. *)
Definition eqb (a b : t) : bool :=
  match a, b with
  | NOTE, NOTE | INFO, INFO | WARN, WARN | ERROR, ERROR | UNKNOWN, UNKNOWN => true
  | _, _ => false
  end.

(** [list.index]: the position of the first element equal to [x]
    ([None] where Python raises [ValueError]). *)
Fixpoint index (x : t) (l : list t) : option nat :=
  match l with
  | [] => None
  | y :: l' => if eqb y x then Some O else option_map S (index x l')
  end.

(** [Level.__lt__]: compare the positions in [members]. *)
Definition lt (self other : t) : bool :=
  match index self members, index other members with
  | Some a, Some b => Nat.ltb a b
  | _, _ => false
  end.

(** The comparisons [functools.total_ordering] derives from [__lt__]. *)
Definition gt (self other : t) : bool := negb (lt self other) && negb (eqb self other).
Definition le (self other : t) : bool := lt self other || eqb self other.
Definition ge (self other : t) : bool := negb (lt self other).

Definition code (l : t) : string := fst (value l).
Definition color (l : t) : string := snd (value l).

(** The builtin [max] over a non-empty iterable: the running maximum is
    replaced only by an item that is strictly greater ([item > maxitem]). *)
Fixpoint max_from (maxitem : t) (rest : list t) : t :=
  match rest with
  | [] => maxitem
  | item :: rest' => max_from (if gt item maxitem then item else maxitem) rest'
  end.

Definition max (items : list t) : Py.result t :=
  match items with
  | [] => Py.Raise Py.ValueError
  | item :: rest => Py.Return (max_from item rest)
  end.

End Level.

(** ** Strings *)

(** [s] without the prefix [p], when it starts with it. *)
Fixpoint strip_prefix (p s : string) : option string :=
  match p, s with
  | EmptyString, _ => Some s
  | String a p', String b s' => if Ascii.eqb a b then strip_prefix p' s' else None
  | String _ _, EmptyString => None
  end.

(** [s.startswith(p)] *)
Definition startswith (s p : string) : bool :=
  match strip_prefix p s with Some _ => true | None => false end.

(** ** Python values

    The objects [json.loads] builds, plus the [Level] members that
    [parse_shellcheck] stores in the decoded records.  A [dict] keeps its
    insertion order; JSON object keys are always strings.  A float is kept as
    the text of its literal. *)

Module PyVal.

Inductive t : Type :=
| PNone
| PBool (b : bool)
| PInt (n : Z)
| PFloat (literal : string)
| PStr (s : string)
| PList (items : list t)
| PDict (pairs : list (string * t))
| PLevel (l : Level.t).

Definition is_digit (c : ascii) : bool :=
  let n := nat_of_ascii c in (Nat.leb 48 n && Nat.leb n 57)%bool.

(** Whether the mantissa of a float literal has a digit other than 0. *)
Fixpoint mantissa_nonzero (s : string) : bool :=
  match s with
  | EmptyString => false
  | String c s' =>
      if (Ascii.eqb c "e" || Ascii.eqb c "E")%bool then false
      else if (is_digit c && negb (Ascii.eqb c "0"))%bool then true
      else mantissa_nonzero s'
  end.

(** Whether a float is not 0.0, from its literal: [NaN] and the infinities
    are not, a number is when its mantissa is not (a literal so small that it
    rounds to 0.0 is not told apart). *)
Definition float_nonzero (literal : string) : bool :=
  (String.eqb literal "NaN" || String.eqb literal "Infinity"
   || String.eqb literal "-Infinity" || mantissa_nonzero literal)%bool.

(** Truth value testing ([if x:] and [not x]). *)
Definition truthy (v : t) : bool :=
  match v with
  | PNone => false
  | PBool b => b
  | PInt n => negb (n =? 0)
  | PFloat literal => float_nonzero literal
  | PStr s => negb (String.eqb s EmptyString)
  | PList items => match items with [] => false | _ => true end
  | PDict pairs => match pairs with [] => false | _ => true end
  | PLevel _ => true
  end.

(** [s == v] for a [str] [s]: only an equal [str] compares equal. *)
Definition str_eq (s : string) (v : t) : bool :=
  match v with
  | PStr s' => String.eqb s s'
  | _ => false
  end.

Fixpoint dict_get (pairs : list (string * t)) (key : string) : option t :=
  match pairs with
  | [] => None
  | (k, v) :: pairs' => if String.eqb k key then Some v else dict_get pairs' key
  end.

(** [d[key] = v]: an existing key keeps its position, a new one goes last. *)
Fixpoint dict_set (pairs : list (string * t)) (key : string) (v : t)
  : list (string * t) :=
  match pairs with
  | [] => [(key, v)]
  | (k, v0) :: pairs' =>
      if String.eqb k key then (k, v) :: pairs'
      else (k, v0) :: dict_set pairs' key v
  end.

(** [obj[key]] for a [str] key. *)
Definition getitem (obj : t) (key : string) : Py.result t :=
  match obj with
  | PDict pairs =>
      match dict_get pairs key with
      | Some v => Py.Return v
      | None => Py.Raise Py.KeyError
      end
  | _ => Py.Raise Py.TypeError
  end.

(** [obj[key] = v] for a [str] key. *)
Definition setitem (obj : t) (key : string) (v : t) : Py.result t :=
  match obj with
  | PDict pairs => Py.Return (PDict (dict_set pairs key v))
  | _ => Py.Raise Py.TypeError
  end.

(** The characters of a string, one string each (one per byte here; the
    body of the loop that visits them raises on the first, whatever it is). *)
Fixpoint chars (s : string) : list t :=
  match s with
  | EmptyString => []
  | String c s' => PStr (String c EmptyString) :: chars s'
  end.

(** The items a [for] loop over [obj] visits. *)
Definition iter (obj : t) : Py.result (list t) :=
  match obj with
  | PList items => Py.Return items
  | PDict pairs => Py.Return (map (fun kv => PStr (fst kv)) pairs)
  | PStr s => Py.Return (chars s)
  | _ => Py.Raise Py.TypeError
  end.

End PyVal.

(** [Level.by_code]: the first member whose code equals [code], else
    [UNKNOWN]. *)
Fixpoint by_code_from (levels : list Level.t) (code : PyVal.t) : Level.t :=
  match levels with
  | [] => Level.UNKNOWN
  | level :: levels' =>
      if PyVal.str_eq (Level.code level) code then level
      else by_code_from levels' code
  end.

Definition by_code (code : PyVal.t) : Level.t := by_code_from Level.members code.

(** ** The Gtk text buffer

    The part of [Gtk.TextBuffer] the renderer calls.  An iterator is a
    character offset, a mark an index into the buffer's table of marks, each
    with its offset and gravity.  Lines end at a line feed.  Line and column
    arguments are clamped the way GTK 3.20 and later document it: a line past
    the last one gives the end iterator, a column past the end of its line the
    end of that line (before its terminator). *)

Module Gtk.

Definition newline : ascii := "010"%char.

Definition is_newline (c : ascii) : bool := Ascii.eqb c newline.

Definition TextIter : Type := nat.
Definition TextMark : Type := nat.

Record TextBuffer : Type := {
  text : string;
  marks : list (nat * bool)   (* offset, left gravity *)
}.

Definition set_text (s : string) : TextBuffer := {| text := s; marks := [] |}.

(** [get_line_count]: one more than the number of line feeds. *)
Fixpoint line_count (s : string) : nat :=
  match s with
  | EmptyString => 1%nat
  | String c s' => if is_newline c then S (line_count s') else line_count s'
  end.

(** The offset at which line [n] (counted from 0) starts; the length of the
    text when it has no such line. *)
Fixpoint line_offset (s : string) (n : nat) : nat :=
  match n with
  | O => O
  | S n' =>
      match s with
      | EmptyString => O
      | String c s' =>
          S (if is_newline c then line_offset s' n' else line_offset s' n)
      end
  end.

(** The number of characters before the first line feed. *)
Fixpoint line_length (s : string) : nat :=
  match s with
  | EmptyString => O
  | String c s' => if is_newline c then O else S (line_length s')
  end.

Fixpoint skip (n : nat) (s : string) : string :=
  match n, s with
  | O, _ => s
  | S _, EmptyString => EmptyString
  | S n', String _ s' => skip n' s'
  end.

Definition get_start_iter (buf : TextBuffer) : TextIter := O.
Definition get_end_iter (buf : TextBuffer) : TextIter := String.length (text buf).

Definition get_iter_at_line (buf : TextBuffer) (line_number : Z) : TextIter :=
  line_offset (text buf) (Z.to_nat line_number).

Definition get_iter_at_line_offset (buf : TextBuffer) (line_number char_offset : Z)
  : TextIter :=
  let start := line_offset (text buf) (Z.to_nat line_number) in
  let len := line_length (skip start (text buf)) in
  (start + Nat.min (Z.to_nat char_offset) len)%nat.

(** [get_iter_at_offset]: -1 or an offset past the end gives the end
    iterator. *)
Definition get_iter_at_offset (buf : TextBuffer) (char_offset : Z) : TextIter :=
  if (char_offset <? 0) || (Z.of_nat (String.length (text buf)) <? char_offset)
  then get_end_iter buf
  else Z.to_nat char_offset.

(** [get_text]: the characters between two iterators, in either order. *)
Definition get_text (buf : TextBuffer) (a b : TextIter) : string :=
  let lo := Nat.min a b in
  let hi := Nat.max a b in
  substring lo (hi - lo) (text buf).

Definition create_mark (buf : TextBuffer) (where_ : TextIter) (left_gravity : bool)
  : TextBuffer * TextMark :=
  ({| text := text buf; marks := marks buf ++ [(where_, left_gravity)] |},
   List.length (marks buf)).

Definition get_iter_at_mark (buf : TextBuffer) (mark : TextMark) : TextIter :=
  fst (nth mark (marks buf) (O, true)).

(** [delete]: the text between the iterators goes; a mark inside the deleted
    range moves to its start, a mark after it moves left with the text. *)
Definition delete (buf : TextBuffer) (a b : TextIter) : TextBuffer :=
  let lo := Nat.min a b in
  let hi := Nat.max a b in
  {| text := substring 0 lo (text buf) ++ skip hi (text buf);
     marks := map (fun m : nat * bool =>
                     let (p, g) := m in
                     if Nat.leb p lo then (p, g)
                     else if Nat.leb p hi then (lo, g)
                     else ((p - (hi - lo))%nat, g))
                  (marks buf) |}.

(** [insert]: marks after the insertion point move right with the text; a
    mark at the insertion point stays if it has left gravity and moves to
    the end of the inserted text otherwise. *)
Definition insert (buf : TextBuffer) (at_ : TextIter) (s : string) : TextBuffer :=
  let n := String.length s in
  {| text := substring 0 at_ (text buf) ++ s ++ skip at_ (text buf);
     marks := map (fun m : nat * bool =>
                     let (p, g) := m in
                     if Nat.ltb p at_ then (p, g)
                     else if Nat.ltb at_ p then ((p + n)%nat, g)
                     else if g then (p, g) else ((p + n)%nat, g))
                  (marks buf) |}.

(** The lines of a text, each with its line feed; the last one has none
    (and is empty when the text ends with a line feed). *)
Fixpoint lines (s : string) : list string :=
  match s with
  | EmptyString => [EmptyString]
  | String c s' =>
      if is_newline c then String c EmptyString :: lines s'
      else
        match lines s' with
        | l :: ls => String c l :: ls
        | [] => [String c EmptyString]
        end
  end.

(** The concatenation of some lines. *)
Fixpoint join (ls : list string) : string :=
  match ls with
  | [] => EmptyString
  | l :: ls' => (l ++ join ls')%string
  end.

End Gtk.

(** [str.rstrip("\n")]: drop every trailing line feed. *)
Fixpoint rstrip_newline (s : string) : string :=
  match s with
  | EmptyString => EmptyString
  | String c s' =>
      match rstrip_newline s' with
      | EmptyString => if Gtk.is_newline c then EmptyString else String c EmptyString
      | r => String c r
      end
  end.

(** ** [gutterrenderer.py] *)

(** One record of [fix.replacements] in the tool's output. *)
Module Item.
Record t : Type := {
  line : Z;
  column : Z;
  endLine : Z;
  endColumn : Z;
  replacement : string
}.
End Item.

(** One record of [comments], as the renderer reads it: a record of the
    snapshot with the types of the tool's output (integers for positions,
    strings for text) and the [levelcls] that [parse_shellcheck] added.
    [fix_] is the list [fix.replacements], [None] when [fix] is JSON
    [null]. *)
Module Message.
Record t : Type := {
  file : string;
  line : Z;
  column : Z;
  endLine : Z;
  endColumn : Z;
  level : string;
  code : Z;
  message : string;
  levelcls : Level.t;
  fix_ : option (list Item.t)   (* fix.replacements *)
}.
End Message.

(** [class Replacement]: an edit with its two marks in the scratch buffer. *)
Module Replacement.

Record t : Type := {
  line : Z;
  endLine : Z;
  column : Z;
  endColumn : Z;
  start : Gtk.TextMark;
  end_ : Gtk.TextMark;
  text : string
}.

Definition get_range (self : t) (buf : Gtk.TextBuffer) : Z * Z :=
  let start := Z.of_nat (Gtk.get_iter_at_mark buf (start self)) in
  let end_ := Z.of_nat (Gtk.get_iter_at_mark buf (end_ self)) in
  if start >? end_ then (end_, start) else (start, end_).

End Replacement.

Definition dquote : string := String "034"%char EmptyString.

Module GutterRenderer.

(** *** [merge_ranges] *)

(** Tuples of integers compare lexicographically. *)
Definition tuple_lt (a b : Z * Z) : bool :=
  (fst a <? fst b) || ((fst a =? fst b) && (snd a <? snd b)).

Fixpoint insert_sorted (r : Z * Z) (l : list (Z * Z)) : list (Z * Z) :=
  match l with
  | [] => [r]
  | x :: l' => if tuple_lt x r then x :: insert_sorted r l' else r :: l
  end.

(** The builtin [sorted] (a stable sort) on a list of tuples. *)
Fixpoint sorted (ranges : list (Z * Z)) : list (Z * Z) :=
  match ranges with
  | [] => []
  | r :: ranges' => insert_sorted r (sorted ranges')
  end.

(** The body of the loop: [new_ranges] is never empty there, so
    [new_ranges[-1]] is its last element. *)
Definition merge_step (new_ranges : list (Z * Z)) (r : Z * Z) : list (Z * Z) :=
  let '(start, end_) := r in
  let last := List.last new_ranges (0, 0) in
  if (start >=? fst last) && (start <=? snd last) && (end_ >=? snd last)
  then removelast new_ranges ++ [(fst last, end_)]
  else new_ranges ++ [(start, end_)].

Definition merge_ranges (ranges : list (Z * Z)) : Py.result (list (Z * Z)) :=
  let ranges := sorted ranges in
  match ranges with
  | [] => Py.Raise Py.IndexError                     (* ranges[0] *)
  | r0 :: _ => Py.Return (fold_left merge_step ranges [r0])
  end.

(** *** [get_messages_in_range] and [do_draw] *)

Definition get_messages_in_range (context_data : list Message.t) (line : Z)
  : list Message.t :=
  filter (fun msg =>
            String.eqb (Message.file msg) "-"
            && (line >=? Message.line msg)
            && (line <=? Message.endLine msg))
         context_data.

(** The [level] that [do_draw] computes for the line of iterator [start]
    ([start_line] is [start.get_line()]); [None] when it returns before. *)
Definition do_draw_level (context_data : list Message.t) (start_line : Z)
  : option Level.t :=
  let line := start_line + 1 in
  match context_data with
  | [] => None
  | _ =>
      let messages := get_messages_in_range context_data line in
      match messages with
      | [] => None
      | _ =>
          match Level.max (map Message.levelcls messages) with
          | Py.Return level => Some level
          | Py.Raise _ => None
          end
      end
  end.

(** [do_draw]: the colour the cell is filled with, if it is filled. *)
Definition do_draw (context_data : list Message.t) (start_line : Z) : option string :=
  option_map Level.color (do_draw_level context_data start_line).

Section Previews.

(** [GLib.markup_escape_text]. *)
Variable markup_escape_text : string -> string.

(** *** [preview_note] *)

(** The three pieces of text [preview_note] cuts out of the view's
    buffer: [prefix], [error] and [suffix]. *)
Definition preview_note_pieces (buffer : Gtk.TextBuffer) (message : Message.t)
  : string * string * string :=
  let note_start :=
    Gtk.get_iter_at_line_offset buffer (Message.line message - 1)
                                (Message.column message - 1) in
  let note_end :=
    Gtk.get_iter_at_line_offset buffer (Message.endLine message - 1)
                                (Message.endColumn message - 1) in
  let line_start := Gtk.get_iter_at_line buffer (Message.line message - 1) in
  let line_end := Gtk.get_iter_at_line buffer (Message.endLine message) in
  let prefix := Gtk.get_text buffer line_start note_start in
  let error := Gtk.get_text buffer note_start note_end in
  let suffix := rstrip_newline (Gtk.get_text buffer note_end line_end) in
  (prefix, error, suffix).

Definition preview_note (buffer : Gtk.TextBuffer) (message : Message.t) : string :=
  let '(prefix, error, suffix) := preview_note_pieces buffer message in
  (String Gtk.newline EmptyString
   ++ "<span foreground=" ++ dquote ++ "#999" ++ dquote
   ++ " background=" ++ dquote ++ "#222" ++ dquote ++ ">"
   ++ markup_escape_text prefix
   ++ "<u><span foreground=" ++ dquote ++ "#F00" ++ dquote ++ ">"
   ++ markup_escape_text error ++ "</span></u>"
   ++ markup_escape_text suffix
   ++ "</span>")%string.

(** *** [preview_fix] *)

(** The first loop: two marks per replacement, in the scratch buffer. *)
Fixpoint create_replacements (buf : Gtk.TextBuffer) (items : list Item.t)
  : Gtk.TextBuffer * list Replacement.t :=
  match items with
  | [] => (buf, [])
  | item :: items' =>
      let (buf1, s) :=
        Gtk.create_mark buf
          (Gtk.get_iter_at_line_offset buf (Item.line item - 1) (Item.column item - 1))
          true in
      let (buf2, e) :=
        Gtk.create_mark buf1
          (Gtk.get_iter_at_line_offset buf1 (Item.endLine item - 1)
                                       (Item.endColumn item - 1))
          false in
      let (buf3, replacements) := create_replacements buf2 items' in
      (buf3,
       {| Replacement.line := Item.line item;
          Replacement.endLine := Item.endLine item;
          Replacement.column := Item.column item;
          Replacement.endColumn := Item.endColumn item;
          Replacement.start := s;
          Replacement.end_ := e;
          Replacement.text := Item.replacement item |} :: replacements)
  end.

(** The second loop: delete each span and insert its replacement. *)
Definition apply_replacement (buf : Gtk.TextBuffer) (replacement : Replacement.t)
  : Gtk.TextBuffer :=
  let buf1 :=
    Gtk.delete buf (Gtk.get_iter_at_mark buf (Replacement.start replacement))
                   (Gtk.get_iter_at_mark buf (Replacement.end_ replacement)) in
  Gtk.insert buf1 (Gtk.get_iter_at_mark buf1 (Replacement.start replacement))
             (Replacement.text replacement).

Definition apply_replacements (buf : Gtk.TextBuffer) (replacements : list Replacement.t)
  : Gtk.TextBuffer :=
  fold_left apply_replacement replacements buf.

(** The list [inserted_ranges] before it is merged. *)
Definition inserted_ranges (buf : Gtk.TextBuffer) (replacements : list Replacement.t)
  : list (Z * Z) :=
  map (fun replacement => Replacement.get_range replacement buf) replacements.

(** The third loop: the text before each range, then the range in green;
    the state is the pair of [pos] and [content]. *)
Definition render_range (buf : Gtk.TextBuffer) (acc : Gtk.TextIter * string)
           (r : Z * Z) : Gtk.TextIter * string :=
  let (pos, content) := acc in
  let (start, end_) := r in
  let start_it := Gtk.get_iter_at_offset buf start in
  let end_it := Gtk.get_iter_at_offset buf end_ in
  let prefix := markup_escape_text (Gtk.get_text buf pos start_it) in
  let fix_ := markup_escape_text (Gtk.get_text buf start_it end_it) in
  (end_it,
   (content ++ prefix ++ "<span foreground=" ++ dquote ++ "#0F0" ++ dquote ++ ">"
    ++ fix_ ++ "</span>")%string).

Definition preview_fix (buffer : Gtk.TextBuffer) (message : Message.t)
  : Py.result string :=
  match Message.fix_ message with
  | None => Py.Return EmptyString
  | Some [] => Py.Return EmptyString
  | Some items =>
      let buf := Gtk.set_text (Gtk.get_text buffer (Gtk.get_start_iter buffer)
                                            (Gtk.get_end_iter buffer)) in
      let (buf, replacements) := create_replacements buf items in
      let buf := apply_replacements buf replacements in
      merged <- merge_ranges (inserted_ranges buf replacements) ;;
      let pos := Gtk.get_iter_at_line buf (Message.line message - 1) in
      let (pos, content) := fold_left (render_range buf) merged (pos, EmptyString) in
      let end_it := Gtk.get_iter_at_line buf (Message.endLine message) in
      let suffix := rstrip_newline (markup_escape_text (Gtk.get_text buf pos end_it)) in
      Py.Return
        (String Gtk.newline EmptyString
         ++ "<span foreground=" ++ dquote ++ "#0F0" ++ dquote ++ ">Did you mean:</span>"
         ++ String Gtk.newline EmptyString
         ++ "<span foreground=" ++ dquote ++ "#999" ++ dquote
         ++ " background=" ++ dquote ++ "#222" ++ dquote ++ ">"
         ++ content ++ suffix ++ "</span>")%string
  end.

End Previews.

End GutterRenderer.

(** The list [inserted_ranges] that [preview_fix] builds for the fix
    [replacements] of a diagnostic on [buffer] (its first two loops and the
    comprehension after them), as it hands it to the merger. *)
Definition handed_to_merger (buffer : Gtk.TextBuffer) (replacements : list Item.t)
  : list (Z * Z) :=
  let buf := Gtk.set_text (Gtk.get_text buffer (Gtk.get_start_iter buffer)
                                        (Gtk.get_end_iter buffer)) in
  let (buf, created) := GutterRenderer.create_replacements buf replacements in
  let buf := GutterRenderer.apply_replacements buf created in
  GutterRenderer.inserted_ranges buf created.

(** ** [json.loads]

    An executable model of the decoder of Python's standard library, used to
    run the plugin on concrete tool output.  Text is read as its UTF-8 bytes,
    and a [\uXXXX] escape yields the UTF-8 bytes of its code point.  [None]
    stands for [JSONDecodeError].  The general results about the parser do not
    depend on this module: they hold for any decoder. *)

Module Json.

Definition is_ws (c : ascii) : bool :=
  (Ascii.eqb c " " || Ascii.eqb c "009" || Ascii.eqb c "010" || Ascii.eqb c "013")%bool.

Fixpoint skip_ws (s : string) : string :=
  match s with
  | String c s' => if is_ws c then skip_ws s' else s
  | EmptyString => s
  end.

Fixpoint take_digits (s : string) : string * string :=
  match s with
  | String c s' =>
      if PyVal.is_digit c
      then let (ds, rest) := take_digits s' in (String c ds, rest)
      else (EmptyString, s)
  | EmptyString => (EmptyString, s)
  end.

Fixpoint digits_value (acc : Z) (ds : string) : Z :=
  match ds with
  | EmptyString => acc
  | String c ds' => digits_value (10 * acc + Z.of_nat (nat_of_ascii c - 48)) ds'
  end.

(** The number at the start of [s]: an integer part, then a fraction and an
    exponent if they are complete; an [int] when it has neither. *)
Definition match_number (s : string) : option (PyVal.t * string) :=
  let (sign, s1) :=
    match s with
    | String "-" s' => ("-", s')
    | _ => (EmptyString, s)
    end in
  let integer :=
    match s1 with
    | String c s2 =>
        if Ascii.eqb c "0" then Some ("0", s2)
        else if PyVal.is_digit c then Some (take_digits s1)
        else None
    | EmptyString => None
    end in
  match integer with
  | None => None
  | Some (int_digits, r1) =>
      let (frac, r2) :=
        match r1 with
        | String "." r =>
            match take_digits r with
            | (EmptyString, _) => (EmptyString, r1)
            | (ds, r') => (String "." ds, r')
            end
        | _ => (EmptyString, r1)
        end in
      let (exp, r3) :=
        match r2 with
        | String e r =>
            if (Ascii.eqb e "e" || Ascii.eqb e "E")%bool then
              let (esign, r') :=
                match r with
                | String "+" r' => ("+", r')
                | String "-" r' => ("-", r')
                | _ => (EmptyString, r)
                end in
              match take_digits r' with
              | (EmptyString, _) => (EmptyString, r2)
              | (ds, r'') => ((String e esign ++ ds)%string, r'')
              end
            else (EmptyString, r2)
        | EmptyString => (EmptyString, r2)
        end in
      match frac, exp with
      | EmptyString, EmptyString =>
          let n := digits_value 0 int_digits in
          Some (PyVal.PInt (if String.eqb sign "-" then - n else n), r3)
      | _, _ => Some (PyVal.PFloat (sign ++ int_digits ++ frac ++ exp)%string, r3)
      end
  end.

Definition hex_value (c : ascii) : option N :=
  let n := N_of_ascii c in
  if (N.leb 48 n && N.leb n 57)%bool then Some (n - 48)%N
  else if (N.leb 97 n && N.leb n 102)%bool then Some (n - 87)%N
  else if (N.leb 65 n && N.leb n 70)%bool then Some (n - 55)%N
  else None.

(** Four hexadecimal digits. *)
Definition hex4 (s : string) : option (N * string) :=
  match s with
  | String a (String b (String c (String d rest))) =>
      match hex_value a, hex_value b, hex_value c, hex_value d with
      | Some x, Some y, Some z, Some w =>
          Some ((((x * 16 + y) * 16 + z) * 16 + w)%N, rest)
      | _, _, _, _ => None
      end
  | _ => None
  end.

Definition byte (n : N) : string := String (ascii_of_N n) EmptyString.

(** The UTF-8 bytes of a code point. *)
Definition utf8 (n : N) : string :=
  (if n <? 128 then byte n
   else if n <? 2048 then (byte (192 + n / 64) ++ byte (128 + n mod 64))%string
   else if n <? 65536 then
     (byte (224 + n / 4096) ++ byte (128 + (n / 64) mod 64) ++ byte (128 + n mod 64))%string
   else
     (byte (240 + n / 262144) ++ byte (128 + (n / 4096) mod 64)
      ++ byte (128 + (n / 64) mod 64) ++ byte (128 + n mod 64))%string)%N.

(** A code point after [\u]; a high surrogate takes the low surrogate
    escape that follows it, if one does. *)
Definition unicode_escape (s : string) : option (N * string) :=
  match hex4 s with
  | None => None
  | Some (hi, rest) =>
      if (N.leb 55296 hi && N.leb hi 56319)%bool then
        match strip_prefix "\u" rest with
        | Some rest' =>
            match hex4 rest' with
            | None => None
            | Some (lo, rest'') =>
                if (N.leb 56320 lo && N.leb lo 57343)%bool
                then Some ((65536 + (hi - 55296) * 1024 + (lo - 56320))%N, rest'')
                else Some (hi, rest)
            end
        | None => Some (hi, rest)
        end
      else Some (hi, rest)
  end.

(** The string that ends at the first unescaped quote of [s] (strict mode:
    a control character is an error). *)
Fixpoint scanstring (fuel : nat) (s : string) : option (string * string) :=
  match fuel with
  | O => None
  | S fuel' =>
      match s with
      | EmptyString => None
      | String c rest =>
          if Ascii.eqb c "034" then Some (EmptyString, rest)
          else if Ascii.eqb c "\" then
            match rest with
            | EmptyString => None
            | String e rest' =>
                let plain (ch : string) :=
                  match scanstring fuel' rest' with
                  | Some (str, r) => Some ((ch ++ str)%string, r)
                  | None => None
                  end in
                if Ascii.eqb e "034" then plain dquote
                else if Ascii.eqb e "\" then plain "\"
                else if Ascii.eqb e "/" then plain "/"
                else if Ascii.eqb e "b" then plain (byte 8)
                else if Ascii.eqb e "f" then plain (byte 12)
                else if Ascii.eqb e "n" then plain (byte 10)
                else if Ascii.eqb e "r" then plain (byte 13)
                else if Ascii.eqb e "t" then plain (byte 9)
                else if Ascii.eqb e "u" then
                  match unicode_escape rest' with
                  | Some (n, r) =>
                      match scanstring fuel' r with
                      | Some (str, r') => Some ((utf8 n ++ str)%string, r')
                      | None => None
                      end
                  | None => None
                  end
                else None
            end
          else if Nat.ltb (nat_of_ascii c) 32 then None
          else
            match scanstring fuel' rest with
            | Some (str, r) => Some (String c str, r)
            | None => None
            end
      end
  end.

(** [scan_once] with the array and object loops.  [array_items] and
    [object_pairs] start at the first character of an element and of a key's
    opening quote. *)
Fixpoint scan_once (fuel : nat) (s : string) : option (PyVal.t * string) :=
  match fuel with
  | O => None
  | S fuel' =>
      match s with
      | EmptyString => None
      | String c rest =>
          if Ascii.eqb c "034" then
            match scanstring (S (String.length rest)) rest with
            | Some (str, r) => Some (PyVal.PStr str, r)
            | None => None
            end
          else if Ascii.eqb c "{" then
            match skip_ws rest with
            | String "}" r => Some (PyVal.PDict [], r)
            | r => object_pairs fuel' r []
            end
          else if Ascii.eqb c "[" then
            match skip_ws rest with
            | String "]" r => Some (PyVal.PList [], r)
            | r => array_items fuel' r []
            end
          else
            match strip_prefix "null" s, strip_prefix "true" s, strip_prefix "false" s with
            | Some r, _, _ => Some (PyVal.PNone, r)
            | _, Some r, _ => Some (PyVal.PBool true, r)
            | _, _, Some r => Some (PyVal.PBool false, r)
            | None, None, None =>
                match match_number s with
                | Some res => Some res
                | None =>
                    match strip_prefix "NaN" s, strip_prefix "Infinity" s,
                          strip_prefix "-Infinity" s with
                    | Some r, _, _ => Some (PyVal.PFloat "NaN", r)
                    | _, Some r, _ => Some (PyVal.PFloat "Infinity", r)
                    | _, _, Some r => Some (PyVal.PFloat "-Infinity", r)
                    | None, None, None => None
                    end
                end
            end
      end
  end

with array_items (fuel : nat) (s : string) (acc : list PyVal.t)
  : option (PyVal.t * string) :=
  match fuel with
  | O => None
  | S fuel' =>
      match scan_once fuel' s with
      | None => None
      | Some (v, rest) =>
          match skip_ws rest with
          | String "]" r => Some (PyVal.PList (rev (v :: acc)), r)
          | String "," r => array_items fuel' (skip_ws r) (v :: acc)
          | _ => None
          end
      end
  end

with object_pairs (fuel : nat) (s : string) (acc : list (string * PyVal.t))
  : option (PyVal.t * string) :=
  match fuel with
  | O => None
  | S fuel' =>
      match s with
      | String "034" rest =>
          match scanstring (S (String.length rest)) rest with
          | None => None
          | Some (key, r) =>
              match skip_ws r with
              | String ":" r1 =>
                  match scan_once fuel' (skip_ws r1) with
                  | None => None
                  | Some (v, r2) =>
                      let acc := PyVal.dict_set acc key v in
                      match skip_ws r2 with
                      | String "}" r3 => Some (PyVal.PDict acc, r3)
                      | String "," r3 => object_pairs fuel' (skip_ws r3) acc
                      | _ => None
                      end
                  end
              | _ => None
              end
          end
      | _ => None
      end
  end.

(** [json.loads(s)] for a [str]: one value with nothing but whitespace
    around it; a leading byte order mark is refused. *)
Definition loads (s : string) : Py.result PyVal.t :=
  match strip_prefix (utf8 65279) s with
  | Some _ => Py.Raise Py.JSONDecodeError
  | None =>
      match scan_once (2 * String.length s + 4) (skip_ws s) with
      | Some (obj, rest) =>
          match skip_ws rest with
          | EmptyString => Py.Return obj
          | _ => Py.Raise Py.JSONDecodeError
          end
      | None => Py.Raise Py.JSONDecodeError
      end
  end.

End Json.

(** ** The GLib main loop

    The event sources the plugin registers: the debounce timer
    ([timeout_add]) and the watch on the tool's output ([io_add_watch]).  The
    watch carries the [data] variable of its [on_read] closure. *)

Module GLib.

Inductive source : Type :=
| TimeoutSource (interval : Z)
| IoWatch (proc : nat) (data : string).

Record MainLoop : Type := {
  next_id : Z;
  sources : list (Z * source)
}.

(** Source ids are positive. *)
Definition empty : MainLoop := {| next_id := 1; sources := [] |}.

Definition attach (loop : MainLoop) (src : source) : MainLoop * Z :=
  ({| next_id := next_id loop + 1;
      sources := sources loop ++ [(next_id loop, src)] |},
   next_id loop).

Definition timeout_add (loop : MainLoop) (interval : Z) : MainLoop * Z :=
  attach loop (TimeoutSource interval).

Definition io_add_watch (loop : MainLoop) (proc : nat) : MainLoop * Z :=
  attach loop (IoWatch proc EmptyString).

Definition source_remove (loop : MainLoop) (id : Z) : MainLoop :=
  {| next_id := next_id loop;
     sources := filter (fun s => negb (fst s =? id)) (sources loop) |}.

Fixpoint lookup (l : list (Z * source)) (id : Z) : option source :=
  match l with
  | [] => None
  | (i, src) :: l' => if i =? id then Some src else lookup l' id
  end.

Definition find (loop : MainLoop) (id : Z) : option source :=
  lookup (sources loop) id.

(** The closure of watch [id] assigns its [data]. *)
Definition set_data (loop : MainLoop) (id : Z) (data : string) : MainLoop :=
  {| next_id := next_id loop;
     sources := map (fun s : Z * source =>
                       match s with
                       | (i, IoWatch proc _) =>
                           if i =? id then (i, IoWatch proc data) else s
                       | _ => s
                       end)
                    (sources loop) |}.

End GLib.

(** ** The editor's collaborators *)

(** A [Gio.File]: its path and, if it has one, its parent's path. *)
Module GFile.
Record t : Type := {
  path : string;
  parent : option string
}.
End GFile.

(** What the plugin reads from the view's buffer: the location of its file,
    the id of its language, its line count and its text. *)
Module Buffer.
Record t : Type := {
  location : option GFile.t;
  language : option string;
  line_count : Z;
  text : string
}.
End Buffer.

(** ** [class ShellCheckViewActivatable] *)

Module ShellCheckViewActivatable.

(** The buffer signals the plugin connects to. *)
Inductive Signal : Type := Saved | Loaded | NotifyLanguage | Changed.

Definition Signal_eqb (a b : Signal) : bool :=
  match a, b with
  | Saved, Saved | Loaded, Loaded | NotifyLanguage, NotifyLanguage
  | Changed, Changed => true
  | _, _ => false
  end.

(** What the plugin does to the world besides the main loop. *)
Inductive effect : Type :=
| GutterInsert                          (* gutter.insert(gutter_renderer, 60) *)
| GutterRemove                          (* gutter.remove(gutter_renderer) *)
| Popen (cwd : string) (stdin : string) (* shellcheck started *)
| Warn                                  (* warnings.warn *)
| QueueDraw.                            (* gutter_renderer.update() *)

(** The object's fields, the main loop, whether [shellcheck] is on the
    search path, and the effects so far (the latest last). *)
Record t : Type := {
  context_data : PyVal.t;
  update_timeout : Z;
  parse_signal : Z;
  connected : bool;
  location : option GFile.t;
  project_folder : option string;
  buffer : option Buffer.t;
  buffer_signals : list Signal;
  loop : GLib.MainLoop;
  shellcheck_on_path : bool;
  effects : list effect
}.

(** Assignment to one field, one definition per field. *)

Definition set_context_data (v : PyVal.t) (self : t) : t :=
  {| context_data := v;
     update_timeout := update_timeout self;
     parse_signal := parse_signal self;
     connected := connected self;
     location := location self;
     project_folder := project_folder self;
     buffer := buffer self;
     buffer_signals := buffer_signals self;
     loop := loop self;
     shellcheck_on_path := shellcheck_on_path self;
     effects := effects self |}.

Definition set_update_timeout (v : Z) (self : t) : t :=
  {| context_data := context_data self;
     update_timeout := v;
     parse_signal := parse_signal self;
     connected := connected self;
     location := location self;
     project_folder := project_folder self;
     buffer := buffer self;
     buffer_signals := buffer_signals self;
     loop := loop self;
     shellcheck_on_path := shellcheck_on_path self;
     effects := effects self |}.

Definition set_parse_signal (v : Z) (self : t) : t :=
  {| context_data := context_data self;
     update_timeout := update_timeout self;
     parse_signal := v;
     connected := connected self;
     location := location self;
     project_folder := project_folder self;
     buffer := buffer self;
     buffer_signals := buffer_signals self;
     loop := loop self;
     shellcheck_on_path := shellcheck_on_path self;
     effects := effects self |}.

Definition set_connected (v : bool) (self : t) : t :=
  {| context_data := context_data self;
     update_timeout := update_timeout self;
     parse_signal := parse_signal self;
     connected := v;
     location := location self;
     project_folder := project_folder self;
     buffer := buffer self;
     buffer_signals := buffer_signals self;
     loop := loop self;
     shellcheck_on_path := shellcheck_on_path self;
     effects := effects self |}.

Definition set_location (v : option GFile.t) (self : t) : t :=
  {| context_data := context_data self;
     update_timeout := update_timeout self;
     parse_signal := parse_signal self;
     connected := connected self;
     location := v;
     project_folder := project_folder self;
     buffer := buffer self;
     buffer_signals := buffer_signals self;
     loop := loop self;
     shellcheck_on_path := shellcheck_on_path self;
     effects := effects self |}.

Definition set_project_folder (v : option string) (self : t) : t :=
  {| context_data := context_data self;
     update_timeout := update_timeout self;
     parse_signal := parse_signal self;
     connected := connected self;
     location := location self;
     project_folder := v;
     buffer := buffer self;
     buffer_signals := buffer_signals self;
     loop := loop self;
     shellcheck_on_path := shellcheck_on_path self;
     effects := effects self |}.

Definition set_buffer (v : option Buffer.t) (self : t) : t :=
  {| context_data := context_data self;
     update_timeout := update_timeout self;
     parse_signal := parse_signal self;
     connected := connected self;
     location := location self;
     project_folder := project_folder self;
     buffer := v;
     buffer_signals := buffer_signals self;
     loop := loop self;
     shellcheck_on_path := shellcheck_on_path self;
     effects := effects self |}.

Definition set_buffer_signals (v : list Signal) (self : t) : t :=
  {| context_data := context_data self;
     update_timeout := update_timeout self;
     parse_signal := parse_signal self;
     connected := connected self;
     location := location self;
     project_folder := project_folder self;
     buffer := buffer self;
     buffer_signals := v;
     loop := loop self;
     shellcheck_on_path := shellcheck_on_path self;
     effects := effects self |}.

Definition set_loop (v : GLib.MainLoop) (self : t) : t :=
  {| context_data := context_data self;
     update_timeout := update_timeout self;
     parse_signal := parse_signal self;
     connected := connected self;
     location := location self;
     project_folder := project_folder self;
     buffer := buffer self;
     buffer_signals := buffer_signals self;
     loop := v;
     shellcheck_on_path := shellcheck_on_path self;
     effects := effects self |}.

Definition set_effects (v : list effect) (self : t) : t :=
  {| context_data := context_data self;
     update_timeout := update_timeout self;
     parse_signal := parse_signal self;
     connected := connected self;
     location := location self;
     project_folder := project_folder self;
     buffer := buffer self;
     buffer_signals := buffer_signals self;
     loop := loop self;
     shellcheck_on_path := shellcheck_on_path self;
     effects := v |}.

Definition emit (e : effect) (self : t) : t :=
  set_effects (effects self ++ [e]) self.

(** [GLib.source_remove(id)] *)
Definition source_remove (id : Z) (self : t) : t :=
  set_loop (GLib.source_remove (loop self) id) self.

(** [__init__], for an environment with or without the tool. *)
Definition init (on_path : bool) : t :=
  {| context_data := PyVal.PDict [];
     update_timeout := 0;
     parse_signal := 0;
     connected := false;
     location := None;
     project_folder := None;
     buffer := None;
     buffer_signals := [];
     loop := GLib.empty;
     shellcheck_on_path := on_path;
     effects := [] |}.

Definition should_check (self : t) : bool :=
  match location self with
  | None => false
  | Some _ =>
      match buffer self with
      | Some b =>
          match Buffer.language b with
          | Some id => startswith id "sh"
          | None => false
          end
      | None => false
      end
  end.

Definition find_project_folder (self : t) : Py.result string :=
  match location self with
  | Some loc =>
      match GFile.parent loc with
      | None => Py.Raise Py.FileNotFoundError
      | Some folder => Py.Return folder
      end
  | None => Py.Raise Py.FileNotFoundError
  end.

Definition disconnect_gutter (self : t) : t :=
  if negb (connected self) then self
  else
    let self := emit GutterRemove self in
    let self := set_buffer_signals (removelast (buffer_signals self)) self in
    set_connected false self.

Definition connect_gutter (self : t) : t :=
  if connected self then self
  else
    let self := emit GutterInsert self in
    let self := set_buffer_signals (buffer_signals self ++ [Changed]) self in
    set_connected true self.

(** The [delay] that [update] computes from the line count. *)
Definition delay (n_lines : Z) : Z := Z.min 10000 (200 * (n_lines / 2000 + 1)).

(** The first lines of [on_update_timeout], [update] and
    [on_notify_buffer]: stop watching the output of the check in flight. *)
Definition remove_parse_signal (self : t) : t :=
  if negb (parse_signal self =? 0)
  then set_parse_signal 0 (source_remove (parse_signal self) self)
  else self.

(** [on_update_timeout].  A started process is numbered by the count of the
    effects before it.  The method reads [self.buffer] only after
    [on_notify_buffer] has set it; the branch without a buffer is there for
    totality. *)
Definition on_update_timeout (self : t) : t :=
  let self := set_update_timeout 0 self in
  let self := remove_parse_signal self in
  let self :=
    match buffer self with
    | None => set_context_data (PyVal.PDict []) self
    | Some _ => self
    end in
  match project_folder self with
  | None => self
  | Some folder =>
      match buffer self with
      | None => self
      | Some b =>
          let text := Buffer.text b in
          if shellcheck_on_path self then
            let proc := List.length (effects self) in
            let self := emit (Popen folder text) self in
            let (loop', id) := GLib.io_add_watch (loop self) proc in
            set_parse_signal id (set_loop loop' self)
          else emit Warn self
      end
  end.

(** [update], the handler of the buffer's [changed] signal and of the
    view's margin notifications. *)
Definition update (self : t) : t :=
  if negb (connected self) then self
  else if negb (update_timeout self =? 0) then self
  else
    let self := remove_parse_signal self in
    if negb (PyVal.truthy (context_data self)) then on_update_timeout self
    else
      match buffer self with
      | None => self
      | Some b =>
          let n_lines := Buffer.line_count b in
          let (loop', id) := GLib.timeout_add (loop self) (delay n_lines) in
          set_update_timeout id (set_loop loop' self)
      end.

(** [_update_location], the handler of [saved], [loaded] and
    [notify::language]. *)
Definition _update_location (self : t) : t :=
  match buffer self with
  | None => self
  | Some b =>
      let self := set_location (Buffer.location b) self in
      if negb (should_check self) then disconnect_gutter self
      else
        match find_project_folder self with
        | Py.Raise _ => disconnect_gutter self
        | Py.Return folder =>
            let self := set_project_folder (Some folder) self in
            let self := connect_gutter self in
            update self
        end
  end.

(** [on_notify_buffer], where [view_buffer] is [view.get_buffer()]. *)
Definition on_notify_buffer (self : t) (view_buffer : Buffer.t) : t :=
  let self :=
    if negb (update_timeout self =? 0)
    then source_remove (update_timeout self) self
    else self in
  let self := remove_parse_signal self in
  let self :=
    match buffer self with
    | Some _ => set_buffer_signals [] self           (* disconnect_buffer *)
    | None => self
    end in
  let self := set_buffer (Some view_buffer) self in
  let self := set_buffer_signals [Saved; Loaded; NotifyLanguage] self in
  _update_location self.

(** [do_activate], for a view that shows [view_buffer]. *)
Definition do_activate (on_path : bool) (view_buffer : Buffer.t) : t :=
  on_notify_buffer (init on_path) view_buffer.

Definition do_deactivate (self : t) : t :=
  let self :=
    if negb (update_timeout self =? 0)
    then source_remove (update_timeout self) self
    else self in
  let self := remove_parse_signal self in
  let self := set_buffer_signals [] self in              (* disconnect_buffer *)
  let self := set_buffer None self in
  emit GutterRemove self.

Section Parser.

(** [json.loads] *)
Variable json_loads : string -> Py.result PyVal.t.

(** The loop of [parse_shellcheck] over the items of [comments]. *)
Fixpoint annotate (comments : list PyVal.t) : Py.result (list PyVal.t) :=
  match comments with
  | [] => Py.Return []
  | comment :: comments' =>
      level <- PyVal.getitem comment "level" ;;
      comment' <- PyVal.setitem comment "levelcls" (PyVal.PLevel (by_code level)) ;;
      rest <- annotate comments' ;;
      Py.Return (comment' :: rest)
  end.

(** [comments] after the loop: the records of a list are updated in
    place; the items of a [dict] or a [str] are strings, on which the body
    of the loop raises. *)
Definition annotate_comments (comments : PyVal.t) : Py.result PyVal.t :=
  items <- PyVal.iter comments ;;
  items' <- annotate items ;;
  Py.Return (match comments with
             | PyVal.PList _ => PyVal.PList items'
             | _ => comments
             end).

Definition parse_shellcheck (self : t) (output : string) : Py.result unit * t :=
  match json_loads output with
  | Py.Raise Py.JSONDecodeError => (Py.Return tt, self)
  | Py.Raise e => (Py.Raise e, self)
  | Py.Return data =>
      match comments <- PyVal.getitem data "comments" ;; annotate_comments comments with
      | Py.Raise e => (Py.Raise e, self)
      | Py.Return comments =>
          (Py.Return tt, emit QueueDraw (set_context_data comments self))
      end
  end.

(** One readiness notification on the output of the check in flight. *)
Record IoEvent : Type := {
  chunk : string;       (* stdout.read(4096) *)
  hup : bool;           (* flags & GLib.IO_HUP *)
  exited : bool;        (* proc.wait(timeout=0.5) returns *)
  rest : string         (* stdout.read() *)
}.

(** The closure [on_read] of the watch [id], whose [data] so far is
    [data]; the result is what the callback returns. *)
Definition on_read (self : t) (id : Z) (data : string) (ev : IoEvent)
  : Py.result bool * t :=
  let data := (data ++ chunk ev)%string in
  let self := set_loop (GLib.set_data (loop self) id data) self in
  if negb (hup ev) then (Py.Return true, self)
  else if negb (exited ev) then (Py.Return true, self)
  else
    let data := (data ++ rest ev)%string in
    let self := set_loop (GLib.set_data (loop self) id data) self in
    match parse_shellcheck self data with
    | (Py.Raise e, self) => (Py.Raise e, self)
    | (Py.Return _, self) => (Py.Return false, set_parse_signal 0 self)
    end.

(** *** The plugin under the main loop *)

Inductive event : Type :=
| ViewNotifyBuffer (view_buffer : Buffer.t)   (* the view shows another buffer *)
| ViewNotifyMargin                            (* a right margin property changed *)
| BufferSignal (sig : Signal) (now : Buffer.t)(* the buffer, now [now], emits [sig] *)
| TimeoutFires (id : Z)                       (* the interval of timer [id] is over *)
| IoReady (id : Z) (ev : IoEvent).            (* watch [id] is notified *)

(** One event of the main loop.  A signal runs its handler only while it
    is connected, a source its callback only while it is registered; a
    source whose callback does not return [True] is removed. *)
Definition step (self : t) (e : event) : t :=
  match e with
  | ViewNotifyBuffer view_buffer => on_notify_buffer self view_buffer
  | ViewNotifyMargin => update self
  | BufferSignal sig now =>
      let self := set_buffer (Some now) self in
      if existsb (Signal_eqb sig) (buffer_signals self) then
        match sig with
        | Changed => update self
        | _ => _update_location self
        end
      else self
  | TimeoutFires id =>
      match GLib.find (loop self) id with
      | Some (GLib.TimeoutSource _) => source_remove id (on_update_timeout self)
      | _ => self
      end
  | IoReady id ev =>
      match GLib.find (loop self) id with
      | Some (GLib.IoWatch _ data) =>
          match on_read self id data ev with
          | (Py.Return true, self) => self
          | (_, self) => source_remove id self
          end
      | _ => self
      end
  end.

Definition run (self : t) (events : list event) : t := fold_left step events self.

End Parser.

End ShellCheckViewActivatable.

(** ** The delay as the specification words it

    A definition that follows the specification's words rather than the code,
    for comparison with [ShellCheckViewActivatable.delay]:
    min(10000, 200 * ceil(lineCount / 2000)). *)
Definition delay_as_specified (lineCount : Z) : Z :=
  Z.min 10000 (200 * ((lineCount + 1999) / 2000)).

(** ** The points of a list of ranges *)

(** [p] lies in one of the ranges, each read as a closed interval. *)
Definition covers (ranges : list (Z * Z)) (p : Z) : Prop :=
  exists r, In r ranges /\ fst r <= p <= snd r.

(** ** Concrete inputs

    A shell script in a project folder, the buffers that show it, and outputs
    of the tool, for the examples below. *)

Module Scenario.

Import ShellCheckViewActivatable.

Definition script : GFile.t :=
  {| GFile.path := "/home/user/project/build.sh";
     GFile.parent := Some "/home/user/project" |}.

Definition shell_buffer : Buffer.t :=
  {| Buffer.location := Some script;
     Buffer.language := Some "sh";
     Buffer.line_count := 3;
     Buffer.text := "echo $1" |}.

(** The same buffer once its language is set to Python. *)
Definition python_buffer : Buffer.t :=
  {| Buffer.location := Some script;
     Buffer.language := Some "python3";
     Buffer.line_count := 3;
     Buffer.text := "echo $1" |}.

(** The same buffer once it is saved to a location without a parent. *)
Definition rootless_buffer : Buffer.t :=
  {| Buffer.location := Some {| GFile.path := "/"; GFile.parent := None |};
     Buffer.language := Some "sh";
     Buffer.line_count := 3;
     Buffer.text := "echo $1" |}.

(** Another shell script, in another buffer. *)
Definition other_buffer : Buffer.t :=
  {| Buffer.location :=
       Some {| GFile.path := "/home/user/project/test.sh";
               GFile.parent := Some "/home/user/project" |};
     Buffer.language := Some "sh";
     Buffer.line_count := 1;
     Buffer.text := "exit 0" |}.

(** The same buffer once it has grown to 4001 lines. *)
Definition long_buffer : Buffer.t :=
  {| Buffer.location := Some script;
     Buffer.language := Some "sh";
     Buffer.line_count := 4001;
     Buffer.text := "echo $1" |}.

Definition quoted (s : string) : string := (dquote ++ s ++ dquote)%string.

(** The output for a script without findings. *)
Definition no_comments : string := ("{" ++ quoted "comments" ++ ":[]}")%string.

(** The output for one finding (SC2086) on the first line. *)
Definition one_comment : string :=
  ("{" ++ quoted "comments" ++ ":[{"
   ++ quoted "file" ++ ":" ++ quoted "-" ++ ","
   ++ quoted "line" ++ ":1," ++ quoted "endLine" ++ ":1,"
   ++ quoted "column" ++ ":6," ++ quoted "endColumn" ++ ":8,"
   ++ quoted "level" ++ ":" ++ quoted "info" ++ ","
   ++ quoted "code" ++ ":2086,"
   ++ quoted "message" ++ ":" ++ quoted "Double quote to prevent globbing." ++ ","
   ++ quoted "fix" ++ ":null}]}")%string.

(** The whole [output] arrives at once, the stream is closed and the
    process has exited. *)
Definition closed (output : string) : IoEvent :=
  {| chunk := output; hup := true; exited := true; rest := EmptyString |}.

(** The plugin activated on the shell script: the first check is running. *)
Definition attached : ShellCheckViewActivatable.t := do_activate true shell_buffer.

(** ... and once that check has reported no finding, *)
Definition checked_clean : ShellCheckViewActivatable.t :=
  step Json.loads attached (IoReady 1 (closed no_comments)).

(** ... or one finding. *)
Definition checked_one : ShellCheckViewActivatable.t :=
  step Json.loads attached (IoReady 1 (closed one_comment)).

(** A view's buffer of three lines, [ab], [cd] and [ef]. *)
Definition three_lines : Gtk.TextBuffer :=
  Gtk.set_text ("ab" ++ String Gtk.newline "cd" ++ String Gtk.newline "ef"
                ++ String Gtk.newline EmptyString)%string.

(** A diagnostic from line 1, column 2 to line 2, column 2. *)
Definition two_line_diagnostic : Message.t :=
  {| Message.file := "-";
     Message.line := 1; Message.column := 2;
     Message.endLine := 2; Message.endColumn := 2;
     Message.level := "error";
     Message.code := 1009;
     Message.message := "The mentioned syntax error was in this simple command.";
     Message.levelcls := Level.ERROR;
     Message.fix_ := None |}.

(** A diagnostic of the buffer itself on line 1, with the given level. *)
Definition diagnostic (levelcls : Level.t) : Message.t :=
  {| Message.file := "-";
     Message.line := 1; Message.column := 1;
     Message.endLine := 1; Message.endColumn := 2;
     Message.level := Level.code levelcls;
     Message.code := 2086;
     Message.message := "Double quote to prevent globbing and word splitting.";
     Message.levelcls := levelcls;
     Message.fix_ := None |}.

(** One replacement on line 1, from [column] to [endColumn]. *)
Definition replace_at (column endColumn : Z) (replacement : string) : Item.t :=
  {| Item.line := 1; Item.column := column;
     Item.endLine := 1; Item.endColumn := endColumn;
     Item.replacement := replacement |}.

(** A diagnostic on line 1 whose fix is [replacements]. *)
Definition fixable (replacements : list Item.t) : Message.t :=
  {| Message.file := "-";
     Message.line := 1; Message.column := 1;
     Message.endLine := 1; Message.endColumn := 4;
     Message.level := "warning";
     Message.code := 2006;
     Message.message := "Use $(...) notation instead of legacy backticks.";
     Message.levelcls := Level.WARN;
     Message.fix_ := Some replacements |}.

(** A view's buffer of one line, [abc], and a fix of four replacements for
    it, three of which give their end column before their start column. *)
Definition abc : Gtk.TextBuffer := Gtk.set_text "abc".

Definition crossing_fix : Message.t :=
  fixable [replace_at 2 2 "x"; replace_at 2 1 "y"; replace_at 3 2 "z";
           replace_at 3 1 EmptyString].

(** The same on the line [abcd], with a longer second replacement. *)
Definition abcd : Gtk.TextBuffer := Gtk.set_text "abcd".

Definition longer_crossing_fix : Message.t :=
  fixable [replace_at 2 2 "x"; replace_at 2 1 "yy"; replace_at 3 2 "z";
           replace_at 3 1 EmptyString].

End Scenario.

(** ** Lists of ranges in normal form *)

(** Consecutive elements of a list are related by [R]. *)
Fixpoint chain {A : Type} (R : A -> A -> Prop) (l : list A) : Prop :=
  match l with
  | [] => True
  | x :: l' =>
      match l' with
      | [] => True
      | y :: _ => R x y
      end /\ chain R l'
  end.

(** A range whose start is not after its end. *)
Definition well_formed (r : Z * Z) : Prop := fst r <= snd r.

(** A range ends strictly before the next one starts. *)
Definition gap (r r' : Z * Z) : Prop := snd r < fst r'.

(** Well-formed ranges in ascending order that neither overlap nor touch. *)
Definition separated (ranges : list (Z * Z)) : Prop :=
  Forall well_formed ranges /\ chain gap ranges.

(** No range of the list starts after another one and ends before it ends:
    none lies inside another with room on both sides or on the right. *)
Definition no_nesting (ranges : list (Z * Z)) : Prop :=
  forall x y, In x ranges -> In y ranges -> fst x < fst y -> snd x <= snd y.

(** Tuples in the order of the builtin comparison. *)
Definition lex_le (a b : Z * Z) : Prop :=
  fst a < fst b \/ (fst a = fst b /\ snd a <= snd b).

(** Both the start and the end of a range are at or before those of the
    next. *)
Definition mono (r r' : Z * Z) : Prop := fst r <= fst r' /\ snd r <= snd r'.

(** ** The sources the plugin has registered *)

(** Source ids are positive, below the next id to be given, and distinct. *)
Definition sources_fresh (loop : GLib.MainLoop) : Prop :=
  0 < GLib.next_id loop
  /\ (forall id src, In (id, src) (GLib.sources loop) -> 0 < id < GLib.next_id loop)
  /\ NoDup (map fst (GLib.sources loop)).

(** Every timer of the loop has the id [t]. *)
Definition timers_are (loop : GLib.MainLoop) (t : Z) : Prop :=
  forall id interval, In (id, GLib.TimeoutSource interval) (GLib.sources loop) -> id = t.

(** Every watch of the loop has the id [w]. *)
Definition watches_are (loop : GLib.MainLoop) (w : Z) : Prop :=
  forall id proc data, In (id, GLib.IoWatch proc data) (GLib.sources loop) -> id = w.

(** The timers and watches of the loop are the ones the object's fields
    record. *)
Definition scheduled (self : ShellCheckViewActivatable.t) : Prop :=
  sources_fresh (ShellCheckViewActivatable.loop self)
  /\ timers_are (ShellCheckViewActivatable.loop self)
                (ShellCheckViewActivatable.update_timeout self)
  /\ watches_are (ShellCheckViewActivatable.loop self)
                 (ShellCheckViewActivatable.parse_signal self).

(** ** The plugin without the tool *)

(** [shellcheck] is not on the search path, nothing is registered with the
    main loop, the snapshot is the empty one of [__init__], and no process
    was started. *)
Definition idle_without_tool (self : ShellCheckViewActivatable.t) : Prop :=
  ShellCheckViewActivatable.shellcheck_on_path self = false
  /\ GLib.sources (ShellCheckViewActivatable.loop self) = []
  /\ ShellCheckViewActivatable.update_timeout self = 0
  /\ ShellCheckViewActivatable.parse_signal self = 0
  /\ ShellCheckViewActivatable.context_data self = PyVal.PDict []
  /\ (forall cwd stdin,
        ~ In (ShellCheckViewActivatable.Popen cwd stdin)
             (ShellCheckViewActivatable.effects self)).

(** ** What the handlers decide on *)

(** The buffer can be checked: its file has a location, its language id starts
    with [sh], and the location has a parent folder. *)
Definition attachable (b : Buffer.t) : bool :=
  match Buffer.location b with
  | Some location =>
      match Buffer.language b with
      | Some id => startswith id "sh"
      | None => false
      end
      && match GFile.parent location with
         | Some _ => true
         | None => false
         end
  | None => false
  end.

(** How often the renderer was inserted into the gutter, less how often it was
    removed. *)
Fixpoint gutter_count (effects : list ShellCheckViewActivatable.effect) : Z :=
  match effects with
  | [] => 0
  | ShellCheckViewActivatable.GutterInsert :: effects' => gutter_count effects' + 1
  | ShellCheckViewActivatable.GutterRemove :: effects' => gutter_count effects' - 1
  | _ :: effects' => gutter_count effects'
  end.

(** The processes started, in order. *)
Fixpoint started (effects : list ShellCheckViewActivatable.effect)
  : list (string * string) :=
  match effects with
  | [] => []
  | ShellCheckViewActivatable.Popen cwd stdin :: effects' => (cwd, stdin) :: started effects'
  | _ :: effects' => started effects'
  end.

(** The renderer is in the gutter once if the plugin is connected, and not
    at all if it is not. *)
Definition balanced (self : ShellCheckViewActivatable.t) : Prop :=
  gutter_count (ShellCheckViewActivatable.effects self)
  = if ShellCheckViewActivatable.connected self then 1 else 0.

(** The loop holds no timer. *)
Definition no_timer (loop : GLib.MainLoop) : Prop :=
  forall id interval, ~ In (id, GLib.TimeoutSource interval) (GLib.sources loop).

(** Compared with [before]: the same [update_timeout], no timer in the loop,
    and no process started since. *)
Definition stuck (before self : ShellCheckViewActivatable.t) : Prop :=
  ShellCheckViewActivatable.update_timeout self
  = ShellCheckViewActivatable.update_timeout before
  /\ no_timer (ShellCheckViewActivatable.loop self)
  /\ started (ShellCheckViewActivatable.effects self)
     = started (ShellCheckViewActivatable.effects before).

(** ** The records of the snapshot *)

(** A record of the tool's output: an object with a member [level]. *)
Definition has_level (comment : PyVal.t) : Prop :=
  exists pairs level,
    comment = PyVal.PDict pairs /\ PyVal.dict_get pairs "level" = Some level.

(** [comment'] is the record [comment] with the member [levelcls] that
    [by_code] finds for its [level]; every other member is as it was. *)
Definition annotated_from (comment comment' : PyVal.t) : Prop :=
  exists pairs pairs' level,
    comment = PyVal.PDict pairs
    /\ comment' = PyVal.PDict pairs'
    /\ PyVal.dict_get pairs "level" = Some level
    /\ PyVal.dict_get pairs' "levelcls" = Some (PyVal.PLevel (by_code level))
    /\ (forall key, key <> "levelcls" ->
                    PyVal.dict_get pairs' key = PyVal.dict_get pairs key).

(** ** The messages of a line *)

(** The message is one of the buffer itself (its file is [-]) and [line]
    lies between its first and its last line. *)
Definition covers_line (line : Z) (m : Message.t) : Prop :=
  Message.file m = "-" /\ Message.line m <= line <= Message.endLine m.

(** [kept] holds the elements of [l] that satisfy [P], and no other, in the
    order they have in [l]. *)
Inductive restricted {A : Type} (P : A -> Prop) : list A -> list A -> Prop :=
| restricted_nil : restricted P [] []
| restricted_keep (x : A) (l kept : list A) :
    P x -> restricted P l kept -> restricted P (x :: l) (x :: kept)
| restricted_drop (x : A) (l kept : list A) :
    ~ P x -> restricted P l kept -> restricted P (x :: l) kept.

(** ** The tooltip of the renderer *)

From Stdlib Require DecimalString.

Module Tooltip.

(** [str(n)] for an [int]: its decimal digits, after a minus sign when it is
    negative. *)
Definition str_of_int (n : Z) : string :=
  DecimalString.NilEmpty.string_of_int (Z.to_int n).

(** [sep.join(items)] *)
Fixpoint join_with (sep : string) (items : list string) : string :=
  match items with
  | [] => EmptyString
  | item :: items' =>
      match items' with
      | [] => item
      | _ => (item ++ sep ++ join_with sep items')%string
      end
  end.

Section Markup.

(** [GLib.markup_escape_text]. *)
Variable markup_escape_text : string -> string.

(** [TOOLTIP_TEMPLATE.format(c=..., escapedmsg=..., **message)]: the
    template is one line, every run of white space in it being replaced by
    one space when the module is loaded. *)
Definition TOOLTIP_TEMPLATE_format (message : Message.t) : string :=
  (str_of_int (Message.line message)
   ++ "<span foreground=" ++ dquote ++ "#008899" ++ dquote ++ ">:</span>"
   ++ str_of_int (Message.column message)
   ++ "<span foreground=" ++ dquote ++ "#008899" ++ dquote ++ ">:</span>"
   ++ " <b>SC" ++ str_of_int (Message.code message)
   ++ " <span foreground=" ++ dquote ++ Level.color (Message.levelcls message)
   ++ dquote ++ ">(" ++ Message.level message ++ ")</span>:</b> "
   ++ markup_escape_text (Message.message message))%string.

Definition format_message (buffer : Gtk.TextBuffer) (message : Message.t)
  : Py.result string :=
  let content := TOOLTIP_TEMPLATE_format message in
  let content :=
    (content ++ GutterRenderer.preview_note markup_escape_text buffer message)%string in
  fix_ <- GutterRenderer.preview_fix markup_escape_text buffer message ;;
  Py.Return (content ++ fix_)%string.

(** The generator that [join] consumes: one text per message, in order. *)
Fixpoint format_messages (buffer : Gtk.TextBuffer) (messages : list Message.t)
  : Py.result (list string) :=
  match messages with
  | [] => Py.Return []
  | message :: messages' =>
      text <- format_message buffer message ;;
      texts <- format_messages buffer messages' ;;
      Py.Return (text :: texts)
  end.

(** [do_query_tooltip] for the line of iterator [it] ([it_line] is
    [it.get_line()]): the markup set on the tooltip when it returns [True],
    [None] when it returns [False]. *)
Definition do_query_tooltip (context_data : list Message.t) (buffer : Gtk.TextBuffer)
           (it_line : Z) : Py.result (option string) :=
  let line_no := it_line + 1 in
  match context_data with
  | [] => Py.Return None
  | _ =>
      let messages := GutterRenderer.get_messages_in_range context_data line_no in
      match messages with
      | [] => Py.Return None
      | _ =>
          texts <- format_messages buffer messages ;;
          let text :=
            join_with (String Gtk.newline (String Gtk.newline EmptyString)) texts in
          Py.Return (Some ("<span font=" ++ dquote ++ "monospace" ++ dquote ++ ">"
                           ++ text ++ "</span>")%string)
      end
  end.

End Markup.

End Tooltip.

(** ** More concrete inputs *)

Module Inputs.

Import ShellCheckViewActivatable.

(** The output without findings, arriving in two pieces before the stream
    is closed. *)
Definition first_piece : IoEvent :=
  {| chunk := ("{" ++ Scenario.quoted "comments")%string;
     hup := false; exited := false; rest := EmptyString |}.

Definition second_piece : IoEvent :=
  {| chunk := ":[]}"; hup := false; exited := false; rest := EmptyString |}.

(** The stream is closed and the process has exited; nothing is left to
    read. *)
Definition closing : IoEvent :=
  {| chunk := EmptyString; hup := true; exited := true; rest := EmptyString |}.

End Inputs.

(* ===================================================================== *)
(** * Part II: properties *)
(* ===================================================================== *)

(** ** The severity order *)

Section LevelOrder.

Import Level.

Lemma lt_irrefl (a : Level.t) : lt a a = false.
Proof. destruct a; reflexivity. Qed.

Lemma lt_trans (a b c : Level.t) :
  lt a b = true -> lt b c = true -> lt a c = true.
Proof. destruct a, b, c; cbv; intros; congruence. Qed.

Lemma lt_total (a b : Level.t) : lt a b = true \/ a = b \/ lt b a = true.
Proof. destruct a, b; cbv; auto. Qed.

Lemma eqb_eq (a b : Level.t) : Level.eqb a b = true <-> a = b.
Proof. destruct a, b; simpl; split; intros H; try reflexivity; discriminate H. Qed.

Lemma le_refl (a : Level.t) : le a a = true.
Proof. destruct a; reflexivity. Qed.

Lemma le_trans (a b c : Level.t) :
  le a b = true -> le b c = true -> le a c = true.
Proof. destruct a, b, c; cbv; intros; congruence. Qed.

(** Replacing the running maximum only by a greater item keeps it above
    what it was. *)
Lemma gt_choice_le (item maxitem : Level.t) :
  le maxitem (if gt item maxitem then item else maxitem) = true
  /\ le item (if gt item maxitem then item else maxitem) = true.
Proof. destruct item, maxitem; cbv; auto. Qed.

Lemma max_from_ge_start (rest : list Level.t) :
  forall maxitem, le maxitem (max_from maxitem rest) = true.
Proof.
  induction rest as [|item rest IH]; intros maxitem; simpl.
  - apply le_refl.
  - eapply le_trans; [apply (proj1 (gt_choice_le item maxitem))|apply IH].
Qed.

Lemma max_from_upper_bound (rest : list Level.t) :
  forall maxitem x, In x rest -> le x (max_from maxitem rest) = true.
Proof.
  induction rest as [|item rest IH]; intros maxitem x Hin; simpl in *.
  - contradiction.
  - destruct Hin as [->|Hin].
    + eapply le_trans; [apply (proj2 (gt_choice_le x maxitem))|apply max_from_ge_start].
    + apply IH; exact Hin.
Qed.

Lemma max_from_member (rest : list Level.t) :
  forall maxitem, In (max_from maxitem rest) (maxitem :: rest).
Proof.
  induction rest as [|item rest IH]; intros maxitem; simpl.
  - left; reflexivity.
  - destruct (IH (if gt item maxitem then item else maxitem)) as [H|H].
    + destruct (gt item maxitem); [right; left|left]; exact H.
    + right; right; exact H.
Qed.

End LevelOrder.

Section WorstSeverity.

Import GutterRenderer.

(** C1, as stated, fails: [UNKNOWN] does not sort below [NOTE] but above
    [ERROR], and on a line covered by an [ERROR] and an [UNKNOWN]
    diagnostic the level picked is [UNKNOWN]. *)
Lemma unknown_outranks_error :
  Level.lt Level.UNKNOWN Level.NOTE = false
  /\ Level.lt Level.ERROR Level.UNKNOWN = true
  /\ do_draw_level [Scenario.diagnostic Level.ERROR; Scenario.diagnostic Level.UNKNOWN] 0
     = Some Level.UNKNOWN.
Proof. repeat split. Qed.

(** C1 (amended): the severities are totally ordered by their position in
    the enumeration, NOTE < INFO < WARN < ERROR < UNKNOWN, with [UNKNOWN]
    distinct from the other four and above them; and on every line that some
    diagnostic of the buffer covers, the level picked is the level of one of
    these diagnostics and no diagnostic covering the line has a greater one
    (so the worst of INFO, ERROR, NOTE is ERROR). *)
Theorem worst_level_is_maximum :
  (Level.lt Level.NOTE Level.INFO = true
   /\ Level.lt Level.INFO Level.WARN = true
   /\ Level.lt Level.WARN Level.ERROR = true
   /\ Level.lt Level.ERROR Level.UNKNOWN = true)
  /\ (forall a, Level.lt a a = false)
  /\ (forall a b c, Level.lt a b = true -> Level.lt b c = true -> Level.lt a c = true)
  /\ (forall a b, Level.lt a b = true \/ a = b \/ Level.lt b a = true)
  /\ (forall a, a <> Level.UNKNOWN -> Level.lt a Level.UNKNOWN = true)
  /\ Level.max [Level.INFO; Level.ERROR; Level.NOTE] = Py.Return Level.ERROR
  /\ (forall context_data start_line,
        let covering := get_messages_in_range context_data (start_line + 1) in
        match do_draw_level context_data start_line with
        | Some level =>
            (exists m, In m covering /\ Message.levelcls m = level)
            /\ (forall m, In m covering -> Level.le (Message.levelcls m) level = true)
        | None => covering = []
        end).
Proof.
  split; [repeat split|].
  split; [exact lt_irrefl|].
  split; [exact lt_trans|].
  split; [exact lt_total|].
  split; [intros [] H; solve [reflexivity | contradiction H; reflexivity]|].
  split; [reflexivity|].
  intros context_data start_line covering. subst covering.
  unfold do_draw_level.
  destruct context_data as [|m0 ms]; [reflexivity|].
  set (covering := get_messages_in_range (m0 :: ms) (start_line + 1)).
  clearbody covering.
  destruct covering as [|m cover]; [reflexivity|].
  simpl. split.
  - destruct (max_from_member (map Message.levelcls cover) (Message.levelcls m))
      as [H|H].
    + exists m. split; [left; reflexivity|exact H].
    + apply in_map_iff in H. destruct H as [m' [Hlvl Hin]].
      exists m'. split; [right; exact Hin|exact Hlvl].
  - intros m' [<-|Hin].
    + apply max_from_ge_start.
    + apply max_from_upper_bound. apply in_map. exact Hin.
Qed.

(** The amended C1 on a line with an INFO, an ERROR and a NOTE diagnostic. *)
Lemma worst_level_of_info_error_note :
  let context_data := [Scenario.diagnostic Level.INFO; Scenario.diagnostic Level.ERROR;
                       Scenario.diagnostic Level.NOTE] in
  do_draw_level context_data 0 = Some Level.ERROR
  /\ Level.le (Message.levelcls (Scenario.diagnostic Level.NOTE)) Level.ERROR = true.
Proof.
  destruct worst_level_is_maximum as (_ & _ & _ & _ & _ & _ & Hmax).
  specialize (Hmax [Scenario.diagnostic Level.INFO; Scenario.diagnostic Level.ERROR;
                    Scenario.diagnostic Level.NOTE] 0).
  split; [reflexivity|].
  apply (proj2 Hmax). right. right. left. reflexivity.
Defined.

End WorstSeverity.

(** ** The range merger *)

Section RangeMerger.

Import GutterRenderer.

Lemma insert_sorted_nonempty (r : Z * Z) (l : list (Z * Z)) : insert_sorted r l <> [].
Proof. destruct l as [|x l]; simpl; [|destruct (tuple_lt x r)]; discriminate. Qed.

Lemma sorted_nonempty (r : Z * Z) (l : list (Z * Z)) : sorted (r :: l) <> [].
Proof. simpl. apply insert_sorted_nonempty. Qed.

Lemma sorted_length (l : list (Z * Z)) : List.length (sorted l) = List.length l.
Proof.
  assert (Hins : forall r l', List.length (insert_sorted r l') = S (List.length l')).
  { intros r l'. induction l' as [|x l' IH]; simpl; [reflexivity|].
    destruct (tuple_lt x r); simpl; [rewrite IH|]; reflexivity. }
  induction l as [|r l IH]; simpl; [reflexivity|].
  rewrite Hins, IH. reflexivity.
Qed.

Lemma merge_step_nonempty (new_ranges : list (Z * Z)) (r : Z * Z) :
  merge_step new_ranges r <> [].
Proof.
  unfold merge_step. destruct r as [start end_].
  match goal with |- context [if ?c then _ else _] => destruct c end;
    intros H; apply app_eq_nil in H; destruct H as [_ H]; discriminate H.
Qed.

Lemma fold_merge_step_nonempty (ranges : list (Z * Z)) :
  forall new_ranges, new_ranges <> [] -> fold_left merge_step ranges new_ranges <> [].
Proof.
  induction ranges as [|r ranges IH]; intros new_ranges Hne; simpl.
  - exact Hne.
  - apply IH. apply merge_step_nonempty.
Qed.

(** On a list that is not empty the merger returns, and its result is not
    empty either. *)
Lemma merge_ranges_returns (r : Z * Z) (ranges : list (Z * Z)) :
  exists merged, merge_ranges (r :: ranges) = Py.Return merged /\ merged <> [].
Proof.
  unfold merge_ranges.
  destruct (sorted (r :: ranges)) as [|r0 rest] eqn:Hs.
  - exfalso. exact (sorted_nonempty r ranges Hs).
  - eexists. split; [reflexivity|].
    apply fold_merge_step_nonempty. discriminate.
Qed.

Lemma create_replacements_length (items : list Item.t) :
  forall buf, List.length (snd (create_replacements buf items)) = List.length items.
Proof.
  induction items as [|item items IH]; intros buf; simpl; [reflexivity|].
  match goal with
  | |- context [create_replacements ?b items] =>
      specialize (IH b); destruct (create_replacements b items) as [buf3 rs]
  end.
  simpl in *. rewrite IH. reflexivity.
Qed.

(** [preview_fix] returns for every message: it calls the merger only on a
    list that is not empty. *)
Lemma preview_fix_returns (escape : string -> string) (buffer : Gtk.TextBuffer)
      (message : Message.t) :
  exists markup, preview_fix escape buffer message = Py.Return markup.
Proof.
  unfold preview_fix.
  destruct (Message.fix_ message) as [[|item items]|]; try (eexists; reflexivity).
  match goal with
  | |- context [create_replacements ?b ?l] =>
      pose proof (create_replacements_length l b) as Hlen;
      destruct (create_replacements b l) as [buf rs]
  end.
  simpl in Hlen. destruct rs as [|r rs]; [discriminate Hlen|].
  unfold inserted_ranges. simpl map.
  match goal with
  | |- context [merge_ranges (?x :: ?xs)] =>
      destruct (merge_ranges_returns x xs) as [merged [Hm _]]; rewrite Hm
  end.
  simpl Py.bind.
  match goal with
  | |- context [fold_left ?f ?l ?a] => destruct (fold_left f l a) as [pos content]
  end.
  eexists. reflexivity.
Qed.

(** *** What the merger does keep: the points covered *)

Lemma insert_sorted_In (x r : Z * Z) (l : list (Z * Z)) :
  In x (insert_sorted r l) <-> x = r \/ In x l.
Proof.
  induction l as [|y l IH]; simpl.
  - intuition.
  - destruct (tuple_lt y r); simpl; rewrite ?IH; intuition.
Qed.

Lemma sorted_In (x : Z * Z) (l : list (Z * Z)) : In x (sorted l) <-> In x l.
Proof.
  induction l as [|r l IH]; simpl; [tauto|].
  rewrite insert_sorted_In, IH. intuition.
Qed.

Lemma covers_app (a b : list (Z * Z)) (p : Z) :
  covers (a ++ b) p <-> covers a p \/ covers b p.
Proof.
  unfold covers. split.
  - intros [r [Hin Hp]]. apply in_app_or in Hin.
    destruct Hin; [left|right]; exists r; auto.
  - intros [[r [Hin Hp]]|[r [Hin Hp]]]; exists r; split; auto using in_or_app.
Qed.

Lemma covers_one (r : Z * Z) (p : Z) : covers [r] p <-> fst r <= p <= snd r.
Proof.
  unfold covers. split.
  - intros [r' [[<-|[]] Hp]]. exact Hp.
  - intros Hp. exists r. split; [left; reflexivity|exact Hp].
Qed.

Lemma merge_step_covers (new_ranges : list (Z * Z)) (r : Z * Z) (p : Z) :
  new_ranges <> [] ->
  covers (merge_step new_ranges r) p <-> covers new_ranges p \/ covers [r] p.
Proof.
  intros Hne.
  destruct (exists_last Hne) as [init [lst ->]].
  destruct r as [start end_]. unfold merge_step.
  rewrite last_last, removelast_last.
  destruct ((start >=? fst lst) && (start <=? snd lst) && (end_ >=? snd lst)) eqn:Hc.
  - apply andb_prop in Hc. destruct Hc as [Hc H3].
    apply andb_prop in Hc. destruct Hc as [H1 H2].
    apply Z.geb_le in H1. apply Z.leb_le in H2. apply Z.geb_le in H3.
    rewrite !covers_app, !covers_one. simpl. split.
    + intros [H|H]; [tauto|].
      destruct (Z_le_gt_dec p (snd lst)); [left; right; lia|right; lia].
    + intros [[H|H]|H]; [tauto|right; lia|right; lia].
  - rewrite covers_app. reflexivity.
Qed.

Lemma fold_merge_step_covers (ranges : list (Z * Z)) (p : Z) :
  forall new_ranges,
    new_ranges <> [] ->
    covers (fold_left merge_step ranges new_ranges) p
    <-> covers new_ranges p \/ covers ranges p.
Proof.
  induction ranges as [|r ranges IH]; intros new_ranges Hne; simpl.
  - split; [auto|]. intros [H|[r [[] _]]]. exact H.
  - rewrite IH by apply merge_step_nonempty.
    rewrite (merge_step_covers new_ranges r p Hne).
    change (r :: ranges) with ([r] ++ ranges). rewrite (covers_app [r] ranges).
    tauto.
Qed.

(** Whatever the merger returns covers the points of its input, and no
    other. *)
Lemma merge_ranges_covers (ranges merged : list (Z * Z)) (p : Z) :
  merge_ranges ranges = Py.Return merged -> (covers merged p <-> covers ranges p).
Proof.
  unfold merge_ranges. cbv zeta.
  destruct (sorted ranges) as [|r0 rest] eqn:Hs; [discriminate|].
  intros [= <-].
  assert (Hne : [r0] <> []) by discriminate.
  rewrite (fold_merge_step_covers (r0 :: rest) p [r0] Hne).
  assert (Hsame : covers (r0 :: rest) p <-> covers ranges p).
  { unfold covers. rewrite <- Hs.
    split; intros [r [Hin Hp]]; exists r; split; auto; apply sorted_In; exact Hin. }
  rewrite <- Hsame. split; [|auto].
  intros [H|H]; [|exact H].
  apply covers_one in H. exists r0. split; [left; reflexivity|exact H].
Qed.

(** C2: the merger keeps an interval that lies inside the one before it,
    where the claim has only the outer interval remain.  [preview_fix]
    hands over such a list: for the line [abc] and a fix of four
    replacements, three of them with the end column before the start
    column, the ranges are (0,2), (0,1), (1,2) and (1,1), and (1,1) lies
    inside (0,2).  The merger returns (0,2) and (1,2), which overlap, and
    the preview shows the [z] of the scratch text [yzc] three times.  On the
    plain lists (1,10), (2,5) it returns both ranges as well; touching
    ranges it does merge. *)
Lemma merge_ranges_keeps_nested_interval :
  handed_to_merger Scenario.abc [Scenario.replace_at 2 2 "x"; Scenario.replace_at 2 1 "y";
                                 Scenario.replace_at 3 2 "z";
                                 Scenario.replace_at 3 1 EmptyString]
  = [(0, 2); (0, 1); (1, 2); (1, 1)]
  /\ merge_ranges [(0, 2); (0, 1); (1, 2); (1, 1)] = Py.Return [(0, 2); (1, 2)]
  /\ preview_fix (fun s => s) Scenario.abc Scenario.crossing_fix
     = Py.Return
         (String Gtk.newline EmptyString
          ++ "<span foreground=" ++ dquote ++ "#0F0" ++ dquote ++ ">Did you mean:</span>"
          ++ String Gtk.newline EmptyString
          ++ "<span foreground=" ++ dquote ++ "#999" ++ dquote
          ++ " background=" ++ dquote ++ "#222" ++ dquote ++ ">"
          ++ "<span foreground=" ++ dquote ++ "#0F0" ++ dquote ++ ">" ++ "yz" ++ "</span>"
          ++ "z"
          ++ "<span foreground=" ++ dquote ++ "#0F0" ++ dquote ++ ">" ++ "z" ++ "</span>"
          ++ "c"
          ++ "</span>")%string
  /\ merge_ranges [(1, 10); (2, 5)] = Py.Return [(1, 10); (2, 5)]
  /\ merge_ranges [(2, 5); (1, 10)] = Py.Return [(1, 10); (2, 5)]
  /\ merge_ranges [(1, 10); (2, 5); (3, 8)] = Py.Return [(1, 10); (2, 8)]
  /\ merge_ranges [(5, 10); (10, 15); (20, 25)] = Py.Return [(5, 15); (20, 25)].
Proof. repeat split. Qed.

(** C7, as stated, fails: on the empty list the merger raises
    [IndexError]. *)
Lemma merge_ranges_empty_raises : merge_ranges [] = Py.Raise Py.IndexError.
Proof. reflexivity. Qed.

(** C7 (amended): the merger is defined exactly on the lists that are not
    empty: on the empty list it raises [IndexError], on any other it returns
    a list that is not empty.  Its caller never passes the empty list:
    [preview_fix] gives the empty preview when the fix is absent or has no
    replacement, before it reaches the merger, and it returns for every
    message. *)
Theorem merge_ranges_defined_on_nonempty :
  merge_ranges [] = Py.Raise Py.IndexError
  /\ (forall r ranges,
        exists merged, merge_ranges (r :: ranges) = Py.Return merged /\ merged <> [])
  /\ (forall escape buffer message,
        Message.fix_ message = None \/ Message.fix_ message = Some [] ->
        preview_fix escape buffer message = Py.Return EmptyString)
  /\ (forall escape buffer message,
        exists markup, preview_fix escape buffer message = Py.Return markup).
Proof.
  split; [reflexivity|].
  split; [exact merge_ranges_returns|].
  split; [|exact preview_fix_returns].
  intros escape buffer message [H|H]; unfold preview_fix; rewrite H; reflexivity.
Qed.

(** The amended C7 on one range, and on a diagnostic without a fix. *)
Lemma merge_ranges_defined_on_one_range :
  (exists merged, merge_ranges [(1, 3)] = Py.Return merged /\ merged <> [])
  /\ preview_fix (fun s => s) Scenario.three_lines Scenario.two_line_diagnostic
     = Py.Return EmptyString.
Proof.
  destruct merge_ranges_defined_on_nonempty as (_ & Hreturns & Hempty & _).
  split.
  - apply Hreturns.
  - apply Hempty. left. reflexivity.
Defined.

(** C9: the merger is not idempotent, and not on a list that [preview_fix]
    hands over either.  For the line [abcd] and a fix of four replacements,
    three of them with the end column before the start column, the ranges
    are (0,3), (0,2), (2,3) and (2,2); the merger returns (0,3), (2,3) (the
    preview has two green spans), and from these it returns (0,3).  From
    the plain list (1,10), (2,5), (3,12) it returns (1,10), (2,12), and from
    these (1,12). *)
Lemma merge_ranges_not_idempotent :
  handed_to_merger Scenario.abcd [Scenario.replace_at 2 2 "x"; Scenario.replace_at 2 1 "yy";
                                  Scenario.replace_at 3 2 "z";
                                  Scenario.replace_at 3 1 EmptyString]
  = [(0, 3); (0, 2); (2, 3); (2, 2)]
  /\ merge_ranges [(0, 3); (0, 2); (2, 3); (2, 2)] = Py.Return [(0, 3); (2, 3)]
  /\ merge_ranges [(0, 3); (2, 3)] = Py.Return [(0, 3)]
  /\ (ranges <- merge_ranges [(0, 3); (0, 2); (2, 3); (2, 2)] ;; merge_ranges ranges)
     <> merge_ranges [(0, 3); (0, 2); (2, 3); (2, 2)]
  /\ preview_fix (fun s => s) Scenario.abcd Scenario.longer_crossing_fix
     = Py.Return
         (String Gtk.newline EmptyString
          ++ "<span foreground=" ++ dquote ++ "#0F0" ++ dquote ++ ">Did you mean:</span>"
          ++ String Gtk.newline EmptyString
          ++ "<span foreground=" ++ dquote ++ "#999" ++ dquote
          ++ " background=" ++ dquote ++ "#222" ++ dquote ++ ">"
          ++ "<span foreground=" ++ dquote ++ "#0F0" ++ dquote ++ ">" ++ "yyz" ++ "</span>"
          ++ "z"
          ++ "<span foreground=" ++ dquote ++ "#0F0" ++ dquote ++ ">" ++ "z" ++ "</span>"
          ++ "cd"
          ++ "</span>")%string
  /\ merge_ranges [(1, 10); (2, 5); (3, 12)] = Py.Return [(1, 10); (2, 12)]
  /\ merge_ranges [(1, 10); (2, 12)] = Py.Return [(1, 12)]
  /\ (ranges <- merge_ranges [(1, 10); (2, 5); (3, 12)] ;; merge_ranges ranges)
     <> merge_ranges [(1, 10); (2, 5); (3, 12)].
Proof. repeat split; discriminate. Qed.

(** C10: whatever the state of the scratch buffer, the range of a
    replacement is its two mark offsets in order, the smaller first; so
    every range in the list that [preview_fix] hands to the merger has its
    start at or before its end. *)
Theorem get_range_ordered :
  (forall (self : Replacement.t) (buf : Gtk.TextBuffer),
     let s := Z.of_nat (Gtk.get_iter_at_mark buf (Replacement.start self)) in
     let e := Z.of_nat (Gtk.get_iter_at_mark buf (Replacement.end_ self)) in
     Replacement.get_range self buf = (Z.min s e, Z.max s e)
     /\ fst (Replacement.get_range self buf) <= snd (Replacement.get_range self buf))
  /\ (forall (buf : Gtk.TextBuffer) (replacements : list Replacement.t),
        Forall (fun r => fst r <= snd r) (inserted_ranges buf replacements))
  /\ (forall (buffer : Gtk.TextBuffer) (items : list Item.t),
        let scratch :=
          Gtk.set_text (Gtk.get_text buffer (Gtk.get_start_iter buffer)
                                     (Gtk.get_end_iter buffer)) in
        let (buf, replacements) := create_replacements scratch items in
        Forall (fun r => fst r <= snd r)
               (inserted_ranges (apply_replacements buf replacements) replacements)).
Proof.
  assert (Hrange : forall (self : Replacement.t) (buf : Gtk.TextBuffer),
             let s := Z.of_nat (Gtk.get_iter_at_mark buf (Replacement.start self)) in
             let e := Z.of_nat (Gtk.get_iter_at_mark buf (Replacement.end_ self)) in
             Replacement.get_range self buf = (Z.min s e, Z.max s e)
             /\ fst (Replacement.get_range self buf)
                <= snd (Replacement.get_range self buf)).
  { intros self buf s e. unfold Replacement.get_range. fold s. fold e.
    destruct (s >? e) eqn:Hgt; simpl.
    - apply Z.gtb_lt in Hgt. rewrite Z.min_r, Z.max_l by lia. split; [reflexivity|lia].
    - assert (s <= e) by (rewrite Z.gtb_ltb in Hgt; apply Z.ltb_ge in Hgt; exact Hgt).
      rewrite Z.min_l, Z.max_r by lia. split; [reflexivity|lia]. }
  assert (Hall : forall (buf : Gtk.TextBuffer) (replacements : list Replacement.t),
             Forall (fun r => fst r <= snd r) (inserted_ranges buf replacements)).
  { intros buf replacements. unfold inserted_ranges. apply Forall_forall.
    intros r Hin. apply in_map_iff in Hin. destruct Hin as [self [<- _]].
    apply (Hrange self buf). }
  split; [exact Hrange|]. split; [exact Hall|].
  intros buffer items scratch.
  destruct (create_replacements scratch items) as [buf rs].
  apply Hall.
Qed.

End RangeMerger.

(** ** The check scheduler *)

Section Scheduler.

Import ShellCheckViewActivatable.

Lemma remove_parse_signal_frame (self : t) :
  let self' := remove_parse_signal self in
  context_data self' = context_data self
  /\ update_timeout self' = update_timeout self
  /\ connected self' = connected self
  /\ buffer self' = buffer self
  /\ project_folder self' = project_folder self
  /\ effects self' = effects self
  /\ parse_signal self' = 0.
Proof.
  unfold remove_parse_signal.
  destruct (parse_signal self =? 0) eqn:Hz; simpl.
  - apply Z.eqb_eq in Hz. repeat split; assumption.
  - repeat split.
Qed.

Lemma delay_as_specified_off_multiples (n : Z) :
  n mod 2000 <> 0 -> delay n = delay_as_specified n.
Proof.
  intros Hmod. unfold delay, delay_as_specified.
  assert (Hdiv : (n + 1999) / 2000 = n / 2000 + 1).
  { pose proof (Z.div_mod n 2000 ltac:(lia)) as Hn.
    pose proof (Z.mod_pos_bound n 2000 ltac:(lia)) as Hr.
    symmetry. apply (Z.div_unique (n + 1999) 2000 (n / 2000 + 1) (n mod 2000 - 1)); lia. }
  rewrite Hdiv. reflexivity.
Qed.

(** The code's delay and the claimed one differ exactly at the multiples of
    2000 below 100000: off the multiples the two roundings agree, and from
    100000 lines on both are clamped to 10000. *)
Lemma delay_as_specified_iff (n : Z) :
  delay n = delay_as_specified n <-> (n mod 2000 <> 0 \/ 100000 <= n).
Proof.
  split.
  - intros Heq. destruct (Z.eq_dec (n mod 2000) 0) as [Hmod|Hmod]; [right|left; exact Hmod].
    destruct (Z_lt_le_dec n 100000) as [Hlt|Hge]; [exfalso|exact Hge].
    pose proof (Z.div_mod n 2000 ltac:(lia)) as Hn.
    assert (Hdiv : (n + 1999) / 2000 = n / 2000).
    { symmetry. apply (Z.div_unique (n + 1999) 2000 (n / 2000) 1999); lia. }
    unfold delay, delay_as_specified in Heq. rewrite Hdiv in Heq. lia.
  - intros [Hmod|Hge]; [exact (delay_as_specified_off_multiples n Hmod)|].
    unfold delay, delay_as_specified.
    assert (H1 : 50 <= n / 2000) by (apply Z.div_le_lower_bound; lia).
    assert (H2 : 50 <= (n + 1999) / 2000) by (apply Z.div_le_lower_bound; lia).
    lia.
Qed.

(** C3, as stated, fails: a buffer of 4001 lines waits 600 ms and not 400,
    and at a multiple of 2000 lines the code's delay is 200 ms more than
    the claimed formula gives. *)
Lemma delay_differs_from_claimed :
  delay 4001 = 600
  /\ delay 2000 = 400 /\ delay_as_specified 2000 = 200
  /\ GLib.sources (loop (update (set_buffer (Some Scenario.long_buffer)
                                            Scenario.checked_one)))
     = [(2, GLib.TimeoutSource 600)].
Proof. repeat split. Qed.

(** C3 (amended): when a change is notified while the plugin is connected,
    no timer is pending and the snapshot is not empty, one timer is
    registered and nothing else is done; its delay is
    min(10000, 200 * (floor(lineCount / 2000) + 1)) ms.  That is 200 ms under
    2000 lines, 600 ms for 4001 lines, exactly 10000 ms whenever
    200 * (floor(lineCount / 2000) + 1) exceeds 10000, and it equals
    min(10000, 200 * ceil(lineCount / 2000)) exactly when the line count is
    not a multiple of 2000 or is at least 100000 (where both are clamped):
    at a multiple of 2000 below 100000 the code waits 200 ms longer. *)
Theorem update_schedules_delay (self : t) (b : Buffer.t) :
  connected self = true ->
  update_timeout self = 0 ->
  PyVal.truthy (context_data self) = true ->
  buffer self = Some b ->
  let n := Buffer.line_count b in
  let before := remove_parse_signal self in
  let after := update self in
  exists d,
    GLib.sources (loop after)
    = GLib.sources (loop before) ++ [(update_timeout after, GLib.TimeoutSource d)]
    /\ update_timeout after = GLib.next_id (loop before)
    /\ effects after = effects self
    /\ d = Z.min 10000 (200 * (n / 2000 + 1))
    /\ (0 <= n < 2000 -> d = 200)
    /\ (n = 4001 -> d = 600)
    /\ (10000 < 200 * (n / 2000 + 1) -> d = 10000)
    /\ (d = delay_as_specified n <-> (n mod 2000 <> 0 \/ 100000 <= n)).
Proof.
  intros Hconn Htimer Htruthy Hbuf n before after.
  destruct (remove_parse_signal_frame self)
    as (Hctx & _ & _ & Hb & _ & Heff & _).
  exists (delay n).
  assert (Hafter : after
                   = set_update_timeout (GLib.next_id (loop before))
                       (set_loop (fst (GLib.timeout_add (loop before) (delay n))) before)).
  { unfold after, update. rewrite Hconn, Htimer. simpl negb. cbv iota.
    fold before. unfold before at 1. rewrite Hctx, Htruthy. simpl negb. cbv iota.
    unfold before at 1. rewrite Hb, Hbuf. reflexivity. }
  rewrite Hafter.
  split; [reflexivity|]. split; [reflexivity|]. split; [exact Heff|].
  split; [reflexivity|].
  split; [|split; [|split]].
  - intros Hn. unfold delay. rewrite (Z.div_small n 2000) by lia. reflexivity.
  - intros Hn. rewrite Hn. reflexivity.
  - intros Hbig. unfold delay. apply Z.min_l. subst n. lia.
  - apply delay_as_specified_iff.
Qed.

(** The amended C3 at a buffer of 4001 lines whose last check reported one
    finding. *)
Lemma update_schedules_delay_at_4001_lines :
  exists d,
    GLib.sources (loop (update (set_buffer (Some Scenario.long_buffer)
                                           Scenario.checked_one)))
    = [(2, GLib.TimeoutSource d)]
    /\ d = 600.
Proof.
  destruct (update_schedules_delay
              (set_buffer (Some Scenario.long_buffer) Scenario.checked_one)
              Scenario.long_buffer eq_refl eq_refl eq_refl eq_refl)
    as (d & Hsources & _ & _ & _ & _ & Hd & _).
  exists d. split.
  - rewrite Hsources. vm_compute. reflexivity.
  - apply Hd. reflexivity.
Defined.

End Scheduler.

(** ** The first check, and detaching *)

Section Lifecycle.

Import ShellCheckViewActivatable.

(** Without a pending timer, what [update] does depends on the snapshot
    alone: on an empty one it runs the check at once. *)
Lemma update_on_empty_snapshot (self : t) :
  connected self = true ->
  update_timeout self = 0 ->
  PyVal.truthy (context_data self) = false ->
  update self = on_update_timeout (remove_parse_signal self).
Proof.
  intros Hconn Htimer Hempty. unfold update.
  rewrite Hconn, Htimer. simpl negb. cbv iota.
  destruct (remove_parse_signal_frame self) as (Hctx & _).
  rewrite Hctx, Hempty. reflexivity.
Qed.

(** C5: the check that runs at once is not only the first after a
    connection.  After a check that found nothing the snapshot is the empty
    list, and the next change starts the tool at once, with no timer; and
    after the view moves to another buffer while the snapshot holds a
    finding, the first check of that buffer waits for a timer. *)
Lemma update_checks_at_once_on_empty_snapshot :
  let changed := step Json.loads Scenario.checked_clean
                      (BufferSignal Changed Scenario.shell_buffer) in
  let moved := step Json.loads Scenario.checked_one
                    (ViewNotifyBuffer Scenario.other_buffer) in
  (context_data Scenario.checked_clean = PyVal.PList []
   /\ update_timeout Scenario.checked_clean = 0
   /\ GLib.sources (loop Scenario.checked_clean) = [])
  /\ (effects changed
      = effects Scenario.checked_clean ++ [Popen "/home/user/project" "echo $1"]
      /\ update_timeout changed = 0
      /\ GLib.sources (loop changed) = [(2, GLib.IoWatch 3 EmptyString)])
  /\ (effects moved = effects Scenario.checked_one
      /\ update_timeout moved = 2
      /\ GLib.sources (loop moved) = [(2, GLib.TimeoutSource 200)]).
Proof. vm_compute. repeat split. Qed.

(** When the view moves to another buffer, and when the plugin is
    deactivated, the pending timer and the watch of the check in flight are
    removed. *)
Lemma on_notify_buffer_removes_sources :
  let pending := step Json.loads Scenario.checked_one
                      (BufferSignal Changed Scenario.shell_buffer) in
  GLib.sources (loop pending) = [(2, GLib.TimeoutSource 200)]
  /\ GLib.find (loop (on_notify_buffer pending Scenario.other_buffer)) 2 = None
  /\ GLib.sources (loop (do_deactivate pending)) = []
  /\ GLib.sources (loop Scenario.attached) = [(1, GLib.IoWatch 1 EmptyString)]
  /\ GLib.find (loop (on_notify_buffer Scenario.attached Scenario.other_buffer)) 1 = None
  /\ GLib.sources (loop (do_deactivate Scenario.attached)) = [].
Proof. vm_compute. repeat split. Qed.

(** C6: detaching because the language is no longer a shell, or because the
    file has no parent folder any more, cancels nothing.  The pending timer
    stays registered, fires, and starts the tool for the detached buffer;
    the watch of a check in flight stays registered, and the output it
    reads replaces the snapshot. *)
Lemma detach_leaves_timer_and_watch :
  let pending := step Json.loads Scenario.checked_one
                      (BufferSignal Changed Scenario.shell_buffer) in
  let detached := step Json.loads pending
                       (BufferSignal NotifyLanguage Scenario.python_buffer) in
  let fired := step Json.loads detached (TimeoutFires 2) in
  let parsed := step Json.loads fired (IoReady 3 (Scenario.closed Scenario.no_comments)) in
  let rootless := step Json.loads pending (BufferSignal Saved Scenario.rootless_buffer) in
  let in_flight := step Json.loads Scenario.attached
                        (BufferSignal NotifyLanguage Scenario.python_buffer) in
  let late := step Json.loads in_flight
                   (IoReady 1 (Scenario.closed Scenario.no_comments)) in
  (connected pending = true
   /\ update_timeout pending = 2
   /\ GLib.sources (loop pending) = [(2, GLib.TimeoutSource 200)])
  /\ (connected detached = false
      /\ update_timeout detached = 2
      /\ GLib.sources (loop detached) = [(2, GLib.TimeoutSource 200)])
  /\ (effects fired = effects detached ++ [Popen "/home/user/project" "echo $1"]
      /\ GLib.sources (loop fired) = [(3, GLib.IoWatch 4 EmptyString)])
  /\ (context_data detached <> PyVal.PList []
      /\ context_data parsed = PyVal.PList [])
  /\ (connected rootless = false
      /\ GLib.sources (loop rootless) = [(2, GLib.TimeoutSource 200)])
  /\ (connected in_flight = false
      /\ parse_signal in_flight = 1
      /\ GLib.sources (loop in_flight) = [(1, GLib.IoWatch 1 EmptyString)]
      /\ context_data in_flight = PyVal.PDict []
      /\ context_data late = PyVal.PList []).
Proof. vm_compute. repeat split. discriminate. Qed.

End Lifecycle.

(** ** The parser of the tool's output *)

Section ParserProperties.

Import ShellCheckViewActivatable.

(** [json.loads], any decoder. *)
Variable json_loads : string -> Py.result PyVal.t.

Lemma getitem_raises (obj : PyVal.t) (key : string) (e : Py.exn) :
  PyVal.getitem obj key = Py.Raise e -> e = Py.KeyError \/ e = Py.TypeError.
Proof.
  destruct obj; simpl; try (intros [= <-]; right; reflexivity).
  destruct (PyVal.dict_get pairs key); [discriminate|].
  intros [= <-]; left; reflexivity.
Qed.

Lemma setitem_raises (obj : PyVal.t) (key : string) (v : PyVal.t) (e : Py.exn) :
  PyVal.setitem obj key v = Py.Raise e -> e = Py.TypeError.
Proof. destruct obj; simpl; intros [= <-] || discriminate; reflexivity. Qed.

Lemma iter_raises (obj : PyVal.t) (e : Py.exn) :
  PyVal.iter obj = Py.Raise e -> e = Py.TypeError.
Proof. destruct obj; simpl; intros [= <-] || discriminate; reflexivity. Qed.

Lemma annotate_raises (comments : list PyVal.t) (e : Py.exn) :
  annotate comments = Py.Raise e -> e = Py.KeyError \/ e = Py.TypeError.
Proof.
  induction comments as [|comment comments IH]; simpl; [discriminate|].
  destruct (PyVal.getitem comment "level") as [level|e0] eqn:Hget; simpl.
  - destruct (PyVal.setitem comment "levelcls" (PyVal.PLevel (by_code level)))
      as [comment'|e1] eqn:Hset; simpl.
    + destruct (annotate comments) as [rest|e2]; simpl; [discriminate|].
      intros [= <-]. apply IH. reflexivity.
    + intros [= <-]. right. exact (setitem_raises _ _ _ _ Hset).
  - intros [= <-]. exact (getitem_raises _ _ _ Hget).
Qed.

Lemma annotate_comments_raises (comments : PyVal.t) (e : Py.exn) :
  annotate_comments comments = Py.Raise e -> e = Py.KeyError \/ e = Py.TypeError.
Proof.
  unfold annotate_comments.
  destruct (PyVal.iter comments) as [items|e0] eqn:Hiter; simpl.
  - destruct (annotate items) as [items'|e1] eqn:Hann; simpl; [discriminate|].
    intros [= <-]. exact (annotate_raises _ _ Hann).
  - intros [= <-]. right. exact (iter_raises _ _ Hiter).
Qed.

(** What the loop makes of a list of records: each must be a [dict] with a
    [level], and gets the [levelcls] that [by_code] finds for it. *)
Lemma annotate_records (comments annotated : list PyVal.t) :
  annotate comments = Py.Return annotated ->
  Forall2 (fun comment comment' =>
             exists pairs level,
               comment = PyVal.PDict pairs
               /\ PyVal.dict_get pairs "level" = Some level
               /\ comment' = PyVal.PDict
                               (PyVal.dict_set pairs "levelcls"
                                               (PyVal.PLevel (by_code level))))
          comments annotated.
Proof.
  revert annotated.
  induction comments as [|comment comments IH]; simpl; intros annotated.
  - intros [= <-]. constructor.
  - destruct comment; simpl; try discriminate.
    destruct (PyVal.dict_get pairs "level") as [level|] eqn:Hget; simpl; [|discriminate].
    destruct (annotate comments) as [rest|e]; simpl; [|discriminate].
    intros [= <-]. constructor; [|apply IH; reflexivity].
    exists pairs, level. repeat split. exact Hget.
Qed.

(** C4, as stated, fails: on JSON text that is not an object with a
    [comments] member an exception leaves the parser ([KeyError] for an
    empty object, [TypeError] for an array). *)
Lemma parse_shellcheck_raises_on_other_json :
  ShellCheckViewActivatable.parse_shellcheck Json.loads Scenario.checked_one "{}"
  = (Py.Raise Py.KeyError, Scenario.checked_one)
  /\ ShellCheckViewActivatable.parse_shellcheck Json.loads Scenario.checked_one "[]"
     = (Py.Raise Py.TypeError, Scenario.checked_one)
  /\ PyVal.truthy (context_data Scenario.checked_one) = true.
Proof. vm_compute. repeat split. Qed.

(** C4 (amended): for every input string the parser either replaces the
    snapshot by the decoded [comments], each record with its level added,
    and asks for a redraw, or leaves the whole state as it was.  It leaves
    it silently when the input is not JSON ([JSONDecodeError]); in every
    other case that leaves the state an exception comes out of the parser:
    the one the decoder raised, or [KeyError] or [TypeError] when the
    decoded value has not the expected shape. *)
Theorem parse_shellcheck_replaces_or_keeps (self : t) (output : string) :
  match parse_shellcheck json_loads self output with
  | (Py.Return _, self') =>
      (json_loads output = Py.Raise Py.JSONDecodeError /\ self' = self)
      \/ (exists data comments annotated,
            json_loads output = Py.Return data
            /\ PyVal.getitem data "comments" = Py.Return comments
            /\ annotate_comments comments = Py.Return annotated
            /\ self' = emit QueueDraw (set_context_data annotated self))
  | (Py.Raise e, self') =>
      self' = self
      /\ e <> Py.JSONDecodeError
      /\ (json_loads output = Py.Raise e
          \/ (exists data,
                json_loads output = Py.Return data
                /\ (e = Py.KeyError \/ e = Py.TypeError)))
  end.
Proof.
  unfold parse_shellcheck.
  destruct (json_loads output) as [data|e] eqn:Hloads.
  - destruct (PyVal.getitem data "comments") as [comments|e] eqn:Hget; simpl.
    + destruct (annotate_comments comments) as [annotated|e] eqn:Hann.
      * right. exists data, comments, annotated. repeat split; assumption.
      * pose proof (annotate_comments_raises _ _ Hann) as He.
        split; [reflexivity|]. split; [destruct He; subst; discriminate|].
        right. exists data. split; [reflexivity|exact He].
    + pose proof (getitem_raises _ _ _ Hget) as He.
      split; [reflexivity|]. split; [destruct He; subst; discriminate|].
      right. exists data. split; [reflexivity|exact He].
  - destruct e; try (split; [reflexivity|split; [discriminate|left; reflexivity]]).
    left. split; reflexivity.
Qed.

End ParserProperties.

(** ** The preview of the diagnostic's span *)

Section TextFacts.

Import Gtk.
Local Open Scope nat_scope.

Lemma substring_skip (a m : nat) (s : string) :
  substring a m s = substring 0 m (skip a s).
Proof.
  revert s. induction a as [|a IH]; intros s.
  - reflexivity.
  - destruct s as [|c s]; simpl.
    + destruct m; reflexivity.
    + apply IH.
Qed.

Lemma substring_0_add (m1 m2 : nat) (s : string) :
  substring 0 (m1 + m2) s
  = (substring 0 m1 s ++ substring 0 m2 (skip m1 s))%string.
Proof.
  revert s. induction m1 as [|m1 IH]; intros s.
  - destruct s; reflexivity.
  - destruct s as [|c s]; simpl.
    + destruct m2; reflexivity.
    + rewrite IH. reflexivity.
Qed.

Lemma skip_skip (a b : nat) (s : string) : skip a (skip b s) = skip (b + a) s.
Proof.
  revert s. induction b as [|b IH]; intros s.
  - reflexivity.
  - destruct s as [|c s]; simpl.
    + destruct a; reflexivity.
    + apply IH.
Qed.

(** A stretch of text cut in two. *)
Lemma substring_split (a b c : nat) (s : string) :
  a <= b -> b <= c ->
  substring a (c - a) s = (substring a (b - a) s ++ substring b (c - b) s)%string.
Proof.
  intros Hab Hbc.
  rewrite (substring_skip a (c - a)), (substring_skip a (b - a)), (substring_skip b).
  replace (c - a) with ((b - a) + (c - b)) by lia.
  rewrite substring_0_add, skip_skip.
  replace (a + (b - a)) with b by lia. reflexivity.
Qed.

Lemma string_app_assoc (x y z : string) :
  ((x ++ y) ++ z)%string = (x ++ (y ++ z))%string.
Proof.
  induction x as [|c x IH]; simpl; [reflexivity|].
  rewrite IH. reflexivity.
Qed.

Lemma append_cancel_l (p x y : string) : (p ++ x)%string = (p ++ y)%string -> x = y.
Proof.
  induction p as [|c p IH]; simpl; intros H.
  - exact H.
  - injection H as H. apply IH. exact H.
Qed.

Lemma lines_nonempty (s : string) : lines s <> [].
Proof.
  induction s as [|c s IH]; simpl.
  - discriminate.
  - destruct (is_newline c); [discriminate|].
    destruct (lines s); discriminate.
Qed.

(** The text before line [n] is the first [n] lines. *)
Lemma line_offset_lines (s : string) :
  forall n, substring 0 (line_offset s n) s = join (firstn n (lines s)).
Proof.
  induction s as [|c s IH]; intros n.
  - destruct n as [|[|n]]; reflexivity.
  - destruct n as [|n]; [reflexivity|].
    simpl. destruct (is_newline c).
    + simpl. rewrite IH. reflexivity.
    + rewrite (IH (S n)).
      destruct (lines s) as [|l ls] eqn:Hl; [exfalso; exact (lines_nonempty s Hl)|].
      reflexivity.
Qed.

Lemma join_firstn_split (l : list string) :
  forall a b, a <= b ->
    join (firstn b l) = (join (firstn a l) ++ join (firstn (b - a) (skipn a l)))%string.
Proof.
  induction l as [|x l IH]; intros a b Hab.
  - destruct a, b; simpl; try reflexivity.
    destruct (b - a); reflexivity.
  - destruct a as [|a].
    + rewrite Nat.sub_0_r. reflexivity.
    + destruct b as [|b]; [lia|].
      simpl. rewrite (IH a b) by lia.
      rewrite string_app_assoc. reflexivity.
Qed.

Lemma line_offset_0 (s : string) : line_offset s 0 = 0.
Proof. destruct s; reflexivity. Qed.

Lemma line_offset_step (s : string) :
  forall n, line_offset s n + line_length (skip (line_offset s n) s)
            <= line_offset s (S n).
Proof.
  induction s as [|c s IH]; intros n.
  - destruct n; simpl; lia.
  - destruct n as [|n].
    + simpl. destruct (is_newline c); [lia|].
      specialize (IH 0). rewrite line_offset_0 in IH. simpl in IH. lia.
    + change (line_offset (String c s) (S n))
        with (S (if is_newline c then line_offset s n else line_offset s (S n))).
      change (line_offset (String c s) (S (S n)))
        with (S (if is_newline c then line_offset s (S n)
                 else line_offset s (S (S n)))).
      change (skip (S ?k) (String c s)) with (skip k s).
      destruct (is_newline c).
      * specialize (IH n). simpl skip. lia.
      * specialize (IH (S n)). simpl skip. lia.
Qed.

Lemma line_offset_mono (s : string) (a b : nat) :
  a <= b -> line_offset s a <= line_offset s b.
Proof.
  induction 1 as [|b Hab IH]; [lia|].
  pose proof (line_offset_step s b). lia.
Qed.

(** The text from the start of line [a] to the start of line [b] is the
    lines in between. *)
Lemma lines_between (s : string) (a b : nat) :
  a <= b ->
  substring (line_offset s a) (line_offset s b - line_offset s a) s
  = join (firstn (b - a) (skipn a (lines s))).
Proof.
  intros Hab.
  pose proof (line_offset_mono s a b Hab) as Hoff.
  pose proof (line_offset_lines s b) as Hb.
  rewrite (join_firstn_split (lines s) a b Hab), <- (line_offset_lines s a) in Hb.
  replace (line_offset s b) with (line_offset s b - 0) in Hb at 1 by lia.
  rewrite (substring_split 0 (line_offset s a) (line_offset s b) s) in Hb by lia.
  rewrite Nat.sub_0_r in Hb.
  exact (append_cancel_l _ _ _ Hb).
Qed.

End TextFacts.

Section NotePreview.

Import Gtk GutterRenderer.

Lemma line_offset_le_length (s : string) :
  forall n, (line_offset s n <= String.length s)%nat.
Proof.
  induction s as [|c s IH]; intros n.
  - destruct n; simpl; lia.
  - destruct n as [|n]; simpl; [lia|].
    destruct (is_newline c); [specialize (IH n)|specialize (IH (S n))]; lia.
Qed.

Lemma length_substring (s : string) :
  forall a m, (a + m <= String.length s)%nat -> String.length (substring a m s) = m.
Proof.
  induction s as [|c s IH]; intros a m H; simpl in H.
  - assert (a = O) by lia. assert (m = O) by lia. subst. reflexivity.
  - destruct a as [|a]; simpl.
    + destruct m as [|m]; simpl; [reflexivity|]. rewrite IH by lia. reflexivity.
    + apply IH. lia.
Qed.

(** C8, as stated, fails: for a diagnostic from line 1, column 2 to line 2,
    column 2 of the lines [ab], [cd], [ef], the highlighted text runs over
    the line feed into the second line, and the preview shows both lines,
    not the one line with the diagnostic's start. *)
Lemma preview_note_spans_two_lines :
  preview_note (fun s => s) Scenario.three_lines Scenario.two_line_diagnostic
  = (String newline EmptyString
     ++ "<span foreground=" ++ dquote ++ "#999" ++ dquote
     ++ " background=" ++ dquote ++ "#222" ++ dquote ++ ">"
     ++ "a"
     ++ "<u><span foreground=" ++ dquote ++ "#F00" ++ dquote ++ ">"
     ++ String "b" (String newline "c") ++ "</span></u>"
     ++ "d"
     ++ "</span>")%string
  /\ preview_note_pieces Scenario.three_lines Scenario.two_line_diagnostic
     = ("a", String "b" (String newline "c"), "d")
  /\ nth 0 (lines (text Scenario.three_lines)) EmptyString = String "a" (String "b" (String newline EmptyString)).
Proof. repeat split. Qed.

(** C8 (amended): for every diagnostic whose span is in order, the preview
    is cut out of the lines from the diagnostic's first to its last line
    (all of them, not the first one alone): the text of these lines is the
    prefix, then the highlighted text, then the suffix before its trailing
    line feeds are dropped.  The markup that [preview_note] returns is a
    line feed and a grey span holding the escaped prefix, the escaped
    highlighted text underlined in red, and the escaped suffix, in this
    order and with nothing else.  The prefix is the first [column - 1]
    characters of the first line (or the whole line if it is shorter), and
    the highlighted text lies between the start and the end of the
    diagnostic's own span, whatever lines it crosses.  A diagnostic within
    one line gives that line. *)
Theorem preview_note_renders_span_lines (escape : string -> string)
        (buffer : TextBuffer) (message : Message.t) :
  1 <= Message.line message <= Message.endLine message ->
  1 <= Message.column message ->
  1 <= Message.endColumn message ->
  (Message.line message = Message.endLine message ->
   Message.column message <= Message.endColumn message) ->
  let first := Z.to_nat (Message.line message - 1) in
  let count := Z.to_nat (Message.endLine message - Message.line message + 1) in
  let line_start := get_iter_at_line buffer (Message.line message - 1) in
  let note_start :=
    get_iter_at_line_offset buffer (Message.line message - 1)
                            (Message.column message - 1) in
  let note_end :=
    get_iter_at_line_offset buffer (Message.endLine message - 1)
                            (Message.endColumn message - 1) in
  let prefix := get_text buffer line_start note_start in
  let error := get_text buffer note_start note_end in
  exists tail,
    preview_note_pieces buffer message = (prefix, error, rstrip_newline tail)
    /\ preview_note escape buffer message
       = (String newline EmptyString
          ++ "<span foreground=" ++ dquote ++ "#999" ++ dquote
          ++ " background=" ++ dquote ++ "#222" ++ dquote ++ ">"
          ++ escape prefix
          ++ "<u><span foreground=" ++ dquote ++ "#F00" ++ dquote ++ ">"
          ++ escape error ++ "</span></u>"
          ++ escape (rstrip_newline tail)
          ++ "</span>")%string
    /\ (prefix ++ error ++ tail)%string
       = join (firstn count (skipn first (lines (text buffer))))
    /\ String.length prefix
       = Nat.min (Z.to_nat (Message.column message - 1))
                 (line_length (skip line_start (text buffer)))
    /\ (line_start <= note_start <= note_end)%nat.
Proof.
  intros Hline Hcol Hecol Hsame first count line_start note_start note_end prefix error.
  exists (get_text buffer note_end (get_iter_at_line buffer (Message.endLine message))).
  split; [reflexivity|].
  split; [reflexivity|].
  subst prefix error. unfold get_text.
  set (s := text buffer).
  set (L := Z.to_nat (Message.line message - 1)) in *.
  set (E := Z.to_nat (Message.endLine message - 1)).
  set (c1 := Z.to_nat (Message.column message - 1)).
  set (c2 := Z.to_nat (Message.endColumn message - 1)).
  assert (HL : line_start = line_offset s L) by reflexivity.
  assert (Hns : note_start
                = (line_offset s L + Nat.min c1 (line_length (skip (line_offset s L) s)))%nat)
    by reflexivity.
  assert (Hne : note_end
                = (line_offset s E + Nat.min c2 (line_length (skip (line_offset s E) s)))%nat)
    by reflexivity.
  assert (Hle : get_iter_at_line buffer (Message.endLine message) = line_offset s (S E)).
  { unfold get_iter_at_line. fold s. f_equal. subst E. lia. }
  assert (Hcount : count = (S E - L)%nat) by (subst count E L; lia).
  rewrite Hle.
  pose proof (line_offset_step s L) as HstepL.
  pose proof (line_offset_step s E) as HstepE.
  pose proof (line_offset_le_length s (S L)) as HlenL.
  assert (Horder : (note_start <= note_end)%nat).
  { destruct (Nat.eq_dec L E) as [Heq|Hneq].
    - assert (Message.line message = Message.endLine message) by (subst L E; lia).
      assert ((c1 <= c2)%nat) by (subst c1 c2; specialize (Hsame H); lia).
      rewrite Hns, Hne, <- Heq. lia.
    - assert (HLE : (S L <= E)%nat) by (subst L E; lia).
      pose proof (line_offset_mono s (S L) E HLE). lia. }
  assert (H1 : (line_start <= note_start)%nat) by lia.
  assert (H3 : (note_end <= line_offset s (S E))%nat) by lia.
  rewrite (Nat.min_l line_start note_start), (Nat.max_r line_start note_start) by lia.
  rewrite (Nat.min_l note_start note_end), (Nat.max_r note_start note_end) by lia.
  rewrite (Nat.min_l note_end (line_offset s (S E))),
          (Nat.max_r note_end (line_offset s (S E))) by lia.
  split; [|split; [|lia]].
  - rewrite <- (substring_split note_start note_end (line_offset s (S E)) s) by lia.
    rewrite <- (substring_split line_start note_start (line_offset s (S E)) s) by lia.
    rewrite HL, Hcount. apply lines_between. subst L E. lia.
  - rewrite length_substring by lia. rewrite Hns, HL. lia.
Qed.

(** The amended C8 at the diagnostic that spans two lines. *)
Lemma preview_note_renders_both_lines :
  exists tail,
    preview_note_pieces Scenario.three_lines Scenario.two_line_diagnostic
    = ("a", String "b" (String newline "c"), rstrip_newline tail)
    /\ preview_note (fun s => s) Scenario.three_lines Scenario.two_line_diagnostic
       = (String newline EmptyString
          ++ "<span foreground=" ++ dquote ++ "#999" ++ dquote
          ++ " background=" ++ dquote ++ "#222" ++ dquote ++ ">"
          ++ "a"
          ++ "<u><span foreground=" ++ dquote ++ "#F00" ++ dquote ++ ">"
          ++ String "b" (String newline "c") ++ "</span></u>"
          ++ rstrip_newline tail
          ++ "</span>")%string
    /\ ("a" ++ String "b" (String newline "c") ++ tail)%string
       = (String "a" (String "b" (String newline EmptyString))
          ++ String "c" (String "d" (String newline EmptyString)))%string.
Proof.
  destruct (preview_note_renders_span_lines (fun s => s)
              Scenario.three_lines Scenario.two_line_diagnostic)
    as (tail & Hpieces & Hmarkup & Htext & _).
  - vm_compute. split; discriminate.
  - vm_compute. discriminate.
  - vm_compute. discriminate.
  - intros H. vm_compute in H. discriminate H.
  - exists tail. split; [exact Hpieces|]. split; [exact Hmarkup|exact Htext].
Defined.

End NotePreview.

(* ===================================================================== *)
(** * Part III: further properties of the code *)
(* ===================================================================== *)

(** ** [Level.by_code] *)

Section ByCode.

(** X1: [Level.by_code] finds every member by its own code, [UNKNOWN]
    included; a value that is not the code of one of the other four members
    (another string, or no string at all) gives [UNKNOWN], never an error. *)
Theorem by_code_round_trip :
  (forall l, by_code (PyVal.PStr (Level.code l)) = l)
  /\ (forall code l,
        l <> Level.UNKNOWN ->
        (by_code code = l <-> code = PyVal.PStr (Level.code l)))
  /\ (forall code,
        (forall l, code <> PyVal.PStr (Level.code l)) -> by_code code = Level.UNKNOWN).
Proof.
  assert (Hcases : forall code,
             by_code code = Level.UNKNOWN
             \/ code = PyVal.PStr (Level.code (by_code code))).
  { intros code. destruct code; try (left; reflexivity).
    unfold by_code, Level.members, by_code_from, PyVal.str_eq, Level.code.
    cbn [Level.value fst].
    repeat match goal with
           | |- context [String.eqb ?a s] =>
               destruct (String.eqb_spec a s) as [<-|_]; [right; reflexivity|]
           end.
    left. reflexivity. }
  split; [intros []; reflexivity|]. split.
  - intros code l Hl. split.
    + intros <-. destruct (Hcases code) as [H|H]; [contradiction|exact H].
    + intros ->. destruct l; reflexivity.
  - intros code Hnot. destruct (Hcases code) as [H|H]; [exact H|].
    exfalso. exact (Hnot _ H).
Qed.

End ByCode.

(** ** [merge_ranges] on well-formed ranges *)

Section MergedRanges.

Import GutterRenderer.

Lemma chain_snoc {A : Type} (R : A -> A -> Prop) (init : list A) (x y : A) :
  chain R (init ++ [x]) -> R x y -> chain R ((init ++ [x]) ++ [y]).
Proof.
  induction init as [|z init IH]; simpl; intros Hc Hxy.
  - auto.
  - destruct Hc as [Hhd Htl]. split; [|apply IH; assumption].
    destruct init; exact Hhd.
Qed.

Lemma chain_replace_last {A : Type} (R : A -> A -> Prop) (init : list A) (x x' : A) :
  (forall z, R z x -> R z x') ->
  chain R (init ++ [x]) -> chain R (init ++ [x']).
Proof.
  intros Hrel. induction init as [|z init IH]; simpl; intros Hc.
  - auto.
  - destruct Hc as [Hhd Htl]. split; [|apply IH; exact Htl].
    destruct init; simpl in *; auto.
Qed.

Lemma chain_tail {A : Type} (R : A -> A -> Prop) (x : A) (l : list A) :
  chain R (x :: l) -> chain R l.
Proof. simpl. tauto. Qed.

Lemma chain_weaken {A : Type} (R R' : A -> A -> Prop) (l : list A) :
  (forall x y, In x l -> In y l -> R x y -> R' x y) -> chain R l -> chain R' l.
Proof.
  induction l as [|x l IH]; simpl; intros Himp Hc; [exact I|].
  destruct Hc as [Hhd Htl]. split.
  - destruct l as [|y l]; [exact I|]. apply Himp; simpl; auto.
  - apply IH; [|exact Htl]. intros a b Ha Hb. apply Himp; simpl; auto.
Qed.

Lemma tuple_lt_true (a b : Z * Z) : tuple_lt a b = true -> lex_le a b.
Proof.
  unfold tuple_lt, lex_le. intros H.
  apply orb_prop in H. destruct H as [H|H].
  - left. apply Z.ltb_lt. exact H.
  - apply andb_prop in H. destruct H as [H1 H2].
    apply Z.eqb_eq in H1. apply Z.ltb_lt in H2. right. lia.
Qed.

Lemma tuple_lt_false (a b : Z * Z) : tuple_lt a b = false -> lex_le b a.
Proof.
  unfold tuple_lt, lex_le. intros H.
  apply orb_false_elim in H. destruct H as [H1 H2].
  apply Z.ltb_ge in H1.
  apply andb_false_elim in H2. destruct H2 as [H2|H2].
  - apply Z.eqb_neq in H2. left. lia.
  - apply Z.ltb_ge in H2.
    destruct (Z.eq_dec (fst a) (fst b)); [right|left]; lia.
Qed.

Lemma insert_sorted_chain (r : Z * Z) (l : list (Z * Z)) :
  chain lex_le l -> chain lex_le (insert_sorted r l).
Proof.
  induction l as [|x l IH]; intros Hc.
  - simpl. auto.
  - cbn [insert_sorted]. destruct (tuple_lt x r) eqn:Hlt.
    + destruct Hc as [Hhd Htl]. specialize (IH Htl).
      split; [|exact IH].
      destruct l as [|y l].
      * simpl. apply tuple_lt_true. exact Hlt.
      * cbn [insert_sorted] in *. destruct (tuple_lt y r).
        -- exact Hhd.
        -- apply tuple_lt_true. exact Hlt.
    + split; [apply tuple_lt_false; exact Hlt|exact Hc].
Qed.

(** The builtin [sorted] returns its list in ascending order. *)
Lemma sorted_chain (l : list (Z * Z)) : chain lex_le (sorted l).
Proof.
  induction l as [|r l IH]; simpl; [exact I|].
  apply insert_sorted_chain. exact IH.
Qed.

(** A list in strictly ascending order is sorted already. *)
Lemma sorted_separated (l : list (Z * Z)) : separated l -> sorted l = l.
Proof.
  unfold separated. induction l as [|r l IH]; intros [Hwf Hc]; [reflexivity|].
  simpl. rewrite IH.
  - destruct l as [|y l]; [reflexivity|].
    simpl. destruct Hc as [Hgap _].
    assert (Hr : well_formed r) by (inversion Hwf; assumption).
    destruct (tuple_lt y r) eqn:Hlt; [|reflexivity].
    apply tuple_lt_true in Hlt. unfold lex_le, gap, well_formed in *. lia.
  - split; [inversion Hwf; assumption|exact (chain_tail _ _ _ Hc)].
Qed.

(** One step of the loop on the list [init ++ [(a, b)]]. *)
Lemma merge_step_last (init : list (Z * Z)) (a b s e : Z) :
  merge_step (init ++ [(a, b)]) (s, e)
  = if (s >=? a) && (s <=? b) && (e >=? b)
    then init ++ [(a, e)]
    else (init ++ [(a, b)]) ++ [(s, e)].
Proof. unfold merge_step. rewrite last_last, removelast_last. reflexivity. Qed.

(** The loop keeps every range well-formed. *)
Lemma fold_merge_step_well_formed (ranges : list (Z * Z)) :
  forall new_ranges,
    new_ranges <> [] ->
    Forall well_formed new_ranges -> Forall well_formed ranges ->
    Forall well_formed (fold_left merge_step ranges new_ranges).
Proof.
  induction ranges as [|[s e] ranges IH]; intros new_ranges Hne Hacc Hwf; [exact Hacc|].
  cbn [fold_left]. inversion Hwf as [|? ? Hr Hrest]; subst.
  apply IH; [apply merge_step_nonempty| |exact Hrest].
  destruct (exists_last Hne) as [init [[a b] ->]].
  rewrite merge_step_last.
  destruct ((s >=? a) && (s <=? b) && (e >=? b)) eqn:Hc.
  - apply Forall_app in Hacc. destruct Hacc as [Hinit _].
    apply andb_prop in Hc. destruct Hc as [Hc H3].
    apply andb_prop in Hc. destruct Hc as [H1 H2].
    apply Z.geb_le in H1. apply Z.leb_le in H2. apply Z.geb_le in H3.
    apply Forall_app. split; [exact Hinit|].
    constructor; [unfold well_formed; simpl; lia|constructor].
  - apply Forall_app. split; [exact Hacc|].
    constructor; [exact Hr|constructor].
Qed.


(** The loop on a sorted list without nesting: [cur] is the range read last,
    and the last range of [new_ranges] ends where [cur] ends. *)
Lemma fold_merge_step_separated (ranges : list (Z * Z)) :
  forall cur init a b,
    separated (init ++ [(a, b)]) ->
    a <= fst cur -> b = snd cur ->
    chain mono (cur :: ranges) -> Forall well_formed ranges ->
    separated (fold_left merge_step ranges (init ++ [(a, b)])).
Proof.
  induction ranges as [|[s e] ranges IH]; intros cur init a b Hsep Ha Hb Hchain Hwf;
    [exact Hsep|].
  cbn [fold_left]. rewrite merge_step_last.
  destruct Hchain as [[Hm1 Hm2] Hchain]. simpl in Hm1, Hm2.
  inversion Hwf as [|? ? Hr Hrest]; subst. unfold well_formed in Hr. simpl in Hr.
  destruct Hsep as [Hall Hgaps].
  assert (Hcond : (s >=? a) && (s <=? snd cur) && (e >=? snd cur) = (s <=? snd cur)).
  { rewrite (proj2 (Z.geb_le s a)), (proj2 (Z.geb_le e (snd cur))) by lia.
    rewrite andb_true_r. reflexivity. }
  rewrite Hcond. destruct (Z.leb_spec s (snd cur)) as [Hle|Hgt].
  - apply (IH (s, e)); simpl; try lia; try assumption.
    split.
    + apply Forall_app in Hall. destruct Hall as [Hinit _].
      apply Forall_app. split; [exact Hinit|].
      constructor; [unfold well_formed; simpl; lia|constructor].
    + apply (chain_replace_last gap init (a, snd cur) (a, e)); [|exact Hgaps].
      intros z Hz. exact Hz.
  - apply (IH (s, e)); simpl; try lia; try assumption.
    split.
    + apply Forall_app. split; [exact Hall|].
      constructor; [unfold well_formed; simpl; lia|constructor].
    + apply chain_snoc; [exact Hgaps|]. unfold gap. simpl. lia.
Qed.

Lemma merge_ranges_separated_result (ranges merged : list (Z * Z)) :
  Forall well_formed ranges -> no_nesting ranges ->
  merge_ranges ranges = Py.Return merged -> separated merged.
Proof.
  intros Hwf Hnest. unfold merge_ranges. cbv zeta.
  pose proof (sorted_chain ranges) as Hsorted.
  assert (Hwf' : Forall well_formed (sorted ranges)).
  { apply Forall_forall. intros x Hx. apply (proj1 (sorted_In x ranges)) in Hx.
    exact (proj1 (Forall_forall _ _) Hwf x Hx). }
  assert (Hmono : chain mono (sorted ranges)).
  { apply (chain_weaken lex_le mono); [|exact Hsorted].
    intros x y Hx Hy Hle.
    apply (proj1 (sorted_In x ranges)) in Hx. apply (proj1 (sorted_In y ranges)) in Hy.
    unfold mono. destruct Hle as [Hlt|[Heq Hle]]; [|lia].
    specialize (Hnest x y Hx Hy Hlt). lia. }
  destruct (sorted ranges) as [|[a b] rest]; [discriminate|].
  intros [= <-].
  apply (fold_merge_step_separated ((a, b) :: rest) (a, b) [] a b).
  - split; [constructor; [inversion Hwf'; assumption|constructor]|simpl; auto].
  - simpl. lia.
  - reflexivity.
  - split; [unfold mono; lia|exact Hmono].
  - exact Hwf'.
Qed.

(** The loop appends what starts after the end of its last range. *)
Lemma fold_merge_step_appends (ranges : list (Z * Z)) :
  forall init x,
    chain gap (x :: ranges) ->
    fold_left merge_step ranges (init ++ [x]) = init ++ x :: ranges.
Proof.
  induction ranges as [|[s e] ranges IH]; intros init [a b] Hchain; [reflexivity|].
  cbn [fold_left]. rewrite merge_step_last.
  destruct Hchain as [Hgap Hchain]. unfold gap in Hgap. simpl in Hgap.
  rewrite (proj2 (Z.leb_gt s b)) by lia.
  rewrite andb_false_r. cbn [andb].
  rewrite (IH (init ++ [(a, b)]) (s, e) Hchain).
  rewrite <- app_assoc. reflexivity.
Qed.

Lemma merge_ranges_separated_fixed (ranges : list (Z * Z)) :
  separated ranges -> ranges <> [] -> merge_ranges ranges = Py.Return ranges.
Proof.
  intros Hsep Hne. unfold merge_ranges. cbv zeta.
  rewrite (sorted_separated ranges Hsep).
  destruct ranges as [|[a b] rest]; [contradiction Hne; reflexivity|].
  destruct Hsep as [Hwf Hchain].
  assert (Hab : a <= b) by (inversion Hwf; assumption).
  cbn [fold_left].
  change [(a, b)] with ([] ++ [(a, b)]) at 1. rewrite merge_step_last.
  rewrite (proj2 (Z.geb_le a a)), (proj2 (Z.leb_le a b)), (proj2 (Z.geb_le b b)) by lia.
  cbn [andb].
  rewrite (fold_merge_step_appends rest [] (a, b) Hchain). reflexivity.
Qed.

(** X2: on a list that is not empty the merger returns a list that covers
    exactly the points its input covers: whatever it merges and whatever it
    keeps apart, no point is lost and none is added. *)
Theorem merge_ranges_same_points (ranges : list (Z * Z)) :
  ranges <> [] ->
  exists merged,
    merge_ranges ranges = Py.Return merged
    /\ forall p, covers merged p <-> covers ranges p.
Proof.
  intros Hne. destruct ranges as [|r ranges]; [contradiction Hne; reflexivity|].
  destruct (merge_ranges_returns r ranges) as (merged & Hm & _).
  exists merged. split; [exact Hm|].
  intros p. exact (merge_ranges_covers (r :: ranges) merged p Hm).
Qed.

(** X2 at the ranges (5,10) and (10,15), which touch. *)
Lemma merge_ranges_same_points_touching :
  exists merged,
    merge_ranges [(5, 10); (10, 15)] = Py.Return merged
    /\ forall p, covers merged p <-> covers [(5, 10); (10, 15)] p.
Proof. apply (merge_ranges_same_points [(5, 10); (10, 15)]). discriminate. Defined.

(** X3: the merger keeps ranges well-formed: when every range of its input
    has its start at or before its end, so has every range it returns. *)
Theorem merge_ranges_well_formed (ranges merged : list (Z * Z)) :
  Forall well_formed ranges ->
  merge_ranges ranges = Py.Return merged ->
  Forall well_formed merged.
Proof.
  intros Hwf. unfold merge_ranges. cbv zeta.
  assert (Hwf' : Forall well_formed (sorted ranges)).
  { apply Forall_forall. intros x Hx. apply (proj1 (sorted_In x ranges)) in Hx.
    exact (proj1 (Forall_forall _ _) Hwf x Hx). }
  destruct (sorted ranges) as [|r0 rest]; [discriminate|].
  intros [= <-].
  apply (fold_merge_step_well_formed (r0 :: rest) [r0]); [discriminate| |exact Hwf'].
  constructor; [inversion Hwf'; assumption|constructor].
Qed.

(** X3 at three ranges of which the second lies inside the first. *)
Lemma merge_ranges_well_formed_nested :
  Forall well_formed [(1, 10); (2, 12)].
Proof.
  apply (merge_ranges_well_formed [(1, 10); (2, 5); (3, 12)]).
  - repeat constructor; unfold well_formed; simpl; lia.
  - reflexivity.
Defined.

(** X4: on well-formed ranges none of which is nested in another, the merger
    returns well-formed ranges in ascending order, each ending strictly
    before the next one starts: ranges that overlap or touch are merged. *)
Theorem merge_ranges_separated (ranges merged : list (Z * Z)) :
  Forall well_formed ranges ->
  no_nesting ranges ->
  merge_ranges ranges = Py.Return merged ->
  separated merged.
Proof. exact (merge_ranges_separated_result ranges merged). Qed.

(** Three ranges out of order, two of which touch. *)
Lemma no_nesting_example : no_nesting [(20, 25); (5, 10); (10, 15)].
Proof.
  intros x y Hx Hy. simpl in Hx, Hy.
  repeat match goal with H : _ \/ _ |- _ => destruct H as [<-|H] end;
    try contradiction; simpl; lia.
Qed.

(** X4 at these ranges. *)
Lemma merge_ranges_separated_example : separated [(5, 15); (20, 25)].
Proof.
  apply (merge_ranges_separated [(20, 25); (5, 10); (10, 15)]).
  - repeat constructor; unfold well_formed; simpl; lia.
  - exact no_nesting_example.
  - reflexivity.
Defined.

(** X5: a list of separated ranges that is not empty is returned as it is;
    in particular a single well-formed range is. *)
Theorem merge_ranges_keeps_separated (ranges : list (Z * Z)) :
  separated ranges -> ranges <> [] -> merge_ranges ranges = Py.Return ranges.
Proof. exact (merge_ranges_separated_fixed ranges). Qed.

(** X5 at two ranges with a gap between them. *)
Lemma merge_ranges_keeps_separated_example :
  merge_ranges [(5, 15); (20, 25)] = Py.Return [(5, 15); (20, 25)].
Proof.
  apply merge_ranges_keeps_separated.
  - split; [repeat constructor; unfold well_formed; simpl; lia|simpl; unfold gap; simpl; lia].
  - discriminate.
Defined.

(** X6: on well-formed ranges none of which is nested in another the merger
    is idempotent: merging its result again changes nothing. *)
Theorem merge_ranges_idempotent_without_nesting (ranges merged : list (Z * Z)) :
  Forall well_formed ranges ->
  no_nesting ranges ->
  merge_ranges ranges = Py.Return merged ->
  merge_ranges merged = Py.Return merged.
Proof.
  intros Hwf Hnest Hm.
  apply merge_ranges_separated_fixed.
  - exact (merge_ranges_separated_result ranges merged Hwf Hnest Hm).
  - destruct ranges as [|r ranges]; [discriminate Hm|].
    destruct (merge_ranges_returns r ranges) as [merged' [Hm' Hne]].
    rewrite Hm in Hm'. injection Hm' as <-. exact Hne.
Qed.

(** X6 at the three ranges above. *)
Lemma merge_ranges_idempotent_example :
  merge_ranges [(5, 15); (20, 25)] = Py.Return [(5, 15); (20, 25)].
Proof.
  apply (merge_ranges_idempotent_without_nesting [(20, 25); (5, 10); (10, 15)]).
  - repeat constructor; unfold well_formed; simpl; lia.
  - exact no_nesting_example.
  - reflexivity.
Defined.

End MergedRanges.

(** ** The sources of the main loop *)

Section Sources.

Import GLib.

Lemma lookup_In (l : list (Z * source)) (id : Z) (src : source) :
  lookup l id = Some src -> In (id, src) l.
Proof.
  induction l as [|[i s] l IH]; simpl; [discriminate|].
  destruct (i =? id) eqn:Heq.
  - apply Z.eqb_eq in Heq. intros [= ->]. left. subst. reflexivity.
  - intros H. right. apply IH. exact H.
Qed.

(** Removing sources leaves the ids of the others distinct. *)
Lemma source_ids_after_removal (kept : Z * source -> bool) (registered : list (Z * source)) :
  NoDup (map fst registered) -> NoDup (map fst (filter kept registered)).
Proof.
  induction registered as [|[i src] registered IH]; simpl; intros Hnd; [constructor|].
  apply NoDup_cons_iff in Hnd. destruct Hnd as [Hnotin Hrest].
  destruct (kept (i, src)); simpl; [|exact (IH Hrest)].
  apply NoDup_cons; [|exact (IH Hrest)].
  intros Hin. apply Hnotin. apply in_map_iff in Hin.
  destruct Hin as [y [Hy Hin]]. apply filter_In in Hin.
  apply in_map_iff. exists y. tauto.
Qed.

Lemma attach_fresh (loop : MainLoop) (src : source) :
  sources_fresh loop -> sources_fresh (fst (attach loop src)).
Proof.
  intros (Hpos & Hids & Hnd). unfold sources_fresh. simpl.
  split; [lia|]. split.
  - intros id s Hin. apply in_app_or in Hin. destruct Hin as [Hin|[[= <- <-]|[]]].
    + specialize (Hids id s Hin). lia.
    + lia.
  - rewrite map_app. simpl. apply NoDup_app; [exact Hnd|repeat constructor; auto|].
    intros x Hin [<-|[]]. apply in_map_iff in Hin.
    destruct Hin as [[i s] [Heq Hin]]. simpl in Heq. subst i.
    specialize (Hids _ _ Hin). lia.
Qed.

Lemma source_remove_fresh (loop : MainLoop) (id : Z) :
  sources_fresh loop -> sources_fresh (source_remove loop id).
Proof.
  intros (Hpos & Hids & Hnd). unfold sources_fresh. simpl.
  split; [exact Hpos|]. split.
  - intros i s Hin. apply filter_In in Hin. apply Hids with s. tauto.
  - apply source_ids_after_removal. exact Hnd.
Qed.

Lemma source_remove_timers (loop : MainLoop) (id t : Z) :
  timers_are loop t -> timers_are (source_remove loop id) t.
Proof.
  intros Ht i d Hin. simpl in Hin. apply filter_In in Hin. apply (Ht i d). tauto.
Qed.

Lemma source_remove_watches (loop : MainLoop) (id w : Z) :
  watches_are loop w -> watches_are (source_remove loop id) w.
Proof.
  intros Hw i p d Hin. simpl in Hin. apply filter_In in Hin. apply (Hw i p d). tauto.
Qed.

(** Removing the one timer leaves none, so any id will do. *)
Lemma source_remove_the_timer (loop : MainLoop) (t t' : Z) :
  timers_are loop t -> timers_are (source_remove loop t) t'.
Proof.
  intros Ht i d Hin. simpl in Hin. apply filter_In in Hin.
  destruct Hin as [Hin Hneq]. simpl in Hneq.
  specialize (Ht i d Hin). subst i. rewrite Z.eqb_refl in Hneq. discriminate.
Qed.

Lemma source_remove_the_watch (loop : MainLoop) (w w' : Z) :
  watches_are loop w -> watches_are (source_remove loop w) w'.
Proof.
  intros Hw i p d Hin. simpl in Hin. apply filter_In in Hin.
  destruct Hin as [Hin Hneq]. simpl in Hneq.
  specialize (Hw i p d Hin). subst i. rewrite Z.eqb_refl in Hneq. discriminate.
Qed.

(** No source has the id 0. *)
Lemma timers_are_0 (loop : MainLoop) (t : Z) :
  sources_fresh loop -> timers_are loop 0 -> timers_are loop t.
Proof.
  intros (_ & Hids & _) Ht i d Hin.
  specialize (Ht i d Hin). specialize (Hids _ _ Hin). lia.
Qed.

Lemma watches_are_0 (loop : MainLoop) (w : Z) :
  sources_fresh loop -> watches_are loop 0 -> watches_are loop w.
Proof.
  intros (_ & Hids & _) Hw i p d Hin.
  specialize (Hw i p d Hin). specialize (Hids _ _ Hin). lia.
Qed.

Lemma attach_watch_timers (loop : MainLoop) (proc : nat) (t : Z) :
  timers_are loop t -> timers_are (fst (io_add_watch loop proc)) t.
Proof.
  intros Ht i d Hin. simpl in Hin. apply in_app_or in Hin.
  destruct Hin as [Hin|[Heq|[]]]; [exact (Ht i d Hin)|discriminate Heq].
Qed.

Lemma attach_watch_watches (loop : MainLoop) (proc : nat) :
  watches_are loop 0 -> sources_fresh loop ->
  watches_are (fst (io_add_watch loop proc)) (snd (io_add_watch loop proc)).
Proof.
  intros Hw Hfresh i p d Hin. simpl in Hin. apply in_app_or in Hin.
  destruct Hin as [Hin|[[= <- _ _]|[]]]; [|reflexivity].
  apply (watches_are_0 loop _ Hfresh Hw i p d Hin).
Qed.

Lemma attach_timer_timers (loop : MainLoop) (interval : Z) :
  timers_are loop 0 -> sources_fresh loop ->
  timers_are (fst (timeout_add loop interval)) (snd (timeout_add loop interval)).
Proof.
  intros Ht Hfresh i d Hin. simpl in Hin. apply in_app_or in Hin.
  destruct Hin as [Hin|[[= <- _]|[]]]; [|reflexivity].
  apply (timers_are_0 loop _ Hfresh Ht i d Hin).
Qed.

Lemma attach_timer_watches (loop : MainLoop) (interval w : Z) :
  watches_are loop w -> watches_are (fst (timeout_add loop interval)) w.
Proof.
  intros Hw i p d Hin. simpl in Hin. apply in_app_or in Hin.
  destruct Hin as [Hin|[Heq|[]]]; [exact (Hw i p d Hin)|discriminate Heq].
Qed.

Lemma set_data_ids (loop : MainLoop) (id : Z) (data : string) :
  map fst (sources (set_data loop id data)) = map fst (sources loop).
Proof.
  simpl. rewrite map_map. apply map_ext.
  intros [i [d|p d]]; simpl; [reflexivity|].
  destruct (i =? id); reflexivity.
Qed.

Lemma set_data_In (loop : MainLoop) (id : Z) (data : string) (i : Z) (src : source) :
  In (i, src) (sources (set_data loop id data)) ->
  exists src', In (i, src') (sources loop)
               /\ match src, src' with
                  | TimeoutSource d, TimeoutSource d' => d = d'
                  | IoWatch p _, IoWatch p' _ => p = p'
                  | _, _ => False
                  end.
Proof.
  simpl. intros Hin. apply in_map_iff in Hin.
  destruct Hin as [[j [d|p d]] [Heq Hin]].
  - injection Heq as <- <-. exists (TimeoutSource d). auto.
  - destruct (j =? id); injection Heq as <- <-; exists (IoWatch p d); auto.
Qed.

Lemma set_data_fresh (loop : MainLoop) (id : Z) (data : string) :
  sources_fresh loop -> sources_fresh (set_data loop id data).
Proof.
  intros (Hpos & Hids & Hnd). unfold sources_fresh.
  rewrite set_data_ids. split; [exact Hpos|]. split; [|exact Hnd].
  intros i s Hin. apply set_data_In in Hin. destruct Hin as [s' [Hin _]].
  exact (Hids _ _ Hin).
Qed.

Lemma set_data_timers (loop : MainLoop) (id : Z) (data : string) (t : Z) :
  timers_are loop t -> timers_are (set_data loop id data) t.
Proof.
  intros Ht i d Hin. apply set_data_In in Hin.
  destruct Hin as [[d'|p' d'] [Hin Hk]]; [|contradiction]. exact (Ht _ _ Hin).
Qed.

Lemma set_data_watches (loop : MainLoop) (id : Z) (data : string) (w : Z) :
  watches_are loop w -> watches_are (set_data loop id data) w.
Proof.
  intros Hw i p d Hin. apply set_data_In in Hin.
  destruct Hin as [[d'|p' d'] [Hin Hk]]; [contradiction|]. exact (Hw _ _ _ Hin).
Qed.

End Sources.

(** ** At most one timer and one watch *)

Section OneTimerOneWatch.

Import ShellCheckViewActivatable.

Variable json_loads : string -> Py.result PyVal.t.

Lemma remove_parse_signal_sources (self : t) (tm : Z) :
  sources_fresh (loop self) ->
  timers_are (loop self) tm ->
  watches_are (loop self) (parse_signal self) ->
  sources_fresh (loop (remove_parse_signal self))
  /\ timers_are (loop (remove_parse_signal self)) tm
  /\ watches_are (loop (remove_parse_signal self)) 0.
Proof.
  intros Hfresh Ht Hw. unfold remove_parse_signal.
  destruct (parse_signal self =? 0) eqn:Hz; simpl.
  - apply Z.eqb_eq in Hz. rewrite Hz in Hw. auto.
  - split; [apply source_remove_fresh; exact Hfresh|].
    split; [apply source_remove_timers; exact Ht|].
    apply source_remove_the_watch. exact Hw.
Qed.

Lemma on_update_timeout_sources (self : t) (tm : Z) :
  sources_fresh (loop self) ->
  timers_are (loop self) tm ->
  watches_are (loop self) (parse_signal self) ->
  sources_fresh (loop (on_update_timeout self))
  /\ timers_are (loop (on_update_timeout self)) tm
  /\ watches_are (loop (on_update_timeout self)) (parse_signal (on_update_timeout self))
  /\ update_timeout (on_update_timeout self) = 0.
Proof.
  intros Hfresh Ht Hw. unfold on_update_timeout. cbv zeta.
  set (s1 := set_update_timeout 0 self).
  destruct (remove_parse_signal_sources s1 tm Hfresh Ht Hw) as (Hf2 & Ht2 & Hw2).
  destruct (remove_parse_signal_frame s1) as (_ & Hu2 & _ & _ & _ & _ & Hp2).
  set (s2 := remove_parse_signal s1) in *.
  set (s3 := match buffer s2 with
             | Some _ => s2
             | None => set_context_data (PyVal.PDict []) s2
             end).
  assert (H3 : loop s3 = loop s2 /\ parse_signal s3 = 0 /\ update_timeout s3 = 0).
  { subst s3. destruct (buffer s2); simpl; rewrite Hp2, Hu2; repeat split. }
  destruct H3 as (Hl3 & Hp3 & Hu3). clearbody s3. rewrite <- Hl3 in Hf2, Ht2, Hw2.
  destruct (project_folder s3) as [folder|].
  - destruct (buffer s3) as [b|].
    + destruct (shellcheck_on_path s3).
      * set (proc := List.length (effects s3)).
        split; [exact (attach_fresh (loop s3) (GLib.IoWatch proc EmptyString) Hf2)|].
        split; [exact (attach_watch_timers (loop s3) proc tm Ht2)|].
        split; [exact (attach_watch_watches (loop s3) proc Hw2 Hf2)|].
        simpl. exact Hu3.
      * simpl. rewrite Hp3, Hu3. auto.
    + rewrite Hp3, Hu3. auto.
  - rewrite Hp3, Hu3. auto.
Qed.


Lemma update_scheduled (self : t) : scheduled self -> scheduled (update self).
Proof.
  intros (Hfresh & Ht & Hw). unfold update.
  destruct (connected self); simpl negb; cbv iota;
    [|exact (conj Hfresh (conj Ht Hw))].
  destruct (update_timeout self =? 0) eqn:Hz; simpl negb; cbv iota;
    [|exact (conj Hfresh (conj Ht Hw))].
  apply Z.eqb_eq in Hz. rewrite Hz in Ht.
  destruct (remove_parse_signal_sources self 0 Hfresh Ht Hw) as (Hf2 & Ht2 & Hw2).
  destruct (remove_parse_signal_frame self) as (_ & Hu2 & _ & _ & _ & _ & Hp2).
  set (s2 := remove_parse_signal self) in *.
  assert (Hw2' : watches_are (loop s2) (parse_signal s2)) by (rewrite Hp2; exact Hw2).
  destruct (negb (PyVal.truthy (context_data s2))).
  - destruct (on_update_timeout_sources s2 0 Hf2 Ht2 Hw2') as (H1 & H2 & H3 & H4).
    unfold scheduled. rewrite H4. auto.
  - destruct (buffer s2) as [b|].
    + set (d := delay (Buffer.line_count b)).
      split; [exact (attach_fresh (loop s2) (GLib.TimeoutSource d) Hf2)|].
      split; [exact (attach_timer_timers (loop s2) d Ht2 Hf2)|].
      simpl. rewrite Hp2. exact (attach_timer_watches (loop s2) d 0 Hw2).
    + unfold scheduled. rewrite Hu2, Hz. auto.
Qed.

Lemma disconnect_gutter_sources (self : t) :
  loop (disconnect_gutter self) = loop self
  /\ update_timeout (disconnect_gutter self) = update_timeout self
  /\ parse_signal (disconnect_gutter self) = parse_signal self.
Proof. unfold disconnect_gutter. destruct (connected self); repeat split. Qed.

Lemma connect_gutter_sources (self : t) :
  loop (connect_gutter self) = loop self
  /\ update_timeout (connect_gutter self) = update_timeout self
  /\ parse_signal (connect_gutter self) = parse_signal self.
Proof. unfold connect_gutter. destruct (connected self); repeat split. Qed.

(** [scheduled] reads the loop and the two id fields only. *)
Lemma scheduled_same_sources (self self' : t) :
  loop self' = loop self ->
  update_timeout self' = update_timeout self ->
  parse_signal self' = parse_signal self ->
  scheduled self -> scheduled self'.
Proof. unfold scheduled. intros -> -> ->. auto. Qed.

Lemma _update_location_scheduled (self : t) :
  scheduled self -> scheduled (_update_location self).
Proof.
  intros Hs. unfold _update_location.
  destruct (buffer self) as [b|]; [|exact Hs].
  cbv zeta. set (s1 := set_location (Buffer.location b) self).
  assert (Hs1 : scheduled s1) by exact Hs.
  clearbody s1.
  destruct (disconnect_gutter_sources s1) as (Hd1 & Hd2 & Hd3).
  destruct (negb (should_check s1));
    [exact (scheduled_same_sources s1 _ Hd1 Hd2 Hd3 Hs1)|].
  destruct (find_project_folder s1) as [folder|e];
    [|exact (scheduled_same_sources s1 _ Hd1 Hd2 Hd3 Hs1)].
  apply update_scheduled.
  set (s2 := set_project_folder (Some folder) s1).
  destruct (connect_gutter_sources s2) as (Hc1 & Hc2 & Hc3).
  exact (scheduled_same_sources s1 _ Hc1 Hc2 Hc3 Hs1).
Qed.

Lemma on_notify_buffer_scheduled (self : t) (view_buffer : Buffer.t) :
  scheduled self -> scheduled (on_notify_buffer self view_buffer).
Proof.
  intros (Hfresh & Ht & Hw). unfold on_notify_buffer. cbv zeta.
  set (s1 := if negb (update_timeout self =? 0)
             then source_remove (update_timeout self) self else self).
  assert (Hs1 : sources_fresh (loop s1)
                /\ timers_are (loop s1) (update_timeout s1)
                /\ watches_are (loop s1) (parse_signal s1)).
  { subst s1. destruct (negb (update_timeout self =? 0)); [|auto].
    split; [exact (source_remove_fresh _ _ Hfresh)|].
    split; [exact (source_remove_timers _ _ _ Ht)|exact (source_remove_watches _ _ _ Hw)]. }
  clearbody s1. destruct Hs1 as (Hf1 & Ht1 & Hw1).
  destruct (remove_parse_signal_sources s1 _ Hf1 Ht1 Hw1) as (Hf2 & Ht2 & Hw2).
  destruct (remove_parse_signal_frame s1) as (_ & Hu2 & _ & _ & _ & _ & Hp2).
  set (s2 := remove_parse_signal s1) in *.
  apply _update_location_scheduled.
  assert (Hs2 : scheduled s2).
  { unfold scheduled. rewrite Hu2, Hp2. auto. }
  clearbody s2.
  destruct (buffer s2); exact Hs2.
Qed.

Lemma parse_shellcheck_sources (self : t) (output : string) :
  loop (snd (parse_shellcheck json_loads self output)) = loop self
  /\ update_timeout (snd (parse_shellcheck json_loads self output)) = update_timeout self
  /\ parse_signal (snd (parse_shellcheck json_loads self output)) = parse_signal self.
Proof.
  unfold parse_shellcheck.
  destruct (json_loads output) as [data|[]]; try (repeat split; fail).
  destruct (comments <- PyVal.getitem data "comments";; annotate_comments comments);
    repeat split.
Qed.

Lemma step_scheduled (self : t) (e : event) :
  scheduled self -> scheduled (step json_loads self e).
Proof.
  intros Hs. destruct e as [view_buffer| |sig now|id|id ev]; cbn [step].
  - apply on_notify_buffer_scheduled. exact Hs.
  - apply update_scheduled. exact Hs.
  - cbv zeta. set (s1 := set_buffer (Some now) self).
    assert (Hs1 : scheduled s1) by exact Hs. clearbody s1.
    destruct (existsb (Signal_eqb sig) (buffer_signals s1)); [|exact Hs1].
    destruct sig; solve [apply _update_location_scheduled; exact Hs1
                        | apply update_scheduled; exact Hs1].
  - destruct (GLib.find (loop self) id) as [[interval|proc data]|] eqn:Hfind;
      try exact Hs.
    apply lookup_In in Hfind. destruct Hs as (Hfresh & Ht & Hw).
    pose proof (Ht _ _ Hfind) as Hid.
    destruct (on_update_timeout_sources self _ Hfresh Ht Hw) as (H1 & H2 & H3 & H4).
    set (s' := on_update_timeout self) in *.
    split; [exact (source_remove_fresh _ _ H1)|].
    split; [|exact (source_remove_watches _ _ _ H3)].
    change (update_timeout (source_remove id s')) with (update_timeout s').
    rewrite H4, Hid. exact (source_remove_the_timer _ _ _ H2).
  - destruct (GLib.find (loop self) id) as [[interval|proc data]|] eqn:Hfind;
      try exact Hs.
    apply lookup_In in Hfind. destruct Hs as (Hfresh & Ht & Hw).
    pose proof (Hw _ _ _ Hfind) as Hid. subst id.
    unfold on_read. cbv zeta.
    set (d1 := (data ++ chunk ev)%string).
    set (s1 := set_loop (GLib.set_data (loop self) (parse_signal self) d1) self).
    assert (Hs1 : sources_fresh (loop s1) /\ timers_are (loop s1) (update_timeout self)
                  /\ watches_are (loop s1) (parse_signal self)).
    { split; [exact (set_data_fresh _ _ _ Hfresh)|].
      split; [exact (set_data_timers _ _ _ _ Ht)|exact (set_data_watches _ _ _ _ Hw)]. }
    destruct (negb (hup ev)); [exact Hs1|].
    destruct (negb (exited ev)); [exact Hs1|].
    destruct Hs1 as (Hf1 & Ht1 & Hw1).
    set (d2 := (d1 ++ rest ev)%string).
    set (s2 := set_loop (GLib.set_data (loop s1) (parse_signal self) d2) s1).
    assert (Hs2 : sources_fresh (loop s2) /\ timers_are (loop s2) (update_timeout self)
                  /\ watches_are (loop s2) (parse_signal self)).
    { split; [exact (set_data_fresh _ _ _ Hf1)|].
      split; [exact (set_data_timers _ _ _ _ Ht1)|exact (set_data_watches _ _ _ _ Hw1)]. }
    destruct Hs2 as (Hf2 & Ht2 & Hw2).
    destruct (parse_shellcheck_sources s2 d2) as (Hl & Hu & Hp).
    destruct (parse_shellcheck json_loads s2 d2) as [[u|e] s3]; simpl in Hl, Hu, Hp.
    + split; [simpl; rewrite Hl; exact (source_remove_fresh _ _ Hf2)|].
      split; [simpl; rewrite Hl, Hu; exact (source_remove_timers _ _ _ Ht2)|].
      simpl. rewrite Hl. exact (source_remove_the_watch _ _ _ Hw2).
    + split; [simpl; rewrite Hl; exact (source_remove_fresh _ _ Hf2)|].
      split; [simpl; rewrite Hl, Hu; exact (source_remove_timers _ _ _ Ht2)|].
      simpl. rewrite Hl, Hp. exact (source_remove_watches _ _ _ Hw2).
Qed.

Lemma run_scheduled (events : list event) :
  forall self, scheduled self -> scheduled (run json_loads self events).
Proof.
  unfold run. induction events as [|e events IH]; intros self Hs; [exact Hs|].
  simpl. apply IH. apply step_scheduled. exact Hs.
Qed.

Lemma init_scheduled (on_path : bool) : scheduled (init on_path).
Proof.
  split; [|split].
  - split; [reflexivity|]. split; [intros id src []|constructor].
  - intros id d [].
  - intros id p d [].
Qed.

Lemma NoDup_map_fst_eq {A B : Type} (l : list (A * B)) (i : A) (x y : B) :
  NoDup (map fst l) -> In (i, x) l -> In (i, y) l -> x = y.
Proof.
  induction l as [|[j z] l IH]; simpl; intros Hnd Hx Hy; [contradiction|].
  inversion Hnd as [|? ? Hnotin Hrest]; subst.
  destruct Hx as [Hx|Hx], Hy as [Hy|Hy].
  - congruence.
  - injection Hx as -> ->. exfalso. apply Hnotin.
    apply in_map_iff. exists (i, y). auto.
  - injection Hy as -> ->. exfalso. apply Hnotin.
    apply in_map_iff. exists (i, x). auto.
  - exact (IH Hrest Hx Hy).
Qed.

(** X7: whatever happens after the plugin is activated, the main loop holds
    at most one timer of the plugin and at most one watch: a timer that is
    registered is the one [update_timeout] names, a watch the one
    [parse_signal] names, and no id occurs twice.  This holds for any
    decoder, and for any sequence of buffer changes, signals, timer firings
    and output notifications. *)
Theorem one_timer_one_watch (on_path : bool) (view_buffer : Buffer.t)
        (events : list event) :
  let self := run json_loads (do_activate on_path view_buffer) events in
  (forall id interval,
      In (id, GLib.TimeoutSource interval) (GLib.sources (loop self)) ->
      id = update_timeout self /\ id <> 0)
  /\ (forall id proc data,
        In (id, GLib.IoWatch proc data) (GLib.sources (loop self)) ->
        id = parse_signal self /\ id <> 0)
  /\ (forall id id' interval interval',
        In (id, GLib.TimeoutSource interval) (GLib.sources (loop self)) ->
        In (id', GLib.TimeoutSource interval') (GLib.sources (loop self)) ->
        id = id' /\ interval = interval')
  /\ (forall id id' proc proc' data data',
        In (id, GLib.IoWatch proc data) (GLib.sources (loop self)) ->
        In (id', GLib.IoWatch proc' data') (GLib.sources (loop self)) ->
        id = id' /\ proc = proc' /\ data = data')
  /\ (List.length (GLib.sources (loop self)) <= 2)%nat.
Proof.
  intros self.
  assert (Hs : scheduled self).
  { apply run_scheduled. apply on_notify_buffer_scheduled. apply init_scheduled. }
  clearbody self. destruct Hs as ((Hpos & Hids & Hnd) & Ht & Hw).
  split; [|split; [|split; [|split]]].
  - intros id d Hin. split; [exact (Ht _ _ Hin)|].
    specialize (Hids _ _ Hin). lia.
  - intros id p d Hin. split; [exact (Hw _ _ _ Hin)|].
    specialize (Hids _ _ Hin). lia.
  - intros id id' d d' Hin Hin'.
    assert (id = id') by (rewrite (Ht _ _ Hin), (Ht _ _ Hin'); reflexivity).
    subst id'. split; [reflexivity|].
    pose proof (NoDup_map_fst_eq _ _ _ _ Hnd Hin Hin') as Heq. congruence.
  - intros id id' p p' d d' Hin Hin'.
    assert (id = id') by (rewrite (Hw _ _ _ Hin), (Hw _ _ _ Hin'); reflexivity).
    subst id'. split; [reflexivity|].
    pose proof (NoDup_map_fst_eq _ _ _ _ Hnd Hin Hin') as Heq.
    injection Heq as -> ->. auto.
  - rewrite <- (length_map fst).
    change 2%nat with (List.length [update_timeout self; parse_signal self]).
    apply NoDup_incl_length; [exact Hnd|].
    intros id Hin. apply in_map_iff in Hin. destruct Hin as [[i [d|p d]] [<- Hin]].
    + left. symmetry. exact (Ht _ _ Hin).
    + right. left. symmetry. exact (Hw _ _ _ Hin).
Qed.

End OneTimerOneWatch.

(** ** When the tool is not installed *)

Section ToolMissing.

Import ShellCheckViewActivatable.

Variable json_loads : string -> Py.result PyVal.t.

Lemma not_in_snoc (l : list effect) (e : effect) :
  (forall cwd stdin, ~ In (Popen cwd stdin) l) ->
  (forall cwd stdin, e <> Popen cwd stdin) ->
  forall cwd stdin, ~ In (Popen cwd stdin) (l ++ [e]).
Proof.
  intros Hl He cwd stdin Hin. apply in_app_or in Hin.
  destruct Hin as [Hin|[Heq|[]]]; [exact (Hl _ _ Hin)|exact (He _ _ Heq)].
Qed.

Lemma on_update_timeout_idle (self : t) :
  idle_without_tool self -> idle_without_tool (on_update_timeout self).
Proof.
  intros (Hpath & Hsrc & Hu & Hp & Hctx & Heff).
  unfold on_update_timeout, remove_parse_signal. cbv zeta.
  change (parse_signal (set_update_timeout 0 self)) with (parse_signal self).
  rewrite Hp. cbn [Z.eqb negb].
  change (buffer (set_update_timeout 0 self)) with (buffer self).
  destruct (buffer self) as [b|] eqn:Hb; cbn [project_folder set_update_timeout
    set_context_data buffer shellcheck_on_path];
    destruct (project_folder self) as [folder|];
    rewrite ?Hb, ?Hpath;
    unfold idle_without_tool; simpl;
    repeat split; auto using not_in_snoc;
    try (apply not_in_snoc; [exact Heff|intros; discriminate]).
Qed.

Lemma update_idle (self : t) : idle_without_tool self -> idle_without_tool (update self).
Proof.
  intros Hidle. pose proof Hidle as (Hpath & Hsrc & Hu & Hp & Hctx & Heff).
  unfold update, remove_parse_signal.
  destruct (connected self); cbn [negb]; [|exact Hidle].
  rewrite Hu, Hp. cbn [Z.eqb negb]. rewrite Hctx. cbn [PyVal.truthy negb].
  apply on_update_timeout_idle. exact Hidle.
Qed.

Lemma disconnect_gutter_idle (self : t) :
  idle_without_tool self -> idle_without_tool (disconnect_gutter self).
Proof.
  intros Hidle. pose proof Hidle as (Hpath & Hsrc & Hu & Hp & Hctx & Heff).
  unfold disconnect_gutter. destruct (connected self); cbn [negb]; [|exact Hidle].
  unfold idle_without_tool. simpl. repeat split; auto.
  apply not_in_snoc; [exact Heff|intros; discriminate].
Qed.

Lemma connect_gutter_idle (self : t) :
  idle_without_tool self -> idle_without_tool (connect_gutter self).
Proof.
  intros Hidle. pose proof Hidle as (Hpath & Hsrc & Hu & Hp & Hctx & Heff).
  unfold connect_gutter. destruct (connected self); [exact Hidle|].
  unfold idle_without_tool. simpl. repeat split; auto.
  apply not_in_snoc; [exact Heff|intros; discriminate].
Qed.

Lemma _update_location_idle (self : t) :
  idle_without_tool self -> idle_without_tool (_update_location self).
Proof.
  intros Hidle. unfold _update_location.
  destruct (buffer self) as [b|]; [|exact Hidle].
  cbv zeta. set (s1 := set_location (Buffer.location b) self).
  assert (Hs1 : idle_without_tool s1) by exact Hidle. clearbody s1.
  destruct (negb (should_check s1)); [apply disconnect_gutter_idle; exact Hs1|].
  destruct (find_project_folder s1) as [folder|e];
    [|apply disconnect_gutter_idle; exact Hs1].
  apply update_idle. apply connect_gutter_idle. exact Hs1.
Qed.

Lemma on_notify_buffer_idle (self : t) (view_buffer : Buffer.t) :
  idle_without_tool self -> idle_without_tool (on_notify_buffer self view_buffer).
Proof.
  intros Hidle. pose proof Hidle as (Hpath & Hsrc & Hu & Hp & Hctx & Heff).
  unfold on_notify_buffer, remove_parse_signal. cbv zeta.
  rewrite Hu. cbn [Z.eqb negb]. rewrite Hp. cbn [Z.eqb negb].
  apply _update_location_idle.
  destruct (buffer self); exact Hidle.
Qed.

Lemma step_idle (self : t) (e : event) :
  idle_without_tool self -> idle_without_tool (step json_loads self e).
Proof.
  intros Hidle. pose proof Hidle as (Hpath & Hsrc & Hu & Hp & Hctx & Heff).
  destruct e as [view_buffer| |sig now|id|id ev]; cbn [step].
  - apply on_notify_buffer_idle. exact Hidle.
  - apply update_idle. exact Hidle.
  - cbv zeta. set (s1 := set_buffer (Some now) self).
    assert (Hs1 : idle_without_tool s1) by exact Hidle. clearbody s1.
    destruct (existsb (Signal_eqb sig) (buffer_signals s1)); [|exact Hs1].
    destruct sig; solve [apply _update_location_idle; exact Hs1
                        | apply update_idle; exact Hs1].
  - unfold GLib.find. rewrite Hsrc. exact Hidle.
  - unfold GLib.find. rewrite Hsrc. exact Hidle.
Qed.

(** X8: when [shellcheck] is not on the search path the plugin never gets
    past the attempt.  Whatever events follow the activation, no process is
    started, no timer and no watch is registered, and the snapshot stays the
    empty one. *)
Theorem nothing_is_started_without_tool (view_buffer : Buffer.t) (events : list event) :
  let self := run json_loads (do_activate false view_buffer) events in
  (forall cwd stdin, ~ In (Popen cwd stdin) (effects self))
  /\ GLib.sources (loop self) = []
  /\ context_data self = PyVal.PDict []
  /\ update_timeout self = 0
  /\ parse_signal self = 0.
Proof.
  intros self.
  assert (Hidle : idle_without_tool self).
  { subst self. unfold run.
    assert (Hstart : idle_without_tool (do_activate false view_buffer)).
    { apply on_notify_buffer_idle. unfold idle_without_tool. simpl.
      repeat split; auto. }
    revert Hstart. generalize (do_activate false view_buffer).
    induction events as [|e events IH]; intros s Hs; [exact Hs|].
    simpl. apply IH. apply step_idle. exact Hs. }
  destruct Hidle as (Hpath & Hsrc & Hu & Hp & Hctx & Heff). auto.
Qed.

End ToolMissing.

(** ** Reading the output of a check *)

Section ReadingOutput.

Import ShellCheckViewActivatable.

Variable json_loads : string -> Py.result PyVal.t.

Lemma lookup_set_data (l : list (Z * GLib.source)) (next : Z) (id : Z)
      (proc : nat) (data data' : string) :
  GLib.lookup l id = Some (GLib.IoWatch proc data) ->
  GLib.find (GLib.set_data {| GLib.next_id := next; GLib.sources := l |} id data') id
  = Some (GLib.IoWatch proc data').
Proof.
  unfold GLib.find, GLib.set_data. cbn [GLib.sources].
  induction l as [|[i src] l IH]; simpl; [discriminate|].
  destruct (i =? id) eqn:Hi.
  - intros [= ->]. rewrite Hi. reflexivity.
  - intros H. destruct src as [d|p d]; simpl; rewrite ?Hi; simpl; rewrite ?Hi;
      exact (IH H).
Qed.

Lemma find_set_data (loop : GLib.MainLoop) (id : Z) (proc : nat) (data data' : string) :
  GLib.find loop id = Some (GLib.IoWatch proc data) ->
  GLib.find (GLib.set_data loop id data') id = Some (GLib.IoWatch proc data').
Proof. destruct loop as [next l]. apply lookup_set_data. Qed.

Lemma find_source_remove (loop : GLib.MainLoop) (id : Z) :
  GLib.find (GLib.source_remove loop id) id = None.
Proof.
  unfold GLib.find, GLib.source_remove. cbn [GLib.sources].
  induction (GLib.sources loop) as [|[i src] l IH]; [reflexivity|].
  cbn [filter fst]. destruct (i =? id) eqn:Hi; cbn [negb]; [exact IH|].
  cbn [GLib.lookup]. rewrite Hi. exact IH.
Qed.

(** The snapshot after a parse depends on the state through the snapshot
    before it only. *)
Lemma parse_shellcheck_context (self self' : t) (output : string) :
  context_data self = context_data self' ->
  context_data (snd (parse_shellcheck json_loads self output))
  = context_data (snd (parse_shellcheck json_loads self' output)).
Proof.
  intros Hctx. unfold parse_shellcheck.
  destruct (json_loads output) as [data|[]]; try exact Hctx.
  destruct (comments <- PyVal.getitem data "comments";; annotate_comments comments);
    [reflexivity|exact Hctx].
Qed.

(** A notification before the stream is closed, or before the process has
    exited, only adds what was read to the data of the watch. *)
Lemma step_partial_read (self : t) (id : Z) (proc : nat) (data : string) (ev : IoEvent) :
  GLib.find (loop self) id = Some (GLib.IoWatch proc data) ->
  hup ev = false \/ exited ev = false ->
  step json_loads self (IoReady id ev)
  = set_loop (GLib.set_data (loop self) id (data ++ chunk ev)) self.
Proof.
  intros Hfind Hpartial. cbn [step]. rewrite Hfind. unfold on_read. cbv zeta.
  destruct (hup ev); cbn [negb]; [|reflexivity].
  destruct Hpartial as [Hh|He]; [discriminate Hh|].
  rewrite He. reflexivity.
Qed.

Lemma run_partial_reads (partial : list IoEvent) :
  forall (self : t) (id : Z) (proc : nat) (data : string),
    GLib.find (loop self) id = Some (GLib.IoWatch proc data) ->
    Forall (fun ev => hup ev = false \/ exited ev = false) partial ->
    let reading := run json_loads self (map (IoReady id) partial) in
    GLib.find (loop reading) id
    = Some (GLib.IoWatch proc (data ++ Gtk.join (map chunk partial)))
    /\ context_data reading = context_data self
    /\ effects reading = effects self
    /\ update_timeout reading = update_timeout self
    /\ parse_signal reading = parse_signal self.
Proof.
  induction partial as [|ev partial IH]; intros self id proc data Hfind Hall.
  - simpl. replace (data ++ "")%string with data; [auto|].
    clear. induction data as [|c data IH]; simpl; [reflexivity|]. rewrite <- IH. reflexivity.
  - inversion Hall as [|? ? Hev Hrest]; subst.
    unfold run. cbn [map fold_left].
    rewrite (step_partial_read self id proc data ev Hfind Hev).
    set (s1 := set_loop (GLib.set_data (loop self) id (data ++ chunk ev)) self).
    assert (Hfind1 : GLib.find (loop s1) id = Some (GLib.IoWatch proc (data ++ chunk ev)))
      by exact (find_set_data (loop self) id proc data _ Hfind).
    destruct (IH s1 id proc (data ++ chunk ev)%string Hfind1 Hrest)
      as (H1 & H2 & H3 & H4 & H5).
    unfold run in *. cbn [Gtk.join map].
    rewrite <- string_app_assoc. auto.
Qed.

(** X9: the output of a check is collected in the order it arrives and
    parsed once, whole.  Notifications that come before the stream is closed
    or before the process has exited only add what was read to the data of the
    watch: they change neither the snapshot nor anything else but that data.
    The notification that finds the stream closed and the process gone parses
    everything read so far followed by the rest of the stream, and removes the
    watch. *)
Theorem output_is_parsed_once_whole (self : t) (id : Z) (proc : nat) (data : string)
        (partial : list IoEvent) (last : IoEvent) :
  GLib.find (loop self) id = Some (GLib.IoWatch proc data) ->
  Forall (fun ev => hup ev = false \/ exited ev = false) partial ->
  hup last = true ->
  exited last = true ->
  let reading := run json_loads self (map (IoReady id) partial) in
  let done := step json_loads reading (IoReady id last) in
  let output := (data ++ Gtk.join (map chunk partial) ++ chunk last ++ rest last)%string in
  (GLib.find (loop reading) id
   = Some (GLib.IoWatch proc (data ++ Gtk.join (map chunk partial)))
   /\ context_data reading = context_data self
   /\ effects reading = effects self)
  /\ context_data done = context_data (snd (parse_shellcheck json_loads self output))
  /\ GLib.find (loop done) id = None.
Proof.
  intros Hfind Hall Hhup Hexited reading done output.
  destruct (run_partial_reads partial self id proc data Hfind Hall)
    as (Hf & Hctx & Heff & _ & _).
  fold reading in Hf, Hctx, Heff.
  split; [auto|].
  subst done. cbn [step]. rewrite Hf. unfold on_read. cbv zeta.
  rewrite Hhup, Hexited. cbn [negb].
  set (d1 := ((data ++ Gtk.join (map chunk partial)) ++ chunk last)%string).
  set (s1 := set_loop (GLib.set_data (loop reading) id d1) reading).
  set (s2 := set_loop (GLib.set_data (loop s1) id (d1 ++ rest last)) s1).
  assert (Hout : (d1 ++ rest last)%string = output).
  { subst d1 output. rewrite !string_app_assoc. reflexivity. }
  rewrite Hout.
  assert (Hctx2 : context_data s2 = context_data self) by exact Hctx.
  pose proof (parse_shellcheck_context s2 self output Hctx2) as Hparse.
  destruct (parse_shellcheck json_loads s2 output) as [[u|e] s3]; cbn [snd] in Hparse.
  - split; [exact Hparse|]. apply find_source_remove.
  - split; [exact Hparse|]. apply find_source_remove.
Qed.

End ReadingOutput.

(** X9 on the output without findings, read in two pieces. *)
Lemma output_in_two_pieces :
  let reading := ShellCheckViewActivatable.run Json.loads Scenario.attached
                     (map (ShellCheckViewActivatable.IoReady 1)
                          [Inputs.first_piece; Inputs.second_piece]) in
  GLib.find (ShellCheckViewActivatable.loop reading) 1 = Some (GLib.IoWatch 1 Scenario.no_comments)
  /\ ShellCheckViewActivatable.context_data reading = PyVal.PDict []
  /\ ShellCheckViewActivatable.context_data
       (ShellCheckViewActivatable.step Json.loads reading
          (ShellCheckViewActivatable.IoReady 1 Inputs.closing))
     = PyVal.PList [].
Proof.
  assert (Hall : Forall (fun ev => ShellCheckViewActivatable.hup ev = false
                                    \/ ShellCheckViewActivatable.exited ev = false)
                        [Inputs.first_piece; Inputs.second_piece])
    by (repeat constructor).
  destruct (output_is_parsed_once_whole Json.loads Scenario.attached 1 1%nat EmptyString
              [Inputs.first_piece; Inputs.second_piece] Inputs.closing
              eq_refl Hall eq_refl eq_refl)
    as ((Hfind & Hctx & _) & Hdone & _).
  split; [exact Hfind|]. split; [exact Hctx|].
  rewrite Hdone. reflexivity.
Defined.


(** ** Attaching to a buffer *)

Section Attachment.

Import ShellCheckViewActivatable.

Variable json_loads : string -> Py.result PyVal.t.

Lemma gutter_count_app (l l' : list effect) :
  gutter_count (l ++ l') = gutter_count l + gutter_count l'.
Proof.
  induction l as [|e l IH]; simpl; [reflexivity|].
  destruct e; rewrite ?IH; lia.
Qed.

Lemma started_app (l l' : list effect) : started (l ++ l') = started l ++ started l'.
Proof.
  induction l as [|e l IH]; simpl; [reflexivity|].
  destruct e; rewrite ?IH; reflexivity.
Qed.

(** Reading a field of an updated object. *)
Ltac fields :=
  cbn [context_data update_timeout parse_signal connected location project_folder
       buffer buffer_signals loop shellcheck_on_path effects
       set_context_data set_update_timeout set_parse_signal set_connected
       set_location set_project_folder set_buffer set_buffer_signals set_loop
       set_effects emit source_remove fst snd GLib.io_add_watch GLib.timeout_add
       GLib.attach negb] in *.

(** What [on_update_timeout] leaves as it is. *)
Lemma on_update_timeout_frame (self : t) :
  connected (on_update_timeout self) = connected self
  /\ buffer (on_update_timeout self) = buffer self
  /\ buffer_signals (on_update_timeout self) = buffer_signals self
  /\ location (on_update_timeout self) = location self
  /\ project_folder (on_update_timeout self) = project_folder self
  /\ shellcheck_on_path (on_update_timeout self) = shellcheck_on_path self
  /\ gutter_count (effects (on_update_timeout self)) = gutter_count (effects self)
  /\ (buffer self <> None ->
      context_data (on_update_timeout self) = context_data self).
Proof.
  unfold on_update_timeout, remove_parse_signal. cbv zeta. fields.
  destruct (parse_signal self =? 0); fields;
    destruct (buffer self) as [b|] eqn:Hb; fields;
    destruct (project_folder self) as [folder|] eqn:Hf; fields;
    rewrite ?Hb; fields;
    try (destruct (shellcheck_on_path self) eqn:Hpath; fields);
    rewrite ?gutter_count_app; cbn [gutter_count];
    repeat split; try reflexivity; try lia; try assumption;
    intros Hnone; contradiction Hnone; reflexivity.
Qed.

Lemma update_frame (self : t) :
  connected (update self) = connected self
  /\ buffer (update self) = buffer self
  /\ buffer_signals (update self) = buffer_signals self
  /\ location (update self) = location self
  /\ project_folder (update self) = project_folder self
  /\ shellcheck_on_path (update self) = shellcheck_on_path self
  /\ gutter_count (effects (update self)) = gutter_count (effects self)
  /\ (buffer self <> None -> context_data (update self) = context_data self).
Proof.
  unfold update.
  destruct (connected self) eqn:Hc; cbn [negb]; [|repeat split; auto].
  destruct (update_timeout self =? 0); cbn [negb]; [|repeat split; auto].
  cbv zeta.
  assert (Hr : connected (remove_parse_signal self) = connected self
               /\ buffer (remove_parse_signal self) = buffer self
               /\ buffer_signals (remove_parse_signal self) = buffer_signals self
               /\ location (remove_parse_signal self) = location self
               /\ project_folder (remove_parse_signal self) = project_folder self
               /\ shellcheck_on_path (remove_parse_signal self) = shellcheck_on_path self
               /\ effects (remove_parse_signal self) = effects self
               /\ context_data (remove_parse_signal self) = context_data self).
  { unfold remove_parse_signal. destruct (negb (parse_signal self =? 0)); repeat split. }
  destruct Hr as (H1 & H2 & H3 & H4 & H5 & H6 & H7 & H8).
  set (s2 := remove_parse_signal self) in *. clearbody s2.
  destruct (negb (PyVal.truthy (context_data s2))).
  - destruct (on_update_timeout_frame s2) as (G1 & G2 & G3 & G4 & G5 & G6 & G7 & G8).
    rewrite G1, G2, G3, G4, G5, G6, G7, H1, H2, H3, H4, H5, H6, H7.
    repeat split; try reflexivity; try exact Hc.
    intros Hb. rewrite G8, H8; [reflexivity|rewrite H2; exact Hb].
  - destruct (buffer s2) as [b|] eqn:Hb2; simpl;
      rewrite ?H1, ?H3, ?H4, ?H5, ?H6, ?H7, ?H8; repeat split; auto; congruence.
Qed.

Lemma disconnect_gutter_frame (self : t) :
  connected (disconnect_gutter self) = false
  /\ buffer (disconnect_gutter self) = buffer self
  /\ context_data (disconnect_gutter self) = context_data self
  /\ project_folder (disconnect_gutter self) = project_folder self
  /\ started (effects (disconnect_gutter self)) = started (effects self)
  /\ (balanced self -> balanced (disconnect_gutter self)).
Proof.
  unfold disconnect_gutter, balanced.
  destruct (connected self) eqn:Hc; simpl; rewrite ?Hc, ?started_app, ?gutter_count_app;
    simpl; rewrite ?app_nil_r; repeat split; auto; intros; lia.
Qed.

Lemma connect_gutter_frame (self : t) :
  connected (connect_gutter self) = true
  /\ buffer (connect_gutter self) = buffer self
  /\ context_data (connect_gutter self) = context_data self
  /\ project_folder (connect_gutter self) = project_folder self
  /\ started (effects (connect_gutter self)) = started (effects self)
  /\ (balanced self -> balanced (connect_gutter self)).
Proof.
  unfold connect_gutter, balanced.
  destruct (connected self) eqn:Hc; simpl; rewrite ?Hc, ?started_app, ?gutter_count_app;
    simpl; rewrite ?app_nil_r; repeat split; auto; intros; lia.
Qed.

Lemma update_balanced (self : t) : balanced self -> balanced (update self).
Proof.
  unfold balanced. destruct (update_frame self) as (H1 & _ & _ & _ & _ & _ & H7 & _).
  rewrite H1, H7. auto.
Qed.

Lemma should_check_attachable (self : t) (b : Buffer.t) :
  buffer self = Some b -> location self = Buffer.location b ->
  attachable b
  = should_check self
    && match find_project_folder self with Py.Return _ => true | Py.Raise _ => false end.
Proof.
  intros Hb Hl. unfold attachable, should_check, find_project_folder.
  rewrite Hb, Hl.
  destruct (Buffer.location b) as [loc|]; [|reflexivity].
  destruct (Buffer.language b) as [id|]; [|reflexivity].
  destruct (GFile.parent loc); destruct (startswith id "sh"); reflexivity.
Qed.

(** X10: a location or language update leaves the plugin connected exactly
    when the buffer can be checked: its file has a location, the id of its
    language starts with [sh], and the location has a parent folder, which
    then is the project folder the tool runs in. *)
Theorem connected_iff_attachable (self : t) (b : Buffer.t) :
  buffer self = Some b ->
  connected (_update_location self) = attachable b
  /\ location (_update_location self) = Buffer.location b
  /\ (forall file folder,
        attachable b = true ->
        Buffer.location b = Some file -> GFile.parent file = Some folder ->
        project_folder (_update_location self) = Some folder).
Proof.
  intros Hb. unfold _update_location. rewrite Hb. cbv zeta.
  set (s1 := set_location (Buffer.location b) self).
  assert (Hb1 : buffer s1 = Some b) by exact Hb.
  assert (Hl1 : location s1 = Buffer.location b) by reflexivity.
  assert (Hfolder : forall file folder,
             Buffer.location b = Some file -> GFile.parent file = Some folder ->
             find_project_folder s1 = Py.Return folder).
  { intros file folder Hfile Hparent. unfold find_project_folder.
    rewrite Hl1, Hfile, Hparent. reflexivity. }
  rewrite (should_check_attachable s1 b Hb1 Hl1).
  assert (Hdis : location (disconnect_gutter s1) = location s1).
  { unfold disconnect_gutter. destruct (connected s1); reflexivity. }
  clearbody s1.
  destruct (disconnect_gutter_frame s1) as (Hd & _).
  destruct (should_check s1); cbn [negb andb].
  - destruct (find_project_folder s1) as [folder|e] eqn:Hf.
    + set (s2 := set_project_folder (Some folder) s1).
      destruct (update_frame (connect_gutter s2)) as (H1 & _ & _ & H4 & H5 & _).
      destruct (connect_gutter_frame s2) as (Hc & _ & _ & Hp & _).
      rewrite H1, H4, H5, Hc, Hp.
      split; [reflexivity|]. split.
      * unfold connect_gutter. destruct (connected s2); exact Hl1.
      * intros file folder' _ Hfile Hparent.
        pose proof (Hfolder file folder' Hfile Hparent) as Hf'.
        injection Hf' as <-. reflexivity.
    + rewrite Hd, Hdis. split; [reflexivity|]. split; [exact Hl1|].
      intros file folder H. discriminate H.
  - rewrite Hd, Hdis. split; [reflexivity|]. split; [exact Hl1|].
    intros file folder H. discriminate H.
Qed.

End Attachment.

(** X10 at the shell script, and at the same buffer set to Python. *)
Lemma connected_iff_attachable_examples :
  ShellCheckViewActivatable.connected
    (ShellCheckViewActivatable._update_location Scenario.checked_one) = true
  /\ ShellCheckViewActivatable.connected
       (ShellCheckViewActivatable._update_location
          (ShellCheckViewActivatable.set_buffer (Some Scenario.python_buffer)
                                                Scenario.checked_one)) = false.
Proof.
  split.
  - apply (connected_iff_attachable Scenario.checked_one Scenario.shell_buffer).
    reflexivity.
  - apply (connected_iff_attachable
             (ShellCheckViewActivatable.set_buffer (Some Scenario.python_buffer)
                                                   Scenario.checked_one)
             Scenario.python_buffer).
    reflexivity.
Defined.

(** ** The renderer in the gutter *)

Section Gutter.

Import ShellCheckViewActivatable.

Variable json_loads : string -> Py.result PyVal.t.

(** [balanced] reads the effects and [connected] only. *)
Lemma balanced_same (self self' : t) :
  effects self' = effects self -> connected self' = connected self ->
  balanced self -> balanced self'.
Proof. unfold balanced. intros -> ->. auto. Qed.

Lemma remove_parse_signal_balanced (self : t) :
  balanced self -> balanced (remove_parse_signal self).
Proof.
  apply balanced_same; unfold remove_parse_signal;
    destruct (negb (parse_signal self =? 0)); reflexivity.
Qed.

Lemma _update_location_balanced (self : t) :
  balanced self -> balanced (_update_location self).
Proof.
  intros Hbal. unfold _update_location.
  destruct (buffer self) as [b|]; [|exact Hbal]. cbv zeta.
  set (s1 := set_location (Buffer.location b) self).
  assert (Hs1 : balanced s1) by exact Hbal. clearbody s1.
  destruct (negb (should_check s1));
    [apply (proj2 (proj2 (proj2 (proj2 (proj2 (disconnect_gutter_frame s1)))))); exact Hs1|].
  destruct (find_project_folder s1) as [folder|e];
    [|apply (proj2 (proj2 (proj2 (proj2 (proj2 (disconnect_gutter_frame s1)))))); exact Hs1].
  apply update_balanced.
  apply (proj2 (proj2 (proj2 (proj2 (proj2 (connect_gutter_frame _)))))). exact Hs1.
Qed.

Lemma on_notify_buffer_balanced (self : t) (view_buffer : Buffer.t) :
  balanced self -> balanced (on_notify_buffer self view_buffer).
Proof.
  intros Hbal. unfold on_notify_buffer. cbv zeta.
  apply _update_location_balanced.
  set (s1 := if negb (update_timeout self =? 0)
             then source_remove (update_timeout self) self else self).
  assert (Hs1 : balanced s1).
  { subst s1. destruct (negb (update_timeout self =? 0)); exact Hbal. }
  clearbody s1. apply remove_parse_signal_balanced in Hs1.
  destruct (buffer (remove_parse_signal s1)); exact Hs1.
Qed.

Lemma parse_shellcheck_balanced (self : t) (output : string) :
  balanced self -> balanced (snd (parse_shellcheck json_loads self output)).
Proof.
  intros Hbal. unfold parse_shellcheck.
  destruct (json_loads output) as [data|[]]; try exact Hbal.
  destruct (comments <- PyVal.getitem data "comments";; annotate_comments comments);
    [|exact Hbal].
  unfold balanced in *. simpl. rewrite gutter_count_app. simpl. lia.
Qed.

Lemma step_balanced (self : t) (e : event) :
  balanced self -> balanced (step json_loads self e).
Proof.
  intros Hbal. destruct e as [view_buffer| |sig now|id|id ev]; cbn [step].
  - apply on_notify_buffer_balanced. exact Hbal.
  - apply update_balanced. exact Hbal.
  - cbv zeta. set (s1 := set_buffer (Some now) self).
    assert (Hs1 : balanced s1) by exact Hbal. clearbody s1.
    destruct (existsb (Signal_eqb sig) (buffer_signals s1)); [|exact Hs1].
    destruct sig; solve [apply _update_location_balanced; exact Hs1
                        | apply update_balanced; exact Hs1].
  - destruct (GLib.find (loop self) id) as [[interval|proc data]|]; try exact Hbal.
    destruct (on_update_timeout_frame self) as (H1 & _ & _ & _ & _ & _ & H7 & _).
    unfold balanced in *. simpl. rewrite H1, H7. exact Hbal.
  - destruct (GLib.find (loop self) id) as [[interval|proc data]|]; try exact Hbal.
    unfold on_read. cbv zeta.
    destruct (negb (hup ev)); [exact Hbal|].
    destruct (negb (exited ev)); [exact Hbal|].
    match goal with
    | |- context [parse_shellcheck json_loads ?s ?d] =>
        pose proof (parse_shellcheck_balanced s d Hbal) as Hparse;
        destruct (parse_shellcheck json_loads s d) as [[u|e] s3]
    end; exact Hparse.
Qed.

Lemma run_balanced (on_path : bool) (view_buffer : Buffer.t) (events : list event) :
  balanced (run json_loads (do_activate on_path view_buffer) events).
Proof.
  unfold run.
  assert (Hstart : balanced (do_activate on_path view_buffer)).
  { apply on_notify_buffer_balanced. reflexivity. }
  revert Hstart. generalize (do_activate on_path view_buffer).
  induction events as [|e events IH]; intros s Hs; [exact Hs|].
  simpl. apply IH. apply step_balanced. exact Hs.
Qed.

(** X11: whatever happens after the plugin is activated, the renderer is in
    the gutter exactly while the plugin is connected: it was inserted once
    more than it was removed when the plugin is connected, and as often as it
    was removed when it is not. *)
Theorem renderer_in_gutter_iff_connected (on_path : bool) (view_buffer : Buffer.t)
        (events : list event) :
  let self := run json_loads (do_activate on_path view_buffer) events in
  gutter_count (effects self) = if connected self then 1 else 0.
Proof. exact (run_balanced on_path view_buffer events). Qed.

(** ** After the view moves to another buffer while a timer is pending *)

Lemma update_stuck (self : t) : update_timeout self <> 0 -> update self = self.
Proof.
  intros Hne. unfold update. destruct (connected self); cbn [negb]; [|reflexivity].
  rewrite (proj2 (Z.eqb_neq _ _) Hne). reflexivity.
Qed.

Lemma stuck_same (before self self' : t) :
  loop self' = loop self ->
  update_timeout self' = update_timeout self ->
  started (effects self') = started (effects self) ->
  stuck before self -> stuck before self'.
Proof. unfold stuck. intros -> -> ->. auto. Qed.

Lemma source_remove_no_timer (loop : GLib.MainLoop) (id : Z) :
  no_timer loop -> no_timer (GLib.source_remove loop id).
Proof.
  intros Hno i d Hin. simpl in Hin. apply filter_In in Hin. exact (Hno i d (proj1 Hin)).
Qed.

Lemma source_remove_timer_no_timer (loop : GLib.MainLoop) (tm : Z) :
  timers_are loop tm -> no_timer (GLib.source_remove loop tm).
Proof.
  intros Ht i d Hin.
  pose proof (source_remove_the_timer loop tm 0 Ht i d Hin) as H0.
  pose proof (source_remove_the_timer loop tm 1 Ht i d Hin) as H1.
  lia.
Qed.

Lemma set_data_no_timer (loop : GLib.MainLoop) (id : Z) (data : string) :
  no_timer loop -> no_timer (GLib.set_data loop id data).
Proof.
  intros Hno i d Hin. apply set_data_In in Hin.
  destruct Hin as [[d'|p' d'] [Hin Hk]]; [exact (Hno _ _ Hin)|contradiction].
Qed.

Lemma remove_parse_signal_stuck (before self : t) :
  stuck before self -> stuck before (remove_parse_signal self).
Proof.
  intros (Hu & Hno & Hst). unfold remove_parse_signal.
  destruct (negb (parse_signal self =? 0)); [|exact (conj Hu (conj Hno Hst))].
  split; [exact Hu|]. split; [|exact Hst].
  exact (source_remove_no_timer _ _ Hno).
Qed.

Lemma _update_location_stuck (before self : t) :
  update_timeout before <> 0 ->
  stuck before self -> stuck before (_update_location self).
Proof.
  intros Hne Hstuck. unfold _update_location.
  destruct (buffer self) as [b|]; [|exact Hstuck]. cbv zeta.
  set (s1 := set_location (Buffer.location b) self).
  assert (Hs1 : stuck before s1) by exact Hstuck. clearbody s1.
  assert (Hdis : stuck before (disconnect_gutter s1)).
  { destruct (disconnect_gutter_sources s1) as (Hl & Hu & _).
    destruct (disconnect_gutter_frame s1) as (_ & _ & _ & _ & Hst & _).
    exact (stuck_same before s1 _ Hl Hu Hst Hs1). }
  destruct (negb (should_check s1)); [exact Hdis|].
  destruct (find_project_folder s1) as [folder|e]; [|exact Hdis].
  set (s2 := set_project_folder (Some folder) s1).
  assert (Hcon : stuck before (connect_gutter s2)).
  { destruct (connect_gutter_sources s2) as (Hl & Hu & _).
    destruct (connect_gutter_frame s2) as (_ & _ & _ & _ & Hst & _).
    exact (stuck_same before s1 _ Hl Hu Hst Hs1). }
  rewrite update_stuck; [exact Hcon|].
  destruct Hcon as (Hu & _). rewrite Hu. exact Hne.
Qed.

Lemma on_notify_buffer_stuck (before self : t) (view_buffer : Buffer.t) :
  update_timeout before <> 0 ->
  update_timeout self = update_timeout before ->
  timers_are (loop self) (update_timeout self) ->
  started (effects self) = started (effects before) ->
  stuck before (on_notify_buffer self view_buffer).
Proof.
  intros Hne Hu Ht Hst. unfold on_notify_buffer. cbv zeta.
  rewrite (proj2 (Z.eqb_neq (update_timeout self) 0)) by (rewrite Hu; exact Hne).
  cbn [negb].
  apply _update_location_stuck; [exact Hne|].
  set (s1 := source_remove (update_timeout self) self).
  assert (Hs1 : stuck before s1).
  { split; [exact Hu|]. split; [|exact Hst].
    exact (source_remove_timer_no_timer _ _ Ht). }
  clearbody s1. apply remove_parse_signal_stuck in Hs1.
  destruct (buffer (remove_parse_signal s1)); exact Hs1.
Qed.

Lemma parse_shellcheck_started (self : t) (output : string) :
  started (effects (snd (parse_shellcheck json_loads self output)))
  = started (effects self).
Proof.
  unfold parse_shellcheck.
  destruct (json_loads output) as [data|[]]; try reflexivity.
  destruct (comments <- PyVal.getitem data "comments";; annotate_comments comments);
    [|reflexivity].
  simpl. rewrite started_app. simpl. apply app_nil_r.
Qed.

Lemma step_stuck (before self : t) (e : event) :
  update_timeout before <> 0 ->
  stuck before self -> stuck before (step json_loads self e).
Proof.
  intros Hne Hstuck. pose proof Hstuck as (Hu & Hno & Hst).
  assert (Hself : update_timeout self <> 0) by (rewrite Hu; exact Hne).
  destruct e as [view_buffer| |sig now|id|id ev]; cbn [step].
  - apply on_notify_buffer_stuck; try assumption.
    intros i d Hin. exfalso. exact (Hno i d Hin).
  - rewrite update_stuck; assumption.
  - cbv zeta. set (s1 := set_buffer (Some now) self).
    assert (Hs1 : stuck before s1) by exact Hstuck.
    assert (Hu1 : update_timeout s1 <> 0) by exact Hself. clearbody s1.
    destruct (existsb (Signal_eqb sig) (buffer_signals s1)); [|exact Hs1].
    destruct sig; solve [apply _update_location_stuck; assumption
                        | rewrite update_stuck; assumption].
  - destruct (GLib.find (loop self) id) as [[interval|proc data]|] eqn:Hfind;
      try exact Hstuck.
    apply lookup_In in Hfind. exfalso. exact (Hno _ _ Hfind).
  - destruct (GLib.find (loop self) id) as [[interval|proc data]|] eqn:Hfind;
      try exact Hstuck.
    unfold on_read. cbv zeta.
    set (d1 := (data ++ chunk ev)%string).
    set (s1 := set_loop (GLib.set_data (loop self) id d1) self).
    assert (Hs1 : stuck before s1).
    { split; [exact Hu|]. split; [|exact Hst]. exact (set_data_no_timer _ _ _ Hno). }
    destruct (negb (hup ev)); [exact Hs1|].
    destruct (negb (exited ev)); [exact Hs1|].
    set (d2 := (d1 ++ rest ev)%string).
    set (s2 := set_loop (GLib.set_data (loop s1) id d2) s1).
    assert (Hs2 : stuck before s2).
    { destruct Hs1 as (Hu1 & Hno1 & Hst1).
      split; [exact Hu1|]. split; [|exact Hst1]. exact (set_data_no_timer _ _ _ Hno1). }
    destruct Hs2 as (Hu2 & Hno2 & Hst2).
    destruct (parse_shellcheck_sources json_loads s2 d2) as (Hl & Hup & _).
    pose proof (parse_shellcheck_started s2 d2) as Hstarted.
    destruct (parse_shellcheck json_loads s2 d2) as [[u|e] s3];
      cbn [snd] in Hl, Hup, Hstarted;
      (split; [exact (eq_trans Hup Hu2)|]);
      (split; [|exact (eq_trans Hstarted Hst2)]);
      simpl; rewrite Hl; exact (source_remove_no_timer _ _ Hno2).
Qed.

(** X12: once the view moves to another buffer while a timer is pending, no
    check is started any more.  [on_notify_buffer] removes the timer but
    leaves its id in [update_timeout]; from then on [update] returns at its
    test of [update_timeout], and no timer is left to reset it: whatever
    events follow, the processes started are those started before. *)
Theorem no_check_after_move_with_pending_timer (self : t) (view_buffer : Buffer.t)
        (events : list event) :
  scheduled self ->
  update_timeout self <> 0 ->
  let later := run json_loads (on_notify_buffer self view_buffer) events in
  started (effects later) = started (effects self)
  /\ update_timeout later = update_timeout self
  /\ no_timer (loop later).
Proof.
  intros (_ & Ht & _) Hne later.
  assert (Hstuck : stuck self later).
  { subst later. unfold run.
    assert (Hstart : stuck self (on_notify_buffer self view_buffer))
      by (apply on_notify_buffer_stuck; auto).
    revert Hstart. generalize (on_notify_buffer self view_buffer).
    induction events as [|e events IH]; intros s Hs; [exact Hs|].
    simpl. apply IH. apply step_stuck; assumption. }
  destruct Hstuck as (Hu & Hno & Hst). auto.
Qed.

End Gutter.

(** The plugin with a timer pending after a change to the checked script. *)
Lemma pending_scheduled :
  scheduled (ShellCheckViewActivatable.step Json.loads Scenario.checked_one
               (ShellCheckViewActivatable.BufferSignal
                  ShellCheckViewActivatable.Changed Scenario.shell_buffer)).
Proof.
  apply step_scheduled. unfold Scenario.checked_one. apply step_scheduled.
  unfold Scenario.attached, ShellCheckViewActivatable.do_activate.
  apply on_notify_buffer_scheduled. apply init_scheduled.
Qed.

(** X12 at that state: the view moves to another script, which then changes
    twice. *)
Lemma no_check_after_move_example :
  let pending := ShellCheckViewActivatable.step Json.loads Scenario.checked_one
                   (ShellCheckViewActivatable.BufferSignal
                      ShellCheckViewActivatable.Changed Scenario.shell_buffer) in
  let later := ShellCheckViewActivatable.run Json.loads
                 (ShellCheckViewActivatable.on_notify_buffer pending Scenario.other_buffer)
                 [ShellCheckViewActivatable.BufferSignal
                    ShellCheckViewActivatable.Changed Scenario.other_buffer;
                  ShellCheckViewActivatable.ViewNotifyMargin] in
  started (ShellCheckViewActivatable.effects later)
  = [("/home/user/project", "echo $1")]
  /\ ShellCheckViewActivatable.update_timeout later = 2.
Proof.
  intros pending later.
  destruct (no_check_after_move_with_pending_timer Json.loads pending
              Scenario.other_buffer
              [ShellCheckViewActivatable.BufferSignal
                 ShellCheckViewActivatable.Changed Scenario.other_buffer;
               ShellCheckViewActivatable.ViewNotifyMargin]
              pending_scheduled)
    as (Hst & Hu & _).
  - vm_compute. discriminate.
  - split; [exact Hst|exact Hu].
Defined.

(** ** Deactivation *)

Section Deactivation.

Import ShellCheckViewActivatable.

Variable json_loads : string -> Py.result PyVal.t.

Lemma do_deactivate_sources (self : t) :
  scheduled self -> GLib.sources (loop (do_deactivate self)) = [].
Proof.
  intros (Hfresh & Ht & Hw). unfold do_deactivate. cbv zeta.
  set (s1 := if negb (update_timeout self =? 0)
             then source_remove (update_timeout self) self else self).
  assert (Hs1 : sources_fresh (loop s1)
                /\ timers_are (loop s1) 0
                /\ watches_are (loop s1) (parse_signal s1)).
  { subst s1. destruct (update_timeout self =? 0) eqn:Hz; cbn [negb].
    - apply Z.eqb_eq in Hz. rewrite Hz in Ht. auto.
    - split; [exact (source_remove_fresh _ _ Hfresh)|].
      split; [exact (source_remove_the_timer _ _ _ Ht)
             |exact (source_remove_watches _ _ _ Hw)]. }
  clearbody s1. destruct Hs1 as (Hf1 & Ht1 & Hw1).
  destruct (remove_parse_signal_sources s1 0 Hf1 Ht1 Hw1) as ((_ & Hids & _) & Ht2 & Hw2).
  change (GLib.sources (loop (remove_parse_signal s1)) = []).
  destruct (GLib.sources (loop (remove_parse_signal s1))) as [|[i src] l] eqn:Hl;
    [reflexivity|].
  exfalso.
  assert (Hin : In (i, src) (GLib.sources (loop (remove_parse_signal s1))))
    by (rewrite Hl; left; reflexivity).
  specialize (Hids i src (or_introl eq_refl)).
  destruct src as [interval|proc data].
  - specialize (Ht2 i interval Hin). lia.
  - specialize (Hw2 i proc data Hin). lia.
Qed.

(** X13: whenever the plugin is deactivated, whatever happened since it was
    activated, no timer and no watch of it is left in the main loop: the
    pending check and the check in flight are both cancelled, the buffer is
    released with its handlers, and the renderer is taken out of the gutter
    once more than it was put in when the plugin was not connected. *)
Theorem deactivate_removes_every_source (on_path : bool) (view_buffer : Buffer.t)
        (events : list event) :
  let before := run json_loads (do_activate on_path view_buffer) events in
  let self := do_deactivate before in
  GLib.sources (loop self) = []
  /\ parse_signal self = 0
  /\ buffer self = None
  /\ buffer_signals self = []
  /\ gutter_count (effects self) = if connected before then 0 else -1.
Proof.
  intros before self.
  assert (Hs : scheduled before).
  { subst before. apply run_scheduled. unfold do_activate.
    apply on_notify_buffer_scheduled. apply init_scheduled. }
  pose proof (run_balanced json_loads on_path view_buffer events) as Hb.
  fold before in Hb. unfold balanced in Hb.
  split; [exact (do_deactivate_sources before Hs)|].
  subst self. unfold do_deactivate. cbv zeta.
  set (s1 := if negb (update_timeout before =? 0)
             then source_remove (update_timeout before) before else before).
  assert (He : effects s1 = effects before)
    by (subst s1; destruct (negb (update_timeout before =? 0)); reflexivity).
  destruct (remove_parse_signal_frame s1) as (_ & _ & _ & _ & _ & He2 & Hp2).
  set (s2 := remove_parse_signal s1) in *. clearbody s2 s1.
  split; [exact Hp2|]. split; [reflexivity|]. split; [reflexivity|].
  change (gutter_count (effects s2 ++ [GutterRemove])
          = if connected before then 0 else -1).
  rewrite gutter_count_app, He2, He, Hb.
  destruct (connected before); reflexivity.
Qed.

End Deactivation.

(** ** The records the parser stores *)

Section ParsedRecords.

Import ShellCheckViewActivatable.

Variable json_loads : string -> Py.result PyVal.t.

Lemma dict_get_set_same (pairs : list (string * PyVal.t)) (key : string) (v : PyVal.t) :
  PyVal.dict_get (PyVal.dict_set pairs key v) key = Some v.
Proof.
  induction pairs as [|[k v0] pairs IH]; cbn [PyVal.dict_set PyVal.dict_get].
  - rewrite String.eqb_refl. reflexivity.
  - destruct (String.eqb k key) eqn:Hk; cbn [PyVal.dict_get]; rewrite Hk.
    + reflexivity.
    + exact IH.
Qed.

Lemma dict_get_set_other (pairs : list (string * PyVal.t)) (key key' : string)
      (v : PyVal.t) :
  key' <> key ->
  PyVal.dict_get (PyVal.dict_set pairs key v) key' = PyVal.dict_get pairs key'.
Proof.
  intros Hne.
  assert (Hkey : String.eqb key key' = false)
    by (apply String.eqb_neq; intros ->; exact (Hne eq_refl)).
  induction pairs as [|[k v0] pairs IH]; cbn [PyVal.dict_set PyVal.dict_get].
  - rewrite Hkey. reflexivity.
  - destruct (String.eqb k key) eqn:Hk; cbn [PyVal.dict_get].
    + apply String.eqb_eq in Hk. subst k. rewrite Hkey. reflexivity.
    + rewrite IH. reflexivity.
Qed.

Lemma annotate_returns (comments : list PyVal.t) :
  Forall has_level comments ->
  exists annotated,
    annotate comments = Py.Return annotated
    /\ Forall2 annotated_from comments annotated.
Proof.
  induction 1 as [|comment comments (pairs & level & -> & Hlevel) _ (rest & Hrest & Hall)].
  - exists []. split; [reflexivity|constructor].
  - exists (PyVal.PDict (PyVal.dict_set pairs "levelcls" (PyVal.PLevel (by_code level)))
            :: rest).
    split.
    + cbn [annotate PyVal.getitem PyVal.setitem]. rewrite Hlevel.
      cbn [Py.bind]. rewrite Hrest. reflexivity.
    + constructor; [|exact Hall].
      exists pairs, (PyVal.dict_set pairs "levelcls" (PyVal.PLevel (by_code level))), level.
      split; [reflexivity|]. split; [reflexivity|]. split; [exact Hlevel|].
      split; [apply dict_get_set_same|].
      intros key Hne. apply dict_get_set_other. exact Hne.
Qed.

(** X14: on output that decodes to an object whose [comments] is a list of
    objects with a [level] each, the parser succeeds: the snapshot becomes
    the list of these records, as many and in the same order, each with the
    member [levelcls] found by [by_code] from its [level] and with every
    other member as it was decoded; a redraw is requested and nothing else of
    the state changes. *)
Theorem parse_shellcheck_annotates (self : t) (output : string) (data : PyVal.t)
        (comments : list PyVal.t) :
  json_loads output = Py.Return data ->
  PyVal.getitem data "comments" = Py.Return (PyVal.PList comments) ->
  Forall has_level comments ->
  exists annotated,
    parse_shellcheck json_loads self output
    = (Py.Return tt, emit QueueDraw (set_context_data (PyVal.PList annotated) self))
    /\ Forall2 annotated_from comments annotated.
Proof.
  intros Hloads Hcomments Hall.
  destruct (annotate_returns comments Hall) as (annotated & Hann & Hrel).
  exists annotated. split; [|exact Hrel].
  unfold parse_shellcheck. rewrite Hloads, Hcomments.
  cbn [Py.bind]. unfold annotate_comments. cbn [PyVal.iter Py.bind].
  rewrite Hann. reflexivity.
Qed.

End ParsedRecords.

(** X14 on the output with one finding. *)
Lemma parse_shellcheck_annotates_one_comment :
  exists annotated,
    ShellCheckViewActivatable.parse_shellcheck Json.loads Scenario.attached
      Scenario.one_comment
    = (Py.Return tt,
       ShellCheckViewActivatable.emit ShellCheckViewActivatable.QueueDraw
         (ShellCheckViewActivatable.set_context_data (PyVal.PList annotated)
            Scenario.attached))
    /\ List.length annotated = 1%nat.
Proof.
  edestruct (parse_shellcheck_annotates Json.loads Scenario.attached Scenario.one_comment)
    as (annotated & Hparse & Hrel).
  - lazy. reflexivity.
  - lazy. reflexivity.
  - repeat constructor. eexists. eexists. split; [reflexivity|]. lazy. reflexivity.
  - exists annotated. split; [exact Hparse|].
    apply Forall2_length in Hrel. symmetry. exact Hrel.
Defined.

(** ** The preview of a fix with one replacement *)

Section SingleReplacement.

Import Gtk GutterRenderer.

Lemma string_length_app (a b : string) :
  String.length (a ++ b) = (String.length a + String.length b)%nat.
Proof. induction a as [|c a IH]; simpl; [reflexivity|]. rewrite IH. reflexivity. Qed.

Lemma substring_0_app (n : nat) (a b : string) :
  String.length a = n -> substring 0 n (a ++ b) = a.
Proof.
  intros <-. induction a as [|c a IH]; simpl; [destruct b; reflexivity|].
  rewrite IH. reflexivity.
Qed.

Lemma skip_app (n : nat) (a b : string) : String.length a = n -> skip n (a ++ b) = b.
Proof. intros <-. induction a as [|c a IH]; simpl; [reflexivity|exact IH]. Qed.

Lemma length_skip (s : string) :
  forall n, String.length (skip n s) = (String.length s - n)%nat.
Proof.
  induction s as [|c s IH]; intros [|n]; simpl; try reflexivity. apply IH.
Qed.

Lemma get_iter_at_line_offset_le (buf : TextBuffer) (line_number char_offset : Z) :
  (get_iter_at_line_offset buf line_number char_offset <= String.length (text buf))%nat.
Proof.
  unfold get_iter_at_line_offset. cbv zeta.
  pose proof (line_offset_step (text buf) (Z.to_nat line_number)).
  pose proof (line_offset_le_length (text buf) (S (Z.to_nat line_number))).
  lia.
Qed.

(** A mark between the two ends of a deleted stretch lands on its start. *)
Lemma mark_after_delete (p lo hi : nat) :
  (lo <= p <= hi)%nat ->
  forall g : bool,
    (if Nat.leb p lo then (p, g)
     else if Nat.leb p hi then (lo, g) else ((p - (hi - lo))%nat, g)) = (lo, g).
Proof.
  intros Hp g. revert Hp.
  intros [Hlo Hhi].
  destruct (Nat.leb p lo) eqn:H1; [apply Nat.leb_le in H1; f_equal; lia|].
  rewrite (proj2 (Nat.leb_le p hi) Hhi). reflexivity.
Qed.

Lemma apply_replacement_single (buffer_text : string) (s e : nat) (r : Replacement.t) :
  Replacement.start r = 0%nat ->
  Replacement.end_ r = 1%nat ->
  (s <= String.length buffer_text)%nat ->
  (e <= String.length buffer_text)%nat ->
  apply_replacement {| text := buffer_text; marks := [(s, true); (e, false)] |} r
  = {| text := (substring 0 (Nat.min s e) buffer_text ++ Replacement.text r
                ++ skip (Nat.max s e) buffer_text)%string;
       marks := [(Nat.min s e, true);
                 ((Nat.min s e + String.length (Replacement.text r))%nat, false)] |}.
Proof.
  intros Hstart Hend Hs He.
  unfold apply_replacement, get_iter_at_mark. rewrite Hstart, Hend.
  cbn [marks nth fst].
  set (lo := Nat.min s e). set (hi := Nat.max s e).
  unfold delete. cbn [marks text map nth fst].
  fold lo hi.
  rewrite (mark_after_delete s lo hi) by (subst lo hi; lia).
  rewrite (mark_after_delete e lo hi) by (subst lo hi; lia).
  unfold insert. cbn [marks text map fst].
  rewrite Nat.ltb_irrefl.
  set (P := substring 0 lo buffer_text).
  assert (HP : String.length P = lo)
    by (subst P; apply length_substring; subst lo; lia).
  rewrite (substring_0_app lo P _ HP), (skip_app lo P _ HP).
  reflexivity.
Qed.

Lemma merge_ranges_one (a b : Z) : a <= b -> merge_ranges [(a, b)] = Py.Return [(a, b)].
Proof.
  intros Hab. unfold merge_ranges. cbn [sorted insert_sorted fold_left].
  unfold merge_step. cbn [last fst snd removelast app].
  rewrite (proj2 (Z.geb_le a a)) by lia.
  rewrite (proj2 (Z.leb_le a b)) by lia.
  rewrite (proj2 (Z.geb_le b b)) by lia.
  reflexivity.
Qed.

Lemma substring_whole (s : string) : substring 0 (String.length s) s = s.
Proof. induction s as [|c s IH]; simpl; [reflexivity|]. rewrite IH. reflexivity. Qed.

Lemma get_text_whole (buffer : TextBuffer) :
  get_text buffer (get_start_iter buffer) (get_end_iter buffer) = text buffer.
Proof.
  unfold get_text, get_start_iter, get_end_iter.
  rewrite Nat.min_0_l, Nat.max_0_l, Nat.sub_0_r. apply substring_whole.
Qed.

Lemma get_iter_at_offset_nat (buf : TextBuffer) (n : nat) :
  (n <= String.length (text buf))%nat -> get_iter_at_offset buf (Z.of_nat n) = n.
Proof.
  intros Hn. unfold get_iter_at_offset.
  rewrite (proj2 (Z.ltb_ge (Z.of_nat n) 0)) by lia.
  rewrite (proj2 (Z.ltb_ge (Z.of_nat (String.length (text buf))) (Z.of_nat n))) by lia.
  cbn [orb]. apply Nat2Z.id.
Qed.

(** X15: the preview of a fix with one replacement, for any buffer, any
    positions and any escaping.  With [fixed] the text of the view's buffer
    in which the stretch between the replacement's two positions (whichever
    comes first) is replaced by the replacement's text, [preview_fix]
    returns the heading and a grey span holding: the escaped text of [fixed]
    between the start of the diagnostic's first line and the start of the
    replacement, the escaped replacement text in a green span, and the
    escaped text of [fixed] from the end of the replacement to the end of
    the diagnostic's last line, without its trailing line feeds.  The text
    of [fixed] between the two ends of the green span is the replacement's
    text. *)
Theorem single_replacement_preview (escape : string -> string) (buffer : TextBuffer)
        (message : Message.t) (item : Item.t) :
  Message.fix_ message = Some [item] ->
  let s := get_iter_at_line_offset buffer (Item.line item - 1) (Item.column item - 1) in
  let e := get_iter_at_line_offset buffer (Item.endLine item - 1) (Item.endColumn item - 1) in
  let lo := Nat.min s e in
  let hi := Nat.max s e in
  let stop := (lo + String.length (Item.replacement item))%nat in
  let fixed :=
    set_text (substring 0 lo (text buffer) ++ Item.replacement item
              ++ skip hi (text buffer)) in
  let line_start := get_iter_at_line fixed (Message.line message - 1) in
  let line_end := get_iter_at_line fixed (Message.endLine message) in
  preview_fix escape buffer message
  = Py.Return
      (String newline EmptyString
       ++ "<span foreground=" ++ dquote ++ "#0F0" ++ dquote ++ ">Did you mean:</span>"
       ++ String newline EmptyString
       ++ "<span foreground=" ++ dquote ++ "#999" ++ dquote
       ++ " background=" ++ dquote ++ "#222" ++ dquote ++ ">"
       ++ (escape (get_text fixed line_start lo)
           ++ "<span foreground=" ++ dquote ++ "#0F0" ++ dquote ++ ">"
           ++ escape (Item.replacement item) ++ "</span>")
       ++ rstrip_newline (escape (get_text fixed stop line_end))
       ++ "</span>")%string
  /\ get_text fixed lo stop = Item.replacement item.
Proof.
  intros Hfix s e lo hi stop fixed line_start line_end.
  assert (Hs : (s <= String.length (text buffer))%nat)
    by exact (get_iter_at_line_offset_le buffer _ _).
  assert (He : (e <= String.length (text buffer))%nat)
    by exact (get_iter_at_line_offset_le buffer _ _).
  assert (Hlo : (lo <= String.length (text buffer))%nat) by (subst lo; lia).
  set (P := substring 0 lo (text buffer)) in *.
  assert (HP : String.length P = lo) by (subst P; apply length_substring; lia).
  assert (Hgreen : get_text fixed lo stop = Item.replacement item).
  { unfold get_text. cbn [text fixed set_text].
    rewrite Nat.min_l, Nat.max_r by (subst stop; lia).
    replace (stop - lo)%nat with (String.length (Item.replacement item))
      by (subst stop; lia).
    rewrite substring_skip, (skip_app lo P _ HP).
    apply substring_0_app. reflexivity. }
  split; [|exact Hgreen].
  set (r := {| Replacement.line := Item.line item;
               Replacement.endLine := Item.endLine item;
               Replacement.column := Item.column item;
               Replacement.endColumn := Item.endColumn item;
               Replacement.start := 0%nat;
               Replacement.end_ := 1%nat;
               Replacement.text := Item.replacement item |}).
  unfold preview_fix. rewrite Hfix, get_text_whole.
  change (create_replacements (set_text (text buffer)) [item])
    with ({| text := text buffer; marks := [(s, true); (e, false)] |}, [r]).
  cbv beta iota.
  unfold apply_replacements. cbn [fold_left].
  set (scratch := apply_replacement _ r).
  assert (Hscratch : scratch
                     = {| text := (P ++ Item.replacement item
                                   ++ skip hi (text buffer))%string;
                          marks := [(lo, true); (stop, false)] |})
    by exact (apply_replacement_single (text buffer) s e r eq_refl eq_refl Hs He).
  clearbody scratch. subst scratch.
  unfold inserted_ranges, Replacement.get_range, get_iter_at_mark.
  cbn [map marks nth fst Replacement.start Replacement.end_ r].
  destruct (Z.of_nat lo >? Z.of_nat stop) eqn:Hgt;
    [apply Z.gtb_lt in Hgt; subst stop; lia|].
  rewrite merge_ranges_one by (subst stop; lia).
  cbn [Py.bind fold_left]. unfold render_range.
  set (scratch := {| text := (P ++ Item.replacement item ++ skip hi (text buffer))%string;
                     marks := [(lo, true); (stop, false)] |}).
  assert (Hstop : (stop <= String.length (text scratch))%nat).
  { cbn [text scratch]. rewrite !string_length_app, HP. subst stop. lia. }
  rewrite (get_iter_at_offset_nat scratch lo) by lia.
  rewrite (get_iter_at_offset_nat scratch stop) by exact Hstop.
  change (get_text scratch lo stop) with (get_text fixed lo stop).
  rewrite Hgreen. reflexivity.
Qed.

(** X15 on the line [abc], whose [b] is replaced by [X]. *)
Lemma single_replacement_preview_in_abc :
  preview_fix (fun s => s) Scenario.abc (Scenario.fixable [Scenario.replace_at 2 3 "X"])
  = Py.Return
      (String newline EmptyString
       ++ "<span foreground=" ++ dquote ++ "#0F0" ++ dquote ++ ">Did you mean:</span>"
       ++ String newline EmptyString
       ++ "<span foreground=" ++ dquote ++ "#999" ++ dquote
       ++ " background=" ++ dquote ++ "#222" ++ dquote ++ ">"
       ++ ("a"
           ++ "<span foreground=" ++ dquote ++ "#0F0" ++ dquote ++ ">"
           ++ "X" ++ "</span>")
       ++ "c"
       ++ "</span>")%string.
Proof.
  exact (proj1 (single_replacement_preview (fun s => s) Scenario.abc
                  (Scenario.fixable [Scenario.replace_at 2 3 "X"])
                  (Scenario.replace_at 2 3 "X") eq_refl)).
Defined.

End SingleReplacement.

(** ** The tooltip *)

Section TooltipShown.

Import GutterRenderer Tooltip.

Variable markup_escape_text : string -> string.

Lemma get_messages_in_range_restricted (context_data : list Message.t) (line : Z) :
  restricted (covers_line line) context_data (get_messages_in_range context_data line).
Proof.
  unfold get_messages_in_range.
  induction context_data as [|m context_data IH]; cbn [filter]; [constructor|].
  destruct (String.eqb (Message.file m) "-") eqn:Hfile; cbn [andb].
  - apply String.eqb_eq in Hfile.
    destruct (line >=? Message.line m) eqn:Hfirst; cbn [andb].
    + apply Z.geb_le in Hfirst.
      destruct (line <=? Message.endLine m) eqn:Hlast.
      * apply Z.leb_le in Hlast. apply restricted_keep; [|exact IH].
        split; [exact Hfile|lia].
      * apply Z.leb_gt in Hlast. apply restricted_drop; [|exact IH].
        intros [_ Hin]. lia.
    + apply restricted_drop; [|exact IH].
      intros [_ [Hin _]]. apply (proj2 (Z.geb_le _ _)) in Hin. congruence.
  - apply String.eqb_neq in Hfile. apply restricted_drop; [|exact IH].
    intros [Hf _]. exact (Hfile Hf).
Qed.

(** The text of one message: the filled template, the preview of the
    diagnostic's span and the preview of its fix. *)
Lemma format_messages_returns (buffer : Gtk.TextBuffer) (messages : list Message.t) :
  exists texts,
    format_messages markup_escape_text buffer messages = Py.Return texts
    /\ Forall2 (fun m text =>
                  exists fix_markup,
                    preview_fix markup_escape_text buffer m = Py.Return fix_markup
                    /\ text = (TOOLTIP_TEMPLATE_format markup_escape_text m
                               ++ preview_note markup_escape_text buffer m
                               ++ fix_markup)%string)
               messages texts.
Proof.
  induction messages as [|message messages (texts & IH & Hall)].
  - exists []. split; [reflexivity|constructor].
  - destruct (preview_fix_returns markup_escape_text buffer message) as [fix_markup Hfix].
    exists ((TOOLTIP_TEMPLATE_format markup_escape_text message
             ++ preview_note markup_escape_text buffer message ++ fix_markup)%string
            :: texts).
    split.
    + cbn [format_messages]. unfold format_message. cbv zeta.
      rewrite Hfix. cbn [Py.bind]. rewrite IH. cbn [Py.bind].
      rewrite string_app_assoc. reflexivity.
    + constructor; [|exact Hall]. exists fix_markup. split; [exact Hfix|reflexivity].
Qed.

(** X16: for a snapshot of records with the members of the tool's format,
    the tooltip query never raises, and it sets a tooltip on a line exactly
    when [do_draw] paints the cell of that line: when some message of the
    snapshot is one of the buffer itself (its file is [-]) and has the line
    between its first and its last line.  The tooltip then holds one text
    for each of these messages and for no other, in the order of the
    snapshot, separated by empty lines: the filled template, the preview of
    the diagnostic's span and the preview of its fix. *)
Theorem tooltip_iff_painted (context_data : list Message.t) (buffer : Gtk.TextBuffer)
        (line : Z) :
  exists covering,
    restricted (covers_line (line + 1)) context_data covering
    /\ match covering with
       | [] =>
           do_query_tooltip markup_escape_text context_data buffer line = Py.Return None
           /\ do_draw context_data line = None
       | _ :: _ =>
           (exists texts,
               Forall2 (fun m text =>
                          exists fix_markup,
                            preview_fix markup_escape_text buffer m = Py.Return fix_markup
                            /\ text = (TOOLTIP_TEMPLATE_format markup_escape_text m
                                       ++ preview_note markup_escape_text buffer m
                                       ++ fix_markup)%string)
                       covering texts
               /\ do_query_tooltip markup_escape_text context_data buffer line
                  = Py.Return
                      (Some ("<span font=" ++ dquote ++ "monospace" ++ dquote ++ ">"
                             ++ join_with (String Gtk.newline
                                             (String Gtk.newline EmptyString)) texts
                             ++ "</span>")%string))
           /\ do_draw context_data line <> None
       end.
Proof.
  exists (get_messages_in_range context_data (line + 1)).
  split; [apply get_messages_in_range_restricted|].
  unfold do_query_tooltip, do_draw, do_draw_level. cbv zeta.
  destruct context_data as [|m0 ms]; [split; reflexivity|].
  destruct (get_messages_in_range (m0 :: ms) (line + 1)) as [|m covering];
    [split; reflexivity|].
  destruct (format_messages_returns buffer (m :: covering)) as (texts & Htexts & Hall).
  split.
  - exists texts. split; [exact Hall|]. rewrite Htexts. reflexivity.
  - cbn [map Level.max option_map]. discriminate.
Qed.

End TooltipShown.
